(** * Beam planning: the visibility matrix and the greedy scheduler of [main.py]

    A shallow embedding of [src/main.py].  Python floats are the kernel's
    binary64 numbers, Python lists are lists indexed the Python way (a
    negative index counts from the end, anything else out of range raises
    [IndexError]), dictionaries are association lists in insertion order, and
    a raised exception is the [Raise] branch of the result type [res].
    Strings are sequences of code points below 256. *)

From Stdlib Require Import ZArith Lia Bool Ascii String DecimalString DecimalNat.
From Stdlib Require Import Uint63 PrimFloat FloatOps FloatAxioms SpecFloat.
From Stdlib Require Import Permutation.
From stdpp Require Import base list strings.

#[local] Open Scope string_scope.
#[local] Open Scope Z_scope.

(** ** Exceptions *)

Inductive exn : Type :=
| ZeroDivisionError
| OverflowError
| ValueError_math_domain
| ValueError_invalid_literal
| IndexError
| KeyError.

Inductive res (A : Type) : Type :=
| Ok (a : A)
| Raise (e : exn).

Arguments Ok {A} a.
Arguments Raise {A} e.

(** Sequencing: [x ← m; k] runs [k] on the value of [m], and an exception
    raised by [m] is the result. *)
#[global] Instance res_bind : MBind res :=
  fun A B (k : A -> res B) (m : res A) =>
    match m with
    | Ok a => k a
    | Raise e => Raise e
    end.

Definition is_ok {A : Type} (m : res A) : bool :=
  match m with Ok _ => true | Raise _ => false end.

(** A loop whose body may raise: the state is threaded through the
    iterations and the first exception ends the loop. *)
Fixpoint foldM {S A : Type} (f : S -> A -> res S) (s : S) (l : list A)
  : res S :=
  match l with
  | [] => Ok s
  | a :: rest => s' ← f s a; foldM f s' rest
  end.

(** [range(a, a + n)] and [range(n)]. *)
Definition range_from (a : Z) (n : nat) : list Z :=
  map (fun k : nat => a + Z.of_nat k) (seq 0 n).

Definition range (n : nat) : list Z := range_from 0 n.

(** ** Floats, as Python evaluates them *)

Module PyFloat.

(** [a / b] on floats raises when the divisor compares equal to zero. *)
Definition truediv (a b : float) : res float :=
  if PrimFloat.eqb b 0%float then Raise ZeroDivisionError
  else Ok (PrimFloat.div a b).

(** [x ** 2].  CPython answers the special cases itself (a NaN is returned
    as it is, an infinity gives [inf], a zero gives [0.0]) and hands the rest
    to the platform's [pow] on [|x|], raising [OverflowError] when that
    overflows; an underflow to zero is not an error.  The platform's [pow] at
    exponent two is taken to be the rounded product. *)
Definition pow2 (x : float) : res float :=
  if PrimFloat.is_nan x then Ok x
  else if PrimFloat.is_infinity x then Ok infinity
  else if PrimFloat.eqb x 0%float then Ok 0%float
  else
    let ix := PrimFloat.mul (PrimFloat.abs x) (PrimFloat.abs x) in
    if PrimFloat.is_infinity ix then Raise OverflowError else Ok ix.

(** [math.sqrt]: a domain error below zero. *)
Definition sqrt (x : float) : res float :=
  if PrimFloat.ltb x 0%float then Raise ValueError_math_domain
  else Ok (PrimFloat.sqrt x).

(** [max(a, b)] and [min(a, b)] keep the first argument unless the second
    is strictly greater (smaller). *)
Definition max (a b : float) : float := if PrimFloat.ltb a b then b else a.
Definition min (a b : float) : float := if PrimFloat.ltb b a then b else a.

(** [math.degrees(x)] is [x * (180.0 / pi)]. *)
Definition radToDeg : float :=
  Eval vm_compute in PrimFloat.div 180%float 0x1.921fb54442d18p+1%float.

Definition degrees (x : float) : float := PrimFloat.mul x radToDeg.

End PyFloat.

(** ** Lists, indexed as Python indexes them *)

Module PyList.

(** The position an index denotes in a list of [len] elements. *)
Definition index (len : nat) (i : Z) : res nat :=
  let n := Z.of_nat len in
  let j := if i <? 0 then i + n else i in
  if (0 <=? j) && (j <? n) then Ok (Z.to_nat j) else Raise IndexError.

Definition getitem {A : Type} (l : list A) (i : Z) : res A :=
  k ← index (length l) i;
  match l !! k with
  | Some x => Ok x
  | None => Raise IndexError
  end.

Definition setitem {A : Type} (l : list A) (i : Z) (x : A) : res (list A) :=
  k ← index (length l) i;
  Ok (<[k:=x]> l).

End PyList.

(** ** Strings *)

Module PyStr.

(** The characters [str.split()], [str.strip()] and [int()] treat as white
    space, among the code points below 256. *)
Definition is_space (c : ascii) : bool :=
  let n := N_of_ascii c in
  ((9 <=? n) && (n <=? 13) || (28 <=? n) && (n <=? 32)
   || (n =? 133) || (n =? 160))%N.

Definition is_digit (c : ascii) : bool :=
  let n := N_of_ascii c in ((48 <=? n) && (n <=? 57))%N.

Definition digit_value (c : ascii) : nat := N.to_nat (N_of_ascii c - 48).

(** [needle in hay]. *)
Fixpoint contains (needle hay : string) : bool :=
  String.prefix needle hay
  || match hay with
     | EmptyString => false
     | String _ rest => contains needle rest
     end.

Fixpoint lstrip (s : string) : string :=
  match s with
  | EmptyString => EmptyString
  | String c rest => if is_space c then lstrip rest else s
  end.

Fixpoint rstrip (s : string) : string :=
  match s with
  | EmptyString => EmptyString
  | String c rest =>
    match rstrip rest with
    | EmptyString => if is_space c then EmptyString else String c EmptyString
    | r => String c r
    end
  end.

Definition strip (s : string) : string := rstrip (lstrip s).

(** [s.split()]: the maximal runs of characters that are not white space.
    [cur] is the run being read, last character first. *)
Definition flush (cur : list ascii) (k : list string) : list string :=
  match cur with
  | [] => k
  | _ => string_of_list_ascii (rev cur) :: k
  end.

Fixpoint split_from (cur : list ascii) (s : string) : list string :=
  match s with
  | EmptyString => flush cur []
  | String c rest =>
    if is_space c then flush cur (split_from [] rest)
    else split_from (c :: cur) rest
  end.

Definition split (s : string) : list string := split_from [] s.

(** [str(n)] for an integer. *)
Definition str (n : Z) : string :=
  if n <? 0 then String "-" (NilEmpty.string_of_uint (Nat.to_uint (Z.to_nat (- n))))
  else NilEmpty.string_of_uint (Nat.to_uint (Z.to_nat n)).

(** [int(s)], base ten: white space around the literal is dropped, a sign
    may come first, and single underscores may separate digits. *)
Fixpoint parse_digits (acc : nat) (after_digit : bool) (s : string)
  : option nat :=
  match s with
  | EmptyString => if after_digit then Some acc else None
  | String c rest =>
    if is_digit c then parse_digits (digit_value c + 10 * acc)%nat true rest
    else if Ascii.eqb c "_" then
      if after_digit then parse_digits acc false rest else None
    else None
  end.

Definition int (s : string) : res Z :=
  let t := strip s in
  let '(neg, body) :=
    match t with
    | String "-" r => (true, r)
    | String "+" r => (false, r)
    | _ => (false, t)
    end in
  match parse_digits 0 false body with
  | Some n => Ok (if neg then - Z.of_nat n else Z.of_nat n)
  | None => Raise ValueError_invalid_literal
  end.

End PyStr.

(** ** Dictionaries, in insertion order *)

Module PyDict.

Abbreviation dict K V := (list (K * V)).

Definition keys {K V : Type} (d : dict K V) : list K := map fst d.

Fixpoint lookup `{EqDecision K} {V : Type} (d : dict K V) (k : K)
  : option V :=
  match d with
  | [] => None
  | (k', v) :: rest => if decide (k' = k) then Some v else lookup rest k
  end.

(** [d[k]]. *)
Definition getitem `{EqDecision K} {V : Type} (d : dict K V) (k : K)
  : res V :=
  match lookup d k with
  | Some v => Ok v
  | None => Raise KeyError
  end.

(** [d[k] = v]: a key already present keeps its place. *)
Fixpoint setitem `{EqDecision K} {V : Type} (d : dict K V) (k : K) (v : V)
  : dict K V :=
  match d with
  | [] => [(k, v)]
  | (k', v') :: rest =>
    if decide (k' = k) then (k', v) :: rest else (k', v') :: setitem rest k v
  end.

End PyDict.

(** ** The program *)

Record Vector3 : Type := mkVector3 { vx : float; vy : float; vz : float }.

(** Center of the earth. *)
Definition origin : Vector3 := mkVector3 0 0 0.

Definition beams_per_satellite : Z := 32.
Definition colors_per_satellite : Z := 4.
Definition valid_color_ids : list string := ["A"; "B"; "C"; "D"].
Definition self_interference_max : float := 10%float.
Definition non_starlink_interference_max : float := 20%float.
Definition max_user_visible_angle : float := 45%float.

Inductive BeamState : Type :=
| AVAILIBLE
| IN_USE
| UNAVAILIBLE.

#[global] Instance BeamState_eq_dec : EqDecision BeamState.
Proof. solve_decision. Defined.

Definition is_available (s : BeamState) : bool :=
  match s with AVAILIBLE => true | _ => false end.

(** [scenario['sats']], [scenario['users']] and [scenario['interferers']]:
    positions by identifier, the identifiers being the strings read. *)
Record Scenario : Type := mkScenario {
  sats : PyDict.dict string Vector3;
  users : PyDict.dict string Vector3;
  interferers : PyDict.dict string Vector3
}.

(** The visibility matrix: one row per user, one column per satellite and
    color. *)
Abbreviation matrix := (list (list BeamState)).

(** [v[r][c]]. *)
Definition getcell (v : matrix) (r c : Z) : res BeamState :=
  row ← PyList.getitem v r;
  PyList.getitem row c.

(** [v[r][c] = x]: the row is updated in place, where it sits in [v]. *)
Definition setcell (v : matrix) (r c : Z) (x : BeamState) : res matrix :=
  k ← PyList.index (length v) r;
  row ← PyList.getitem v r;
  row' ← PyList.setitem row c x;
  Ok (<[k:=row']> v).

(** [solution[sat_id]] is the list of beams of that satellite, each
    [[user, color]], in the order they were assigned. *)
Abbreviation solution := (list (Z * list (Z * Z))).

Definition set_user_beam (v : matrix) (user_i color_i sat_id : Z)
    (state : BeamState) : res matrix :=
  setcell v user_i ((sat_id - 1) * colors_per_satellite + color_i) state.

(** The matrix as it is allocated, before the visibility checks. *)
Definition blank_matrix (scenario : Scenario) : matrix :=
  let sat_dim :=
    (length (sats scenario) * Z.to_nat colors_per_satellite)%nat in
  let user_dim := length (users scenario) in
  replicate user_dim (replicate sat_dim UNAVAILIBLE).

Section Program.

(** [math.acos] on its domain [[-1, 1]]; outside it the call raises, which
    [py_acos] adds. *)
Variable acos : float -> float.

(** The builtin [float] on a string; [None] when it raises. *)
Variable float_of_string : string -> option float.

Definition py_acos (x : float) : res float :=
  if PrimFloat.ltb x (-1)%float || PrimFloat.ltb 1%float x
  then Raise ValueError_math_domain
  else Ok (acos x).

(** The warning printed when the bound moves the dot product by more than
    [0.000001] changes nothing that is returned and is left out. *)
Definition calculate_angle_degrees (vertex point_a point_b : Vector3)
  : res float :=
  let va := mkVector3 (vx point_a - vx vertex) (vy point_a - vy vertex)
                      (vz point_a - vz vertex) in
  let vb := mkVector3 (vx point_b - vx vertex) (vy point_b - vy vertex)
                      (vz point_b - vz vertex) in
  ax2 ← PyFloat.pow2 (vx va);
  ay2 ← PyFloat.pow2 (vy va);
  az2 ← PyFloat.pow2 (vz va);
  va_mag ← PyFloat.sqrt (ax2 + ay2 + az2);
  bx2 ← PyFloat.pow2 (vx vb);
  by2 ← PyFloat.pow2 (vy vb);
  bz2 ← PyFloat.pow2 (vz vb);
  vb_mag ← PyFloat.sqrt (bx2 + by2 + bz2);
  nax ← PyFloat.truediv (vx va) va_mag;
  nay ← PyFloat.truediv (vy va) va_mag;
  naz ← PyFloat.truediv (vz va) va_mag;
  nbx ← PyFloat.truediv (vx vb) vb_mag;
  nby ← PyFloat.truediv (vy vb) vb_mag;
  nbz ← PyFloat.truediv (vz vb) vb_mag;
  let dot_product := (nax * nbx + nay * nby + naz * nbz)%float in
  let dot_product_bound :=
    PyFloat.min 1%float (PyFloat.max (-1)%float dot_product) in
  a ← py_acos dot_product_bound;
  Ok (PyFloat.degrees a).

(** *** Reading the scenario *)

(** The function returns success or failure and writes into [dest]; here
    it returns the flag with the dictionary as it leaves it.  Whatever is
    raised while the three coordinates are read is caught. *)
Definition read_object (object_type line : string)
    (dest : PyDict.dict string Vector3)
  : res (bool * PyDict.dict string Vector3) :=
  let parts := PyStr.split line in
  p0 ← PyList.getitem parts 0;
  if negb (String.eqb p0 object_type) || negb (length parts =? 5)%nat
  then Ok (false, dest)
  else
    ident ← PyList.getitem parts 1;
    match PyList.getitem parts 2, PyList.getitem parts 3,
          PyList.getitem parts 4 with
    | Ok sx, Ok sy, Ok sz =>
      match float_of_string sx, float_of_string sy, float_of_string sz with
      | Some x, Some y, Some z =>
        Ok (true, PyDict.setitem dest ident (mkVector3 x y z))
      | _, _, _ => Ok (false, dest)
      end
    | _, _, _ => Ok (false, dest)
    end.

Fixpoint read_lines (lines : list string) (scenario : Scenario)
  : res (bool * Scenario) :=
  match lines with
  | [] => Ok (true, scenario)
  | line :: rest =>
    if PyStr.contains "#" line then read_lines rest scenario
    else if String.eqb (PyStr.strip line) "" then read_lines rest scenario
    else if PyStr.contains "interferer" line then
      '(ok, d) ← read_object "interferer" line (interferers scenario);
      if ok : bool
      then read_lines rest (mkScenario (sats scenario) (users scenario) d)
      else Ok (false, scenario)
    else if PyStr.contains "sat" line then
      '(ok, d) ← read_object "sat" line (sats scenario);
      if ok : bool
      then read_lines rest
             (mkScenario d (users scenario) (interferers scenario))
      else Ok (false, scenario)
    else if PyStr.contains "user" line then
      '(ok, d) ← read_object "user" line (users scenario);
      if ok : bool
      then read_lines rest
             (mkScenario (sats scenario) d (interferers scenario))
      else Ok (false, scenario)
    else Ok (false, scenario)
  end.

(** [scenariofile_lines] stands for what [open(filename).readlines()]
    gives.  The three dictionaries start empty. *)
Definition read_scenario (scenariofile_lines : list string)
  : res (bool * Scenario) :=
  read_lines scenariofile_lines (mkScenario [] [] []).

(** *** Constraint propagation *)

(** One pass of the loop over [user_i] in [update_visibility]. *)
Definition update_visibility_user (scenario : Scenario)
    (target_user_pos : Vector3) (mark_sat_full : bool) (sat_id color_i : Z)
    (v : matrix) (user_i : Z) : res matrix :=
  let sat_i := (sat_id - 1) * colors_per_satellite in
  let sat_i_color_i := sat_i + color_i in
  user ← PyList.getitem v user_i;
  if mark_sat_full then
    foldM (fun v i =>
             s ← getcell v user_i i;
             if is_available s then setcell v user_i i UNAVAILIBLE else Ok v)
          v (range_from sat_i (Z.to_nat colors_per_satellite))
  else
    s ← PyList.getitem user sat_i_color_i;
    if negb (is_available s) then Ok v
    else
      user_pos ← PyDict.getitem (users scenario) (PyStr.str (user_i + 1));
      sat_pos ← PyDict.getitem (sats scenario) (PyStr.str sat_id);
      angle ← calculate_angle_degrees sat_pos target_user_pos user_pos;
      if PrimFloat.ltb angle self_interference_max
      then setcell v user_i sat_i_color_i UNAVAILIBLE
      else Ok v.

Definition update_visibility (v : matrix) (scenario : Scenario)
    (target_user_i sat_id color_i beam_i : Z) : res matrix :=
  v ← set_user_beam v target_user_i color_i sat_id IN_USE;
  target_user_pos ←
    PyDict.getitem (users scenario) (PyStr.str (target_user_i + 1));
  let mark_sat_full := beam_i =? beams_per_satellite - 1 in
  let num_users := length v in
  row0 ← PyList.getitem v 0;
  foldM (update_visibility_user scenario target_user_pos mark_sat_full
           sat_id color_i)
        v (range num_users).

(** *** The visibility matrix *)

(** The loop over the interferers, left at the first violation. *)
Fixpoint interferer_violation (scenario : Scenario)
    (user_pos sat_pos : Vector3) (ids : list string) : res bool :=
  match ids with
  | [] => Ok false
  | interferer_id :: rest =>
    interferer_pos ← PyDict.getitem (interferers scenario) interferer_id;
    interferer_angle ←
      calculate_angle_degrees user_pos interferer_pos sat_pos;
    if PrimFloat.ltb interferer_angle non_starlink_interference_max
    then Ok true
    else interferer_violation scenario user_pos sat_pos rest
  end.

(** The body of the two loops over [user_id] and [sat_id]. *)
Definition visibility_pair (scenario : Scenario) (user_id : string)
    (v : matrix) (sat_id : string) : res matrix :=
  user_pos ← PyDict.getitem (users scenario) user_id;
  sat_pos ← PyDict.getitem (sats scenario) sat_id;
  angle ← calculate_angle_degrees user_pos origin sat_pos;
  if PrimFloat.leb angle (180 - max_user_visible_angle)%float then Ok v
  else
    violation ← interferer_violation scenario user_pos sat_pos
                  (PyDict.keys (interferers scenario));
    if violation : bool then Ok v
    else
      foldM (fun v i =>
               s ← PyStr.int sat_id;
               let sat_i := (s - 1) * colors_per_satellite + i in
               u ← PyStr.int user_id;
               let user_i := u - 1 in
               setcell v user_i sat_i AVAILIBLE)
            v (range (Z.to_nat colors_per_satellite)).

Definition generate_visibility_matrix (scenario : Scenario) : res matrix :=
  foldM (fun v user_id =>
           foldM (visibility_pair scenario user_id) v
                 (PyDict.keys (sats scenario)))
        (blank_matrix scenario) (PyDict.keys (users scenario)).

(** *** The greedy solver *)

(** The scan of one user's row: the first column whose cell is available,
    if there is one. *)
Fixpoint first_available (v : matrix) (user_i : Z) (cols : list Z)
  : res (option Z) :=
  match cols with
  | [] => Ok None
  | sat_beam_i :: rest =>
    sat_beam_status ← getcell v user_i sat_beam_i;
    if is_available sat_beam_status then Ok (Some sat_beam_i)
    else first_available v user_i rest
  end.

(** [solution[sat_id].append(new_beam)], the list being created when the
    satellite has none; the result comes with the list's length. *)
Definition append_beam (sol : solution) (sat_id : Z) (new_beam : Z * Z)
  : solution * nat :=
  let beams := (default [] (PyDict.lookup sol sat_id) ++ [new_beam])%list in
  (PyDict.setitem sol sat_id beams, length beams).

(** One pass of the loop over [user_i] in [main].  [floor(i / 4)] is the
    integer quotient for every index a list can have. *)
Definition solve_user (scenario : Scenario) (num_sat_beam : nat)
    (st : matrix * solution) (user_i : Z) : res (matrix * solution) :=
  let '(v, sol) := st in
  user ← PyList.getitem v user_i;
  found ← first_available v user_i (range num_sat_beam);
  match found with
  | None => Ok (v, sol)
  | Some sat_beam_i =>
    let sat_id := sat_beam_i / colors_per_satellite + 1 in
    let color_i := sat_beam_i mod colors_per_satellite in
    let new_beam := (user_i + 1, color_i) in
    let '(sol', len) := append_beam sol sat_id new_beam in
    let current_beam_i := Z.of_nat len - 1 in
    v' ← update_visibility v scenario user_i sat_id color_i current_beam_i;
    Ok (v', sol')
  end.

(** The loop of [main] after its first [k] users. *)
Definition solve_users (scenario : Scenario) (num_sat_beam : nat)
    (v : matrix) (k : nat) : res (matrix * solution) :=
  foldM (solve_user scenario num_sat_beam) (v, []) (range k).

Definition greedy_solver (scenario : Scenario) (v : matrix)
  : res (matrix * solution) :=
  let num_users := length v in
  row0 ← PyList.getitem v 0;
  let num_sat_beam := length row0 in
  solve_users scenario num_sat_beam v num_users.

(** *** Output *)

Definition newline : string := String (ascii_of_nat 10) EmptyString.

Definition join_space (l : list string) : string :=
  match l with
  | [] => ""
  | w :: rest => fold_left (fun acc x => acc ++ " " ++ x) rest w
  end.

Definition format_beam (sat_id : Z) (result : string)
    (numbered : Z * (Z * Z)) : res string :=
  let '(beam_i, (user, color_i)) := numbered in
  color ← PyList.getitem valid_color_ids color_i;
  Ok (result ++ join_space ["sat"; PyStr.str sat_id; "beam";
                            PyStr.str (beam_i + 1); "user"; PyStr.str user;
                            "color"; color] ++ newline).

(** What [format_solution] prints. *)
Definition format_solution (sol : solution) : res string :=
  result ←
    foldM (fun result '(sat_id, sat) =>
             foldM (format_beam sat_id) result
                   (zip (range (length sat)) sat))
          "" sol;
  Ok (result ++ newline).

(** The visibility matrix, then the greedy pass over it. *)
Definition schedule (scenario : Scenario) : res (matrix * solution) :=
  v ← generate_visibility_matrix scenario;
  greedy_solver scenario v.

(** [main] on a scenario file: the exit code with the text that
    [format_solution] prints, or the exception that ends the run.  The
    other texts the program writes on the same output, the messages of the
    reader on a line it refuses and the warning of
    [calculate_angle_degrees], are left out. *)
Definition main (scenariofile_lines : list string) : res (Z * string) :=
  '(ok, scenario) ← read_scenario scenariofile_lines;
  if negb ok then Ok (-1, "")
  else
    '(_, sol) ← schedule scenario;
    out ← format_solution sol;
    Ok (0, out).

End Program.

(** ** Stand-ins to run the program

    The theorems hold for every [acos] and every [float_of_string]; to run
    the program on an example the two are fixed as follows. *)

(** An arc cosine that is right about the three comparisons the program
    makes: it puts the angle on the right side of 10, 20 and 135 degrees
    (the cosines of which are the three bounds), answering 0, 15, 90 or 180
    degrees in radians. *)
Definition acos_by_thresholds (x : float) : float :=
  if PrimFloat.ltb 0x1.f838b8c811c17p-1 x then 0
  else if PrimFloat.ltb 0x1.e11f642522d1cp-1 x then 0x1.0c152382d7366p-2
  else if PrimFloat.leb (-0x1.6a09e667f3bcdp-1) x then 0x1.921fb54442d18p+0
  else 0x1.921fb54442d18p+1.

(** The builtin [float] on the integer literals below [2^53]. *)
Definition float_of_integer_literal (s : string) : option float :=
  match PyStr.int s with
  | Ok z =>
    if Z.abs z <? 2 ^ 53 then
      let m := PrimFloat.of_uint63 (Uint63.of_Z (Z.abs z)) in
      Some (if z <? 0 then PrimFloat.opp m else m)
    else None
  | Raise _ => None
  end.

(** ** A scenario that fills a satellite

    One satellite at height 10000 on the z axis and, 10 below it, eight
    spots at least 20 degrees apart as the satellite sees them, each with
    four users, then one more user straight below the satellite: 33 users
    who all see the satellite, for 32 beams. *)
Definition demo_spots : list Vector3 :=
  [mkVector3 3 3 9990; mkVector3 (-3) 3 9990; mkVector3 3 (-3) 9990;
   mkVector3 (-3) (-3) 9990; mkVector3 6 0 9990; mkVector3 (-6) 0 9990;
   mkVector3 0 6 9990; mkVector3 0 (-6) 9990].

(** The positions as the dictionary of the users ["1"], ["2"], ... *)
Definition numbered (l : list Vector3) : PyDict.dict string Vector3 :=
  imap (fun i p => (PyStr.str (Z.of_nat i + 1), p)) l.

Definition demo_scenario : Scenario :=
  mkScenario [("1", mkVector3 0 0 10000)]
    (numbered (demo_spots ++ demo_spots ++ demo_spots ++ demo_spots
               ++ [mkVector3 0 0 9990])%list)
    [].

(** The visibility matrix of that scenario: every cell is available. *)
Definition demo_matrix : matrix := replicate 33 (replicate 4 AVAILIBLE).

(** ** A scenario with an interferer

    Two satellites, two users and an interferer: the first user sees both
    satellites, the interferer being right behind the first one; the second
    user sees no satellite. *)
Definition small_scenario : Scenario :=
  mkScenario
    [("1", mkVector3 0 0 42164); ("2", mkVector3 20000 0 30000)]
    [("1", mkVector3 0 0 6371); ("2", mkVector3 6371 0 0)]
    [("1", mkVector3 0 0 50000)].

(** ** Vocabulary of the properties *)

(** The cell in row [r] and column [c], counted from zero. *)
Definition cell (v : matrix) (r c : nat) : option BeamState :=
  v !! r ≫= fun row => row !! c.

(** What a cell may do in one step: stay as it is, or leave [AVAILIBLE]. *)
Inductive transition : BeamState -> BeamState -> Prop :=
| transition_stay (s : BeamState) : transition s s
| transition_take : transition AVAILIBLE IN_USE
| transition_block : transition AVAILIBLE UNAVAILIBLE.

(** [v'] has the shape of [v] and every cell of [v'] is the cell of [v] or
    has left [AVAILIBLE]. *)
Definition evolves (v v' : matrix) : Prop :=
  Forall2 (Forall2 transition) v v'.

(** The column of a satellite and a color. *)
Definition column (sat_id color_i : Z) : Z :=
  (sat_id - 1) * colors_per_satellite + color_i.

(** No cell of the satellite is available, for any user and any color. *)
Definition sat_closed (v : matrix) (sat_id : Z) : Prop :=
  forall (r : nat) (c : Z),
    column sat_id 0 <= c < column sat_id colors_per_satellite ->
    cell v r (Z.to_nat c) <> Some AVAILIBLE.

(** The two users' beams of one color from the satellite do not
    interfere, as [update_visibility] tests it: the positions are there, the
    angle at the satellite between them is computed, and it is not below
    [self_interference_max]. *)
Definition clear_of (acos : float -> float) (scenario : Scenario)
    (sat_id user1 user2 : Z) : Prop :=
  exists sat_pos pos1 pos2 angle,
    PyDict.getitem (sats scenario) (PyStr.str sat_id) = Ok sat_pos /\
    PyDict.getitem (users scenario) (PyStr.str user1) = Ok pos1 /\
    PyDict.getitem (users scenario) (PyStr.str user2) = Ok pos2 /\
    calculate_angle_degrees acos sat_pos pos1 pos2 = Ok angle /\
    PrimFloat.ltb angle self_interference_max = false.

(** The beams of a satellite in a solution; none when the satellite has no
    entry. *)
Definition beams_of (sol : solution) (sat_id : Z) : list (Z * Z) :=
  default [] (PyDict.lookup sol sat_id).

(** A float that is a number and not an infinity. *)
Definition is_finite (x : float) : bool :=
  negb (PrimFloat.is_nan x) && negb (PrimFloat.is_infinity x).

Definition finite_vector (p : Vector3) : bool :=
  is_finite (vx p) && is_finite (vy p) && is_finite (vz p).

(** The two points have equal coordinates. *)
Definition coincide (p q : Vector3) : bool :=
  PrimFloat.eqb (vx p) (vx q) && PrimFloat.eqb (vy p) (vy q)
  && PrimFloat.eqb (vz p) (vz q).

(** Not below zero: a NaN, a zero, a positive number or plus infinity. *)
Definition not_negative (f : spec_float) : bool :=
  match f with
  | S754_infinity true | S754_finite true _ _ => false
  | _ => true
  end.

(** The length [calculate_angle_degrees] computes for the direction from
    the vertex to a point. *)
Definition magnitude (vertex point : Vector3) : res float :=
  x2 ← PyFloat.pow2 (vx point - vx vertex);
  y2 ← PyFloat.pow2 (vy point - vy vertex);
  z2 ← PyFloat.pow2 (vz point - vz vertex);
  PyFloat.sqrt (x2 + y2 + z2).

(** A line that is neither a comment nor blank. *)
Definition relevant (line : string) : bool :=
  negb (PyStr.contains "#" line) && negb (String.eqb (PyStr.strip line) "").

(** A line of five tokens, the first one of the three keywords and the last
    three numbers. *)
Definition well_formed (float_of_string : string -> option float)
    (line : string) : bool :=
  match PyStr.split line with
  | [kw; _; x; y; z] =>
    bool_decide (kw ∈ ["sat"; "user"; "interferer"])
    && bool_decide (is_Some (float_of_string x))
    && bool_decide (is_Some (float_of_string y))
    && bool_decide (is_Some (float_of_string z))
  | _ => false
  end.

(** The line names one kind of object only: the text [interferer] is in
    no line of a satellite or a user, and the text [sat] in no line of a
    user. *)
Definition unambiguous (line : string) : bool :=
  match PyStr.split line with
  | kw :: _ =>
    if String.eqb kw "interferer" then true
    else if String.eqb kw "sat" then negb (PyStr.contains "interferer" line)
    else negb (PyStr.contains "interferer" line)
         && negb (PyStr.contains "sat" line)
  | [] => true
  end.

(** A string of decimal digits. *)
Definition digits_only (s : string) : Prop :=
  Forall (fun c => PyStr.is_digit c = true) (list_ascii_of_string s).

(** [U] rows of [C] cells. *)
Definition shaped (U C : nat) (v : matrix) : Prop :=
  length v = U /\ Forall (fun row => length row = C) v.

(** The two checks of [generate_visibility_matrix] on a user and a
    satellite: the satellite is high enough and no interferer is too close
    to it. *)
Definition pair_visible (acos : float -> float) (scenario : Scenario)
    (user_id sat_id : string) : res bool :=
  user_pos ← PyDict.getitem (users scenario) user_id;
  sat_pos ← PyDict.getitem (sats scenario) sat_id;
  angle ← calculate_angle_degrees acos user_pos origin sat_pos;
  if PrimFloat.leb angle (180 - max_user_visible_angle)%float then Ok false
  else
    violation ← interferer_violation acos scenario user_pos sat_pos
                  (PyDict.keys (interferers scenario));
    Ok (negb violation).

(** The last loop of [generate_visibility_matrix], which writes the cells
    of a user and a satellite. *)
Definition mark_available (user_id sat_id : string) (v : matrix)
    (colors : list Z) : res matrix :=
  foldM (fun v i =>
           s ← PyStr.int sat_id;
           let sat_i := (s - 1) * colors_per_satellite + i in
           u ← PyStr.int user_id;
           let user_i := u - 1 in
           setcell v user_i sat_i AVAILIBLE)
        v colors.

(** The cell in row [r] and column [c] is one of those written for the
    user, the satellite and one of the colors, in a matrix of [U] rows and
    [C] columns. *)
Definition targets (U C : nat) (colors : list Z) (user_id sat_id : string)
    (r c : nat) : Prop :=
  exists u s i,
    PyStr.int user_id = Ok u /\ PyStr.int sat_id = Ok s /\ i ∈ colors /\
    PyList.index U (u - 1) = Ok r /\
    PyList.index C ((s - 1) * colors_per_satellite + i) = Ok c.

(** The identifiers are the decimal strings of 1, 2, ... up to the number
    of entries, in any order. *)
Definition ids_contiguous (d : PyDict.dict string Vector3) : Prop :=
  Permutation (PyDict.keys d) (map PyStr.str (range_from 1 (length d))).

(** The exception comes from the geometry. *)
Definition arithmetic (e : exn) : Prop :=
  e = ZeroDivisionError \/ e = OverflowError.

(** The computation ends well or with an exception of the geometry: no
    index is out of range, no key is missing, no identifier fails to be a
    number. *)
Definition safe {A : Type} (m : res A) : Prop :=
  forall e, m = Raise e -> arithmetic e.

(** What holds of the matrix when the pairs of a user and a satellite in
    [P] have been checked: the available cells are those written for the
    pairs of [P] that passed the checks, and no cell is in use. *)
Definition constructed (acos : float -> float) (scenario : Scenario)
    (U C : nat) (P : string -> string -> Prop) (v : matrix) : Prop :=
  let colors := range (Z.to_nat colors_per_satellite) in
  shaped U C v /\
  (forall r c,
     cell v r c = Some AVAILIBLE ->
     exists user_id sat_id,
       P user_id sat_id /\
       pair_visible acos scenario user_id sat_id = Ok true /\
       targets U C colors user_id sat_id r c) /\
  (forall user_id sat_id r c,
     P user_id sat_id ->
     pair_visible acos scenario user_id sat_id = Ok true ->
     targets U C colors user_id sat_id r c ->
     cell v r c = Some AVAILIBLE) /\
  (forall r c s, cell v r c = Some s -> s = AVAILIBLE \/ s = UNAVAILIBLE) /\
  (forall user_id sat_id,
     P user_id sat_id ->
     exists visible, pair_visible acos scenario user_id sat_id = Ok visible) /\
  (forall user_id sat_id i,
     P user_id sat_id ->
     pair_visible acos scenario user_id sat_id = Ok true ->
     i ∈ colors ->
     exists u s kr kc,
       PyStr.int user_id = Ok u /\ PyStr.int sat_id = Ok s /\
       PyList.index U (u - 1) = Ok kr /\
       PyList.index C ((s - 1) * colors_per_satellite + i) = Ok kc).

(** The interferer is too close to the satellite, seen from the user. *)
Definition violates (acos : float -> float) (scenario : Scenario)
    (user_pos sat_pos : Vector3) (interferer_id : string) : Prop :=
  exists interferer_pos interferer_angle,
    PyDict.getitem (interferers scenario) interferer_id = Ok interferer_pos /\
    calculate_angle_degrees acos user_pos interferer_pos sat_pos
      = Ok interferer_angle /\
    PrimFloat.ltb interferer_angle non_starlink_interference_max = true.

(** Two dictionaries with the same entries, in any order. *)
Definition same_entries (d1 d2 : PyDict.dict string Vector3) : Prop :=
  NoDup (PyDict.keys d1) /\ Permutation d1 d2.

(** Two scenarios with the same satellites, users and interferers, the
    dictionaries enumerating them in any order. *)
Definition same_scenario (sc1 sc2 : Scenario) : Prop :=
  same_entries (sats sc1) (sats sc2) /\
  same_entries (users sc1) (users sc2) /\
  same_entries (interferers sc1) (interferers sc2).

(** ** The rest of [main.py] *)

(** List of valid beam IDs. *)
Definition valid_beam_ids : list string :=
  map PyStr.str (range_from 1 (Z.to_nat beams_per_satellite)).

(** [calculate_distance]: the distance between two points. *)
Definition calculate_distance (point_a point_b : Vector3) : res float :=
  x_diff_squared ← PyFloat.pow2 (vx point_b - vx point_a);
  y_diff_squared ← PyFloat.pow2 (vy point_b - vy point_a);
  z_diff_squared ← PyFloat.pow2 (vz point_b - vz point_a);
  PyFloat.sqrt (x_diff_squared + y_diff_squared + z_diff_squared).

(** [str(state)] for a member of the enumeration. *)
Definition BeamState_str (s : BeamState) : string :=
  match s with
  | AVAILIBLE => "BeamState.AVAILIBLE"
  | IN_USE => "BeamState.IN_USE"
  | UNAVAILIBLE => "BeamState.UNAVAILIBLE"
  end.

(** [matrix_printer]: what is printed when the function returns, or the
    exception that ends it.  Every row is read up to the length of the
    first one. *)
Definition matrix_printer (m : matrix) : res string :=
  let num_rows := length m in
  row0 ← PyList.getitem m 0;
  let num_cols := length row0 in
  foldM (fun out row =>
           out ← foldM (fun out col =>
                          s ← getcell m row col;
                          Ok (out ++ BeamState_str s ++ ", "))
                       out (range num_cols);
           Ok (out ++ newline))
        "" (range num_rows).

(** How a run of the program ends: [main] returns an exit code, with the
    text of [format_solution] if it got there; an exception is not caught;
    or the scenario file cannot be opened. *)
Inductive run : Type :=
| Exit (code : Z) (out : string)
| Uncaught (e : exn)
| OSError (filename : string).

(** [main] from its first line: [argv] is [sys.argv] and [readlines] gives
    the lines of a file, [None] when [open] fails.  The usage message is
    left out of the text, as the messages of the reader and the warning of
    [calculate_angle_degrees] are. *)
Definition main_argv (acos : float -> float)
    (float_of_string : string -> option float)
    (readlines : string -> option (list string)) (argv : list string)
  : run :=
  if negb (length argv =? 2)%nat && negb (length argv =? 1)%nat
  then Exit (-1) ""
  else
    match PyList.getitem argv 1 with
    | Raise e => Uncaught e
    | Ok filename =>
      match readlines filename with
      | None => OSError filename
      | Some scenariofile_lines =>
        match main acos float_of_string scenariofile_lines with
        | Ok (code, out) => Exit code out
        | Raise e => Uncaught e
        end
      end
    end.

(** ** Vocabulary of the further properties *)

(** From [v] to [v'] a cell is kept, or it was available and is
    unavailable, which happens only where [B] holds of its row and
    column. *)
Definition closes (B : nat -> nat -> Prop) (v v' : matrix) : Prop :=
  forall r c,
    cell v' r c = cell v r c \/
    cell v r c = Some AVAILIBLE /\ cell v' r c = Some UNAVAILIBLE /\ B r c.

(** The two users' beams of one color from the satellite interfere, as
    [update_visibility] tests it: the angle at the satellite between them
    is computed and is below [self_interference_max]. *)
Definition too_close (acos : float -> float) (scenario : Scenario)
    (sat_id user1 user2 : Z) : Prop :=
  exists sat_pos pos1 pos2 angle,
    PyDict.getitem (sats scenario) (PyStr.str sat_id) = Ok sat_pos /\
    PyDict.getitem (users scenario) (PyStr.str user1) = Ok pos1 /\
    PyDict.getitem (users scenario) (PyStr.str user2) = Ok pos2 /\
    calculate_angle_degrees acos sat_pos pos1 pos2 = Ok angle /\
    PrimFloat.ltb angle self_interference_max = true.

(** Why [update_visibility], called for a user, a satellite, a color and
    the number of the beam, closes the cell in row [r] and column [c]: the
    beam is the last one of the satellite and the column is one of the
    satellite's, or the column is the one of the beam and the user of the
    row is too close to the user of the beam. *)
Definition blocked_by (acos : float -> float) (scenario : Scenario)
    (target_user_i sat_id color_i beam_i : Z) (r c : nat) : Prop :=
  if beam_i =? beams_per_satellite - 1
  then column sat_id 0 <= Z.of_nat c < column sat_id colors_per_satellite
  else c = Z.to_nat (column sat_id color_i) /\
       too_close acos scenario sat_id (target_user_i + 1) (Z.of_nat r + 1).

(** The user has a beam in the assignment. *)
Definition served (sol : solution) (user : Z) : Prop :=
  exists sat_id (i : nat) color_i,
    beams_of sol sat_id !! i = Some (user, color_i).

(** The line printed for a beam. *)
Definition beam_line (sat_id beam user : Z) (color : string) : string :=
  join_space ["sat"; PyStr.str sat_id; "beam"; PyStr.str beam;
              "user"; PyStr.str user; "color"; color] ++ newline.

(** The lines printed for a satellite: its beams are numbered from 1, in
    the order of the list. *)
Definition sat_lines (sat_id : Z) (sat : list (Z * Z)) : list string :=
  imap (fun i '(user, color_i) =>
          beam_line sat_id (Z.of_nat i + 1) user
            (default "" (valid_color_ids !! Z.to_nat color_i)))
       sat.

(** The color indices of the assignment are in [0, 1, 2, 3]. *)
Definition colors_valid (sol : solution) : Prop :=
  Forall (fun '(_, sat) =>
            Forall (fun '(_, color_i) =>
                      0 <= color_i < colors_per_satellite) sat) sol.

(** The visibility matrix of [small_scenario]: the first user sees the
    second satellite and nothing else is seen. *)
Definition small_matrix : matrix :=
  [[UNAVAILIBLE; UNAVAILIBLE; UNAVAILIBLE; UNAVAILIBLE;
    AVAILIBLE; AVAILIBLE; AVAILIBLE; AVAILIBLE];
   [UNAVAILIBLE; UNAVAILIBLE; UNAVAILIBLE; UNAVAILIBLE;
    UNAVAILIBLE; UNAVAILIBLE; UNAVAILIBLE; UNAVAILIBLE]].

(** What several calls print, one after the other. *)
Definition concat_lines (l : list string) : string :=
  fold_right String.append "" l.

(** A word: not empty and without white space. *)
Definition word (w : string) : Prop :=
  w <> "" /\
  Forall (fun c => PyStr.is_space c = false) (list_ascii_of_string w).

(** The lines printed for an assignment, satellite after satellite in the
    order of the dictionary. *)
Definition solution_lines (sol : solution) : list string :=
  flat_map (fun '(sat_id, sat) => sat_lines sat_id sat) sol.

(** The text of a matrix: the states of a row, each followed by a comma and
    a space, then the end of the line. *)
Definition matrix_text (m : matrix) : string :=
  concat_lines
    (map (fun row =>
            concat_lines (map (fun s => BeamState_str s ++ ", ") row)
            ++ newline)
         m).

(** One satellite and a user whose identifier is not 1: the user is right
    below the satellite. *)
Definition zero_scenario : Scenario :=
  mkScenario [("1", mkVector3 0 0 42164)] [("0", mkVector3 0 0 6371)] [].

(** The scenario with the object of a line stored in the dictionary of its
    keyword, when the line has five words of which the last three are
    numbers; the scenario as it is otherwise. *)
Definition store (float_of_string : string -> option float)
    (scenario : Scenario) (line : string) : Scenario :=
  match PyStr.split line with
  | [kw; ident; sx; sy; sz] =>
    match float_of_string sx, float_of_string sy, float_of_string sz with
    | Some x, Some y, Some z =>
      let pos := mkVector3 x y z in
      if String.eqb kw "interferer" then
        mkScenario (sats scenario) (users scenario)
                   (PyDict.setitem (interferers scenario) ident pos)
      else if String.eqb kw "sat" then
        mkScenario (PyDict.setitem (sats scenario) ident pos)
                   (users scenario) (interferers scenario)
      else if String.eqb kw "user" then
        mkScenario (sats scenario)
                   (PyDict.setitem (users scenario) ident pos)
                   (interferers scenario)
      else scenario
    | _, _, _ => scenario
    end
  | _ => scenario
  end.

(** Two satellites and two users: the first user is right below the
    second satellite and the second user right below the first one, and
    each sees that satellite only. *)
Definition crossed_scenario : Scenario :=
  mkScenario
    [("1", mkVector3 0 0 42164); ("2", mkVector3 42164 0 0)]
    [("1", mkVector3 6371 0 0); ("2", mkVector3 0 0 6371)]
    [].

(** * Properties *)

(** ** Sequencing and loops *)

Lemma bind_Ok {A B : Type} (m : res A) (k : A -> res B) (b : B) :
  m ≫= k = Ok b <-> exists a, m = Ok a /\ k a = Ok b.
Proof.
  destruct m as [a|e]; simpl; split.
  - intros H; exists a; auto.
  - intros (a' & Ha & Hk); congruence.
  - discriminate.
  - intros (a' & Ha & _); discriminate.
Qed.

Lemma bind_Raise {A B : Type} (m : res A) (k : A -> res B) (e : exn) :
  m ≫= k = Raise e <->
  m = Raise e \/ exists a, m = Ok a /\ k a = Raise e.
Proof.
  destruct m as [a|e']; simpl; split.
  - intros H; right; exists a; auto.
  - intros [H|(a' & Ha & Hk)]; congruence.
  - intros H; left; congruence.
  - intros [H|(a' & Ha & _)]; congruence.
Qed.

(** Splits a hypothesis that a sequence of steps ended well into one
    hypothesis per step. *)
Ltac inv_ok :=
  repeat match goal with
  | H : Ok _ = Ok _ |- _ => injection H as H; try subst
  | H : Raise _ = Ok _ |- _ => discriminate H
  | H : (_ ≫= _) = Ok _ |- _ =>
    let a := fresh "a" in
    let Ha := fresh "Ha" in
    apply bind_Ok in H; destruct H as (a & Ha & H)
  end.

Lemma foldM_app {S A : Type} (f : S -> A -> res S) (s : S) (l1 l2 : list A) :
  foldM f s (l1 ++ l2)%list = foldM f s l1 ≫= fun s' => foldM f s' l2.
Proof.
  revert s; induction l1 as [|a l1 IH]; intros s; simpl; [reflexivity|].
  destruct (f s a); simpl; auto.
Qed.

(** An invariant of the body of a loop is one of the loop. *)
Lemma foldM_invariant {S A : Type} (P : S -> Prop) (f : S -> A -> res S)
    (l : list A) (s s' : S) :
  (forall s a s', In a l -> P s -> f s a = Ok s' -> P s') ->
  P s -> foldM f s l = Ok s' -> P s'.
Proof.
  revert s; induction l as [|a l IH]; intros s Hf Hs H; simpl in H.
  - congruence.
  - inv_ok. eapply IH; [| |exact H].
    + intros; eapply Hf; eauto; right; auto.
    + eapply Hf; eauto; left; auto.
Qed.

Lemma range_from_length (a : Z) (n : nat) : length (range_from a n) = n.
Proof. unfold range_from. rewrite length_map, length_seq. reflexivity. Qed.

Lemma range_from_S (a : Z) (n : nat) :
  range_from a (S n) = (range_from a n ++ [a + Z.of_nat n])%list.
Proof. unfold range_from. rewrite seq_S, map_app. reflexivity. Qed.

Lemma range_from_cons (a : Z) (n : nat) :
  range_from a (S n) = a :: range_from (a + 1) n.
Proof.
  unfold range_from. simpl. f_equal; [lia|].
  rewrite <- seq_shift, map_map. apply map_ext. intros; lia.
Qed.

Lemma In_range_from (a : Z) (n : nat) (i : Z) :
  In i (range_from a n) <-> a <= i < a + Z.of_nat n.
Proof.
  unfold range_from. rewrite in_map_iff. split.
  - intros (k & <- & Hk). apply in_seq in Hk. lia.
  - intros H. exists (Z.to_nat (i - a)). split; [lia|]. apply in_seq. lia.
Qed.

Lemma In_range (n : nat) (i : Z) : In i (range n) <-> 0 <= i < Z.of_nat n.
Proof. unfold range. rewrite In_range_from. lia. Qed.

(** ** Indexing *)

Lemma index_Ok (len : nat) (i : Z) (k : nat) :
  PyList.index len i = Ok k <->
  (k < len)%nat /\ (i = Z.of_nat k \/ i = Z.of_nat k - Z.of_nat len).
Proof.
  unfold PyList.index.
  set (j := if i <? 0 then i + Z.of_nat len else i).
  assert (Hj : i < 0 /\ j = i + Z.of_nat len \/ 0 <= i /\ j = i).
  { subst j. destruct (Z.ltb_spec i 0); [left|right]; auto. }
  clearbody j.
  destruct (Z.leb_spec 0 j) as [H0|H0]; simpl;
    [destruct (Z.ltb_spec j (Z.of_nat len)) as [H1|H1]|]; simpl.
  - split; [intros H; injection H as <-; lia|intros [? ?]; f_equal; lia].
  - split; [discriminate|intros [? ?]; exfalso; lia].
  - split; [discriminate|intros [? ?]; exfalso; lia].
Qed.

Lemma index_nonneg (len : nat) (i : Z) :
  0 <= i < Z.of_nat len -> PyList.index len i = Ok (Z.to_nat i).
Proof. intros H. apply index_Ok. lia. Qed.

Lemma index_nonneg_inv (len : nat) (i : Z) (k : nat) :
  0 <= i -> PyList.index len i = Ok k -> k = Z.to_nat i /\ i < Z.of_nat len.
Proof. intros H0 H. apply index_Ok in H. lia. Qed.

Lemma getitem_Ok {A : Type} (l : list A) (i : Z) (x : A) :
  PyList.getitem l i = Ok x <->
  exists k, PyList.index (length l) i = Ok k /\ l !! k = Some x.
Proof.
  unfold PyList.getitem. rewrite bind_Ok. split.
  - intros (k & Hk & H). exists k. split; [exact Hk|].
    destruct (l !! k); congruence.
  - intros (k & Hk & H). exists k. rewrite H. auto.
Qed.

Lemma getitem_nonneg {A : Type} (l : list A) (i : Z) (x : A) :
  0 <= i -> PyList.getitem l i = Ok x <-> l !! Z.to_nat i = Some x.
Proof.
  intros H0. rewrite getitem_Ok. split.
  - intros (k & Hk & H). apply index_nonneg_inv in Hk as [-> _]; auto.
  - intros H. exists (Z.to_nat i). split; [|exact H].
    apply index_nonneg. apply lookup_lt_Some in H. lia.
Qed.

Lemma setitem_Ok {A : Type} (l : list A) (i : Z) (x : A) (l' : list A) :
  PyList.setitem l i x = Ok l' <->
  exists k, PyList.index (length l) i = Ok k /\ l' = <[k:=x]> l.
Proof.
  unfold PyList.setitem. rewrite bind_Ok. split.
  - intros (k & Hk & H). exists k. split; congruence.
  - intros (k & Hk & ->). exists k. auto.
Qed.

(** ** Cells of the matrix *)

Lemma getcell_Ok (v : matrix) (r c : Z) (s : BeamState) :
  getcell v r c = Ok s <->
  exists kr kc row,
    PyList.index (length v) r = Ok kr /\ v !! kr = Some row /\
    PyList.index (length row) c = Ok kc /\ row !! kc = Some s.
Proof.
  unfold getcell. rewrite bind_Ok. split.
  - intros (row & Hrow & H). apply getitem_Ok in Hrow as (kr & Hkr & Hrow).
    apply getitem_Ok in H as (kc & Hkc & H). exists kr, kc, row. auto.
  - intros (kr & kc & row & Hkr & Hrow & Hkc & H). exists row.
    split; apply getitem_Ok; eauto.
Qed.

Lemma cell_Some (v : matrix) (r c : nat) (s : BeamState) :
  cell v r c = Some s <-> exists row, v !! r = Some row /\ row !! c = Some s.
Proof.
  unfold cell. destruct (v !! r) as [row|]; simpl; split.
  - intros H; exists row; auto.
  - intros (row' & Hrow & H); congruence.
  - discriminate.
  - intros (row' & Hrow & _); discriminate.
Qed.

Lemma getcell_nonneg (v : matrix) (r c : Z) (s : BeamState) :
  0 <= r -> 0 <= c ->
  getcell v r c = Ok s <-> cell v (Z.to_nat r) (Z.to_nat c) = Some s.
Proof.
  intros Hr Hc. unfold getcell. rewrite bind_Ok, cell_Some. split.
  - intros (row & Hrow & H). apply getitem_nonneg in Hrow; [|exact Hr].
    apply getitem_nonneg in H; [|exact Hc]. eauto.
  - intros (row & Hrow & H).
    exists row. split; apply getitem_nonneg; auto.
Qed.

Lemma setcell_Ok (v : matrix) (r c : Z) (x : BeamState) (v' : matrix) :
  setcell v r c x = Ok v' <->
  exists kr kc row,
    PyList.index (length v) r = Ok kr /\ v !! kr = Some row /\
    PyList.index (length row) c = Ok kc /\
    v' = <[kr:=<[kc:=x]> row]> v.
Proof.
  unfold setcell. split.
  - intros H. inv_ok. apply getitem_Ok in Ha0 as (kr & Hkr & Hrow).
    apply setitem_Ok in Ha1 as (kc & Hkc & ->).
    assert (a = kr) as -> by congruence.
    exists kr, kc, a0. auto.
  - intros (kr & kc & row & Hkr & Hrow & Hkc & ->).
    apply bind_Ok. exists kr. split; [exact Hkr|].
    apply bind_Ok. exists row. split; [apply getitem_Ok; eauto|].
    apply bind_Ok. exists (<[kc:=x]> row). split; [|reflexivity].
    apply setitem_Ok. eauto.
Qed.

Lemma cell_insert (v : matrix) (kr kc : nat) (row : list BeamState)
    (x : BeamState) (r c : nat) :
  v !! kr = Some row -> (kc < length row)%nat ->
  cell (<[kr:=<[kc:=x]> row]> v) r c =
  if decide (r = kr /\ c = kc) then Some x else cell v r c.
Proof.
  intros Hrow Hkc. unfold cell.
  destruct (decide (r = kr)) as [->|Hr].
  - rewrite list_lookup_insert_eq by (eapply lookup_lt_Some; eauto).
    rewrite Hrow. simpl. destruct (decide (c = kc)) as [->|Hc].
    + rewrite list_lookup_insert_eq by exact Hkc.
      rewrite decide_True; auto.
    + rewrite list_lookup_insert_ne by auto.
      rewrite decide_False; [reflexivity|]. intros [_ ?]; auto.
  - rewrite list_lookup_insert_ne by auto.
    rewrite decide_False; [reflexivity|]. intros [? _]; auto.
Qed.

(** ** Transitions *)

#[global] Instance transition_preorder : PreOrder transition.
Proof.
  split.
  - intros s. constructor.
  - intros s1 s2 s3 H12 H23. destruct H12; inversion H23; subst; constructor.
Qed.

#[global] Instance evolves_preorder : PreOrder evolves.
Proof. change (PreOrder (Forall2 (Forall2 transition))). apply _. Qed.

Lemma transition_available (s s' : BeamState) :
  transition s s' -> s' = AVAILIBLE -> s = AVAILIBLE.
Proof. intros H; destruct H; congruence. Qed.

Lemma transition_from (s s' : BeamState) :
  transition s s' -> s <> AVAILIBLE -> s' = s.
Proof. intros H; destruct H; congruence. Qed.

Lemma evolves_length (v v' : matrix) : evolves v v' -> length v = length v'.
Proof. apply Forall2_length. Qed.

Lemma evolves_row (v v' : matrix) (r : nat) (row : list BeamState) :
  evolves v v' -> v !! r = Some row ->
  exists row', v' !! r = Some row' /\ Forall2 transition row row'.
Proof. intros H Hr. eapply Forall2_lookup_l in H; eauto. Qed.

Lemma evolves_cell (v v' : matrix) (r c : nat) (s : BeamState) :
  evolves v v' -> cell v r c = Some s ->
  exists s', cell v' r c = Some s' /\ transition s s'.
Proof.
  intros H Hc. apply cell_Some in Hc as (row & Hrow & Hc).
  destruct (evolves_row _ _ _ _ H Hrow) as (row' & Hrow' & Hrows).
  eapply Forall2_lookup_l in Hrows as (s' & Hs' & Ht); eauto.
  exists s'. split; [apply cell_Some; eauto|exact Ht].
Qed.

Lemma evolves_cell_r (v v' : matrix) (r c : nat) (s' : BeamState) :
  evolves v v' -> cell v' r c = Some s' ->
  exists s, cell v r c = Some s /\ transition s s'.
Proof.
  intros H Hc. apply cell_Some in Hc as (row' & Hrow' & Hc).
  eapply Forall2_lookup_r in H as (row & Hrow & Hrows); eauto.
  eapply Forall2_lookup_r in Hrows as (s & Hs & Ht); eauto.
  exists s. split; [apply cell_Some; eauto|exact Ht].
Qed.

(** A cell that is available after was available before. *)
Lemma evolves_available (v v' : matrix) (r c : nat) :
  evolves v v' -> cell v' r c = Some AVAILIBLE -> cell v r c = Some AVAILIBLE.
Proof.
  intros H Hc. destruct (evolves_cell_r _ _ _ _ _ H Hc) as (s & Hs & Ht).
  apply transition_available in Ht; congruence.
Qed.

(** A cell that has left [AVAILIBLE] keeps its state. *)
Lemma evolves_terminal (v v' : matrix) (r c : nat) (s : BeamState) :
  evolves v v' -> cell v r c = Some s -> s <> AVAILIBLE ->
  cell v' r c = Some s.
Proof.
  intros H Hc Hs. destruct (evolves_cell _ _ _ _ _ H Hc) as (s' & Hs' & Ht).
  apply transition_from in Ht; congruence.
Qed.

Lemma evolves_sat_closed (v v' : matrix) (sat_id : Z) :
  evolves v v' -> sat_closed v sat_id -> sat_closed v' sat_id.
Proof.
  intros H Hclosed r c Hc Hav. eapply Hclosed; [exact Hc|].
  eapply evolves_available; eauto.
Qed.

Lemma evolves_insert (v : matrix) (kr kc : nat) (row : list BeamState)
    (s x : BeamState) :
  v !! kr = Some row -> row !! kc = Some s -> transition s x ->
  evolves v (<[kr:=<[kc:=x]> row]> v).
Proof.
  intros Hrow Hs Ht. unfold evolves.
  apply Forall2_same_length_lookup. split; [rewrite length_insert; auto|].
  intros r row1 row2 H1 H2. destruct (decide (r = kr)) as [->|Hr].
  - rewrite list_lookup_insert_eq in H2 by (eapply lookup_lt_Some; eauto).
    assert (row1 = row) as -> by congruence. injection H2 as <-.
    apply Forall2_same_length_lookup. split; [rewrite length_insert; auto|].
    intros c s1 s2 Hs1 Hs2. destruct (decide (c = kc)) as [->|Hc].
    + rewrite list_lookup_insert_eq in Hs2 by (eapply lookup_lt_Some; eauto).
      congruence.
    + rewrite list_lookup_insert_ne in Hs2 by auto.
      assert (s1 = s2) as -> by congruence. constructor.
  - rewrite list_lookup_insert_ne in H2 by auto.
    assert (row1 = row2) as -> by congruence. reflexivity.
Qed.

(** Writing into a cell a state its present state may move to. *)
Lemma setcell_evolves (v v' : matrix) (r c : Z) (s x : BeamState) :
  getcell v r c = Ok s -> transition s x -> setcell v r c x = Ok v' ->
  evolves v v'.
Proof.
  intros Hget Ht Hset.
  apply getcell_Ok in Hget as (kr & kc & row & Hkr & Hrow & Hkc & Hs).
  apply setcell_Ok in Hset as (kr' & kc' & row' & Hkr' & Hrow' & Hkc' & ->).
  assert (kr' = kr) as -> by congruence.
  assert (row' = row) as -> by congruence.
  assert (kc' = kc) as -> by congruence.
  eapply evolves_insert; eauto.
Qed.

Lemma setcell_cell (v v' : matrix) (r c : Z) (x : BeamState) :
  0 <= r -> 0 <= c -> setcell v r c x = Ok v' ->
  cell v' (Z.to_nat r) (Z.to_nat c) = Some x.
Proof.
  intros Hr Hc Hset.
  apply setcell_Ok in Hset as (kr & kc & row & Hkr & Hrow & Hkc & ->).
  apply index_nonneg_inv in Hkr as [-> _]; [|exact Hr].
  apply index_nonneg_inv in Hkc as [-> Hlt]; [|exact Hc].
  rewrite cell_insert by (auto; lia). rewrite decide_True; auto.
Qed.

(** A loop over matrices whose passes each establish a property of their
    own that later passes keep. *)
Lemma foldM_each {A : Type} (Q : A -> matrix -> Prop)
    (f : matrix -> A -> res matrix) (l : list A) (v v' : matrix) :
  (forall a v v', In a l -> f v a = Ok v' -> evolves v v' /\ Q a v') ->
  (forall a v v', Q a v -> evolves v v' -> Q a v') ->
  foldM f v l = Ok v' ->
  evolves v v' /\ forall a, In a l -> Q a v'.
Proof.
  intros Hf Hstable. revert v. induction l as [|a l IH]; intros v H.
  - simpl in H. injection H as <-. split; [reflexivity|]. intros a [].
  - simpl in H. inv_ok. rename a0 into v1.
    destruct (Hf a v v1) as [He HQ]; [left; auto|exact Ha|].
    destruct (IH (fun a' v0 v0' Hin => Hf a' v0 v0' (or_intror Hin)) v1 H)
      as [He' HQ'].
    split; [etransitivity; eauto|].
    intros a' [<-|Hin]; [eapply Hstable; eauto|auto].
Qed.

(** ** Constraint propagation *)

Section Propagation.

Variable acos : float -> float.
Variable scenario : Scenario.

Lemma is_available_true (s : BeamState) :
  is_available s = true <-> s = AVAILIBLE.
Proof. destruct s; simpl; split; congruence. Qed.

Lemma is_available_false (s : BeamState) :
  is_available s = false <-> s <> AVAILIBLE.
Proof. destruct s; simpl; split; congruence. Qed.

Lemma column_range (sat_id : Z) :
  column sat_id colors_per_satellite = column sat_id 0 + 4.
Proof. unfold column, colors_per_satellite. lia. Qed.

(** One pass over a user when the satellite is full: the user's cells of
    the satellite are closed. *)
Lemma update_visibility_user_full (pos : Vector3) (sat_id color_i : Z)
    (v v' : matrix) (user_i : Z) :
  0 <= user_i -> 1 <= sat_id ->
  update_visibility_user acos scenario pos true sat_id color_i v user_i
    = Ok v' ->
  evolves v v' /\
  forall c, column sat_id 0 <= c < column sat_id colors_per_satellite ->
            cell v' (Z.to_nat user_i) (Z.to_nat c) <> Some AVAILIBLE.
Proof.
  intros Hu Hsat H. unfold update_visibility_user in H. inv_ok. clear Ha.
  apply (foldM_each
           (fun c v => cell v (Z.to_nat user_i) (Z.to_nat c)
                       <> Some AVAILIBLE)) in H.
  - destruct H as [He HQ]. split; [exact He|]. intros c Hc. apply HQ.
    apply In_range_from. rewrite column_range in Hc.
    unfold column in Hc. change (Z.to_nat colors_per_satellite) with 4%nat.
    lia.
  - intros c v0 v1 Hin Hstep. apply In_range_from in Hin.
    assert (0 <= c) by (unfold colors_per_satellite in Hin; lia).
    inv_ok. rename a0 into s.
    destruct (is_available s) eqn:Hs.
    + apply is_available_true in Hs as ->. split.
      * eapply setcell_evolves; eauto. constructor.
      * erewrite setcell_cell; eauto. discriminate.
    + injection Hstep as <-. split; [reflexivity|].
      apply getcell_nonneg in Ha; auto. rewrite Ha.
      apply is_available_false in Hs. congruence.
  - intros c v0 v1 HQ He Hav. apply HQ. eapply evolves_available; eauto.
Qed.

(** One pass over a user when the satellite is not full: the user's cell
    of the satellite and color stays available only if the two beams do not
    interfere. *)
Lemma update_visibility_user_clear (pos : Vector3) (sat_id color_i : Z)
    (v v' : matrix) (target_user_i user_i : Z) :
  0 <= user_i -> 0 <= column sat_id color_i ->
  PyDict.getitem (users scenario) (PyStr.str (target_user_i + 1)) = Ok pos ->
  update_visibility_user acos scenario pos false sat_id color_i v user_i
    = Ok v' ->
  evolves v v' /\
  (cell v' (Z.to_nat user_i) (Z.to_nat (column sat_id color_i))
     = Some AVAILIBLE ->
   clear_of acos scenario sat_id (target_user_i + 1) (user_i + 1)).
Proof.
  intros Hu Hcol Hpos H. unfold update_visibility_user in H.
  fold (column sat_id color_i) in H. inv_ok.
  rename a into user, a0 into s.
  assert (Hcell : getcell v user_i (column sat_id color_i) = Ok s).
  { unfold getcell. apply bind_Ok. eauto. }
  destruct (is_available s) eqn:Hs; simpl in H.
  - apply is_available_true in Hs as ->. inv_ok.
    rename a into user_pos, a0 into sat_pos, a1 into angle.
    destruct (PrimFloat.ltb angle self_interference_max) eqn:Hlt.
    + split.
      * eapply setcell_evolves; eauto. constructor.
      * erewrite setcell_cell; eauto. discriminate.
    + injection H as <-. split; [reflexivity|]. intros _.
      exists sat_pos, pos, user_pos, angle. auto.
  - injection H as <-. split; [reflexivity|].
    apply getcell_nonneg in Hcell; auto. rewrite Hcell.
    apply is_available_false in Hs. congruence.
Qed.

(** What [update_visibility] leaves behind when it is called on a cell
    that is available. *)
Lemma update_visibility_spec (v v' : matrix)
    (target_user_i sat_id color_i beam_i : Z) :
  0 <= target_user_i -> 1 <= sat_id -> 0 <= color_i ->
  getcell v target_user_i (column sat_id color_i) = Ok AVAILIBLE ->
  update_visibility acos v scenario target_user_i sat_id color_i beam_i
    = Ok v' ->
  evolves v v' /\
  cell v' (Z.to_nat target_user_i) (Z.to_nat (column sat_id color_i))
    = Some IN_USE /\
  (beam_i = beams_per_satellite - 1 -> sat_closed v' sat_id) /\
  (beam_i <> beams_per_satellite - 1 ->
   forall r : nat,
     cell v' r (Z.to_nat (column sat_id color_i)) = Some AVAILIBLE ->
     clear_of acos scenario sat_id (target_user_i + 1) (Z.of_nat r + 1)).
Proof.
  intros Ht Hsat Hcolor Hav H. unfold update_visibility in H.
  assert (Hcol : 0 <= column sat_id color_i)
    by (unfold column, colors_per_satellite; lia).
  inv_ok. rename a into v1, a0 into pos. clear Ha1.
  unfold set_user_beam in Ha. fold (column sat_id color_i) in Ha.
  assert (He1 : evolves v v1).
  { eapply setcell_evolves; eauto. constructor. }
  assert (Hin_use : cell v1 (Z.to_nat target_user_i)
                      (Z.to_nat (column sat_id color_i)) = Some IN_USE).
  { eapply setcell_cell; eauto. }
  destruct (beam_i =? beams_per_satellite - 1) eqn:Hfull;
    [apply Z.eqb_eq in Hfull | apply Z.eqb_neq in Hfull].
  - apply (foldM_each
             (fun user_i v =>
                forall c,
                  column sat_id 0 <= c < column sat_id colors_per_satellite ->
                  cell v (Z.to_nat user_i) (Z.to_nat c) <> Some AVAILIBLE))
      in H.
    + destruct H as [He HQ]. split; [etransitivity; eauto|].
      split; [eapply evolves_terminal; eauto; discriminate|].
      split; [|contradiction]. intros _ r c Hc Hcell.
      assert (Hr : (r < length v1)%nat).
      { rewrite (evolves_length _ _ He).
        apply cell_Some in Hcell as (row & Hrow & _).
        eapply lookup_lt_Some; eauto. }
      apply (HQ (Z.of_nat r)) in Hc; [|apply In_range; lia].
      rewrite Nat2Z.id in Hc. contradiction.
    + intros user_i v0 v2 Hin Hstep. apply In_range in Hin.
      eapply update_visibility_user_full; eauto; lia.
    + intros user_i v0 v2 HQ He c Hc Hcell. eapply HQ; eauto.
      eapply evolves_available; eauto.
  - apply (foldM_each
             (fun user_i v =>
                cell v (Z.to_nat user_i) (Z.to_nat (column sat_id color_i))
                  = Some AVAILIBLE ->
                clear_of acos scenario sat_id (target_user_i + 1)
                  (user_i + 1)))
      in H.
    + destruct H as [He HQ]. split; [etransitivity; eauto|].
      split; [eapply evolves_terminal; eauto; discriminate|].
      split; [contradiction|]. intros _ r Hcell.
      assert (Hr : (r < length v1)%nat).
      { rewrite (evolves_length _ _ He).
        apply cell_Some in Hcell as (row & Hrow & _).
        eapply lookup_lt_Some; eauto. }
      apply (HQ (Z.of_nat r)); [apply In_range; lia|].
      rewrite Nat2Z.id. exact Hcell.
    + intros user_i v0 v2 Hin Hstep. apply In_range in Hin.
      eapply update_visibility_user_clear; eauto; lia.
    + intros user_i v0 v2 HQ He Hcell. apply HQ.
      eapply evolves_available; eauto.
Qed.

End Propagation.

(** ** Dictionaries *)

Lemma dict_lookup_setitem `{EqDecision K} {V : Type} (d : PyDict.dict K V)
    (k k' : K) (x : V) :
  PyDict.lookup (PyDict.setitem d k x) k' =
  if decide (k = k') then Some x else PyDict.lookup d k'.
Proof.
  induction d as [|[k0 x0] d IH]; simpl.
  - destruct (decide (k = k')); reflexivity.
  - destruct (decide (k0 = k)) as [->|Hk0]; simpl.
    + destruct (decide (k = k')); reflexivity.
    + rewrite IH. destruct (decide (k0 = k')) as [->|Hk0'].
      * rewrite decide_False by congruence. reflexivity.
      * reflexivity.
Qed.

Lemma beams_of_setitem (sol : solution) (sat_id sat_id' : Z)
    (beams : list (Z * Z)) :
  beams_of (PyDict.setitem sol sat_id beams) sat_id' =
  if decide (sat_id = sat_id') then beams else beams_of sol sat_id'.
Proof.
  unfold beams_of. rewrite dict_lookup_setitem.
  destruct (decide (sat_id = sat_id')); reflexivity.
Qed.

(** ** The scan of a row *)

Section Solver.

Variable acos : float -> float.
Variable scenario : Scenario.

Lemma first_available_spec (v : matrix) (user_i : Z) (n : nat) (a : Z)
    (found : option Z) :
  0 <= user_i -> 0 <= a ->
  first_available v user_i (range_from a n) = Ok found ->
  match found with
  | Some c =>
    a <= c < a + Z.of_nat n /\
    cell v (Z.to_nat user_i) (Z.to_nat c) = Some AVAILIBLE /\
    forall c', a <= c' < c ->
               cell v (Z.to_nat user_i) (Z.to_nat c') <> Some AVAILIBLE
  | None =>
    forall c', a <= c' < a + Z.of_nat n ->
               cell v (Z.to_nat user_i) (Z.to_nat c') <> Some AVAILIBLE
  end.
Proof.
  intros Hu. revert a. induction n as [|n IH]; intros a Ha H.
  - simpl in H. injection H as <-. intros c' Hc'. lia.
  - rewrite range_from_cons in H. simpl in H. inv_ok. rename a0 into s.
    apply getcell_nonneg in Ha0; auto.
    destruct (is_available s) eqn:Hs.
    + apply is_available_true in Hs as ->. injection H as <-.
      split; [lia|]. split; [exact Ha0|]. intros c' Hc'. lia.
    + apply is_available_false in Hs. apply IH in H; [|lia].
      assert (Hhere : forall c', c' = a ->
                cell v (Z.to_nat user_i) (Z.to_nat c') <> Some AVAILIBLE).
      { intros c' ->. rewrite Ha0. congruence. }
      destruct found as [c|].
      * destruct H as (Hc & Hav & Hbefore). split; [lia|].
        split; [exact Hav|]. intros c' Hc'.
        destruct (decide (c' = a)); [auto|apply Hbefore; lia].
      * intros c' Hc'.
        destruct (decide (c' = a)); [auto|apply H; lia].
Qed.

(** The scan is never the step that fails when the row has its cells. *)
Lemma first_available_total (v : matrix) (user_i : Z) (n : nat) (a : Z) :
  0 <= user_i -> 0 <= a ->
  (forall c, a <= c < a + Z.of_nat n ->
             is_Some (cell v (Z.to_nat user_i) (Z.to_nat c))) ->
  exists found, first_available v user_i (range_from a n) = Ok found.
Proof.
  intros Hu. revert a. induction n as [|n IH]; intros a Ha Hcells.
  - exists None. reflexivity.
  - rewrite range_from_cons. simpl.
    destruct (Hcells a) as [s Hs]; [lia|].
    apply getcell_nonneg in Hs; auto. rewrite Hs. simpl.
    destruct (is_available s); [eauto|].
    apply IH; [lia|]. intros c Hc. apply Hcells. lia.
Qed.

(** ** One user of the greedy pass *)

Lemma column_div_mod (c : Z) :
  column (c / colors_per_satellite + 1) (c mod colors_per_satellite) = c.
Proof.
  unfold column, colors_per_satellite.
  pose proof (Z.div_mod c 4). lia.
Qed.

(** The pass of [main]'s loop over one user either finds no available cell
    and changes nothing, or takes the first available cell of the row. *)
Lemma solve_user_step (num_sat_beam : nat) (v v' : matrix)
    (sol sol' : solution) (user_i : Z) :
  0 <= user_i ->
  solve_user acos scenario num_sat_beam (v, sol) user_i = Ok (v', sol') ->
  (v' = v /\ sol' = sol /\
   forall c, 0 <= c < Z.of_nat num_sat_beam ->
             cell v (Z.to_nat user_i) (Z.to_nat c) <> Some AVAILIBLE)
  \/
  exists c,
    let sat_id := c / colors_per_satellite + 1 in
    let color_i := c mod colors_per_satellite in
    0 <= c < Z.of_nat num_sat_beam /\
    cell v (Z.to_nat user_i) (Z.to_nat c) = Some AVAILIBLE /\
    (forall c', 0 <= c' < c ->
                cell v (Z.to_nat user_i) (Z.to_nat c') <> Some AVAILIBLE) /\
    sol' = PyDict.setitem sol sat_id
             (beams_of sol sat_id ++ [(user_i + 1, color_i)])%list /\
    update_visibility acos v scenario user_i sat_id color_i
      (Z.of_nat (length (beams_of sol sat_id))) = Ok v'.
Proof.
  intros Hu H. unfold solve_user in H. inv_ok. rename a0 into found.
  apply first_available_spec in Ha0; [|exact Hu|reflexivity].
  destruct found as [c|].
  - right. exists c. simpl. destruct Ha0 as (Hc & Hav & Hbefore).
    unfold append_beam in H. simpl in H. inv_ok.
    split; [lia|]. split; [exact Hav|]. split; [exact Hbefore|].
    split; [reflexivity|].
    rewrite length_app in Ha0. simpl in Ha0.
    replace (Z.of_nat (length (beams_of sol (c / colors_per_satellite + 1))))
      with (Z.of_nat (length (default [] (PyDict.lookup sol
              (c / colors_per_satellite + 1))) + 1) - 1)
      by (unfold beams_of; lia).
    exact Ha0.
  - left. injection H as <- <-. auto.
Qed.

Lemma solve_users_S (num_sat_beam : nat) (v : matrix) (k : nat) :
  solve_users acos scenario num_sat_beam v (S k) =
  solve_users acos scenario num_sat_beam v k ≫=
    fun st => solve_user acos scenario num_sat_beam st (Z.of_nat k).
Proof.
  unfold solve_users, range. rewrite range_from_S, foldM_app. simpl.
  destruct (foldM _ _ _) as [st|e]; simpl; [|reflexivity].
  destruct (solve_user _ _ _ _ _); reflexivity.
Qed.

(** What holds at the start of the loop and is kept by every pass holds
    after any number of passes. *)
Lemma solve_users_invariant (P : nat -> matrix -> solution -> Prop)
    (num_sat_beam : nat) (v : matrix) :
  P 0%nat v [] ->
  (forall k v1 sol1 v2 sol2,
     P k v1 sol1 ->
     solve_user acos scenario num_sat_beam (v1, sol1) (Z.of_nat k)
       = Ok (v2, sol2) ->
     P (S k) v2 sol2) ->
  forall k v' sol',
    solve_users acos scenario num_sat_beam v k = Ok (v', sol') ->
    P k v' sol'.
Proof.
  intros H0 Hstep. induction k as [|k IH]; intros v' sol' H.
  - unfold solve_users in H. simpl in H. injection H as <- <-. exact H0.
  - rewrite solve_users_S in H. inv_ok. destruct a as [v1 sol1].
    eapply Hstep; eauto.
Qed.

End Solver.

(** ** Comparisons of floats *)

Lemma SFcompare_swap (x y : spec_float) :
  SFcompare y x = option_map CompOpp (SFcompare x y).
Proof.
  destruct x as [sx|sx| |sx mx ex], y as [sy|sy| |sy my ey]; simpl;
    try reflexivity;
    try (destruct sx; reflexivity); try (destruct sy; reflexivity);
    try (destruct sx, sy; reflexivity).
  destruct sx, sy; simpl; try reflexivity;
    rewrite (Z.compare_antisym ey ex);
    destruct (ey ?= ex) eqn:He; simpl; try reflexivity;
    rewrite (Pos.compare_cont_antisym mx my Eq); reflexivity.
Qed.

Lemma is_nan_false (x : float) :
  PrimFloat.is_nan x = false <-> SFcompare (Prim2SF x) (Prim2SF x) = Some Eq.
Proof.
  unfold PrimFloat.is_nan. rewrite FloatAxioms.eqb_spec. unfold SFeqb.
  destruct (SFcompare (Prim2SF x) (Prim2SF x)) as [[]|] eqn:H; simpl;
    split; try congruence; intros _; exfalso;
    rewrite SFcompare_swap, H in H; simpl in H; discriminate.
Qed.

Lemma SFcompare_None (x y : spec_float) :
  SFcompare x y = None -> x = S754_nan \/ y = S754_nan.
Proof.
  destruct x as [sx|sx| |sx mx ex], y as [sy|sy| |sy my ey]; simpl;
    auto; discriminate.
Qed.

(** Two numbers compare: when [x] is not below [y], [y] is at most [x]. *)
Lemma ltb_false_leb (x y : float) :
  PrimFloat.is_nan x = false -> PrimFloat.is_nan y = false ->
  PrimFloat.ltb x y = false -> PrimFloat.leb y x = true.
Proof.
  intros Hx Hy. rewrite FloatAxioms.ltb_spec, FloatAxioms.leb_spec. unfold SFltb, SFleb.
  rewrite (SFcompare_swap (Prim2SF x) (Prim2SF y)).
  apply is_nan_false in Hx, Hy.
  destruct (SFcompare (Prim2SF x) (Prim2SF y)) as [[]|] eqn:H; simpl;
    try congruence.
  apply SFcompare_None in H as [H|H]; rewrite H in *; discriminate.
Qed.

Lemma leb_false_ltb (x y : float) :
  PrimFloat.is_nan x = false -> PrimFloat.is_nan y = false ->
  PrimFloat.leb x y = false -> PrimFloat.ltb y x = true.
Proof.
  intros Hx Hy. rewrite FloatAxioms.ltb_spec, FloatAxioms.leb_spec. unfold SFltb, SFleb.
  rewrite (SFcompare_swap (Prim2SF x) (Prim2SF y)).
  apply is_nan_false in Hx, Hy.
  destruct (SFcompare (Prim2SF x) (Prim2SF y)) as [[]|] eqn:H; simpl;
    try congruence.
  apply SFcompare_None in H as [H|H]; rewrite H in *; discriminate.
Qed.

Lemma ltb_leb (x y : float) :
  PrimFloat.ltb x y = true -> PrimFloat.leb x y = true.
Proof.
  rewrite FloatAxioms.ltb_spec, FloatAxioms.leb_spec. unfold SFltb, SFleb.
  destruct (SFcompare (Prim2SF x) (Prim2SF y)) as [[]|]; congruence.
Qed.

Lemma ltb_true_leb_false (x y : float) :
  PrimFloat.ltb x y = true -> PrimFloat.leb y x = false.
Proof.
  rewrite FloatAxioms.ltb_spec, FloatAxioms.leb_spec. unfold SFltb, SFleb.
  rewrite (SFcompare_swap (Prim2SF x) (Prim2SF y)).
  destruct (SFcompare (Prim2SF x) (Prim2SF y)) as [[]|]; simpl; congruence.
Qed.

Lemma ltb_is_nan_l (x y : float) :
  PrimFloat.ltb x y = true -> PrimFloat.is_nan x = false.
Proof.
  rewrite FloatAxioms.ltb_spec. unfold SFltb. intros H. apply is_nan_false.
  destruct (Prim2SF x) as [sx|sx| |sx mx ex] eqn:Hx; simpl in *;
    try reflexivity; try (destruct sx; reflexivity); try discriminate.
  destruct sx; rewrite Z.compare_refl; simpl;
    rewrite ?Pos.compare_cont_refl; reflexivity.
Qed.

(** The bound keeps the dot product in the domain of the arc cosine. *)
Lemma bound_in_domain (d : float) :
  let b := PyFloat.min 1%float (PyFloat.max (-1)%float d) in
  PrimFloat.leb (-1)%float b = true /\ PrimFloat.leb b 1%float = true.
Proof.
  unfold PyFloat.min, PyFloat.max.
  destruct (PrimFloat.ltb (-1) d) eqn:H1.
  - destruct (PrimFloat.ltb d 1) eqn:H2.
    + split; apply ltb_leb; assumption.
    + split; reflexivity.
  - split; reflexivity.
Qed.

Lemma leb_true_ltb_false (x y : float) :
  PrimFloat.leb x y = true -> PrimFloat.ltb y x = false.
Proof.
  rewrite FloatAxioms.ltb_spec, FloatAxioms.leb_spec. unfold SFltb, SFleb.
  rewrite (SFcompare_swap (Prim2SF x) (Prim2SF y)).
  destruct (SFcompare (Prim2SF x) (Prim2SF y)) as [[]|]; simpl; congruence.
Qed.

Section Angle.

Variable acos : float -> float.

Lemma py_acos_bound (d : float) :
  py_acos acos (PyFloat.min 1%float (PyFloat.max (-1)%float d)) =
  Ok (acos (PyFloat.min 1%float (PyFloat.max (-1)%float d))).
Proof.
  destruct (bound_in_domain d) as [Hlo Hhi]. unfold py_acos.
  rewrite (leb_true_ltb_false _ _ Hlo), (leb_true_ltb_false _ _ Hhi).
  reflexivity.
Qed.

(** The angle is the arc cosine, in degrees, of a number between -1 and
    1. *)
Lemma calculate_angle_degrees_value (vertex a b : Vector3) (angle : float) :
  calculate_angle_degrees acos vertex a b = Ok angle ->
  exists x, PrimFloat.leb (-1)%float x = true /\
            PrimFloat.leb x 1%float = true /\
            angle = PyFloat.degrees (acos x).
Proof.
  intros H. unfold calculate_angle_degrees in H. inv_ok.
  rewrite py_acos_bound in Ha13. injection Ha13 as <-.
  eexists. split; [|split; [|reflexivity]]; apply bound_in_domain.
Qed.

End Angle.

(** ** The angle does not depend on the order of the two points *)

Lemma float_mul_comm (x y : float) : (x * y = y * x)%float.
Proof.
  apply Prim2SF_inj. rewrite !mul_spec. unfold SF64mul, SFmul.
  destruct (Prim2SF x) as [sx|sx| |sx mx ex],
           (Prim2SF y) as [sy|sy| |sy my ey];
    try reflexivity; try (rewrite (xorb_comm sx sy); reflexivity).
  rewrite (xorb_comm sx sy), (Pos.mul_comm mx my), (Z.add_comm ex ey).
  reflexivity.
Qed.

Lemma calculate_angle_degrees_sym (acos : float -> float)
    (vertex a b : Vector3) (angle : float) :
  calculate_angle_degrees acos vertex a b = Ok angle ->
  calculate_angle_degrees acos vertex b a = Ok angle.
Proof.
  intros H. unfold calculate_angle_degrees in *. simpl in *.
  repeat match type of H with
         | (?m ≫= _) = Ok _ =>
           let x := fresh "x" in
           let Hx := fresh "Hx" in
           destruct m as [x|] eqn:Hx; simpl in H; [|discriminate H]
         end.
  repeat (simpl;
          match goal with
          | Hx : ?m = Ok _ |- context [?m] => rewrite Hx
          end).
  simpl.
  match goal with
  | |- context [(?p * ?q + ?r * ?s + ?t * ?u)%float] =>
    rewrite (float_mul_comm p q), (float_mul_comm r s), (float_mul_comm t u)
  end.
  match goal with Hx : py_acos _ _ = Ok _ |- _ => rewrite Hx end.
  exact H.
Qed.

(** The stand-in for the arc cosine gives numbers. *)
Lemma acos_by_thresholds_number (x : float) :
  PrimFloat.is_nan (PyFloat.degrees (acos_by_thresholds x)) = false.
Proof.
  unfold acos_by_thresholds.
  repeat match goal with
         | |- context [if ?b then _ else _] => destruct b
         end; reflexivity.
Qed.

(** ** Invariants of the greedy pass *)

Section Greedy.

Variable acos : float -> float.
Variable scenario : Scenario.
Variable num_sat_beam : nat.

Lemma column_bounds (sat_id color_i : Z) :
  0 <= color_i < colors_per_satellite ->
  column sat_id 0 <= column sat_id color_i
    < column sat_id colors_per_satellite.
Proof. unfold column, colors_per_satellite. lia. Qed.

Lemma column_inj (sat_id sat_id' color_i color_i' : Z) :
  0 <= color_i < colors_per_satellite ->
  0 <= color_i' < colors_per_satellite ->
  column sat_id color_i = column sat_id' color_i' ->
  sat_id = sat_id' /\ color_i = color_i'.
Proof. unfold column, colors_per_satellite. lia. Qed.

(** The pass over one user, with what [update_visibility] leaves behind
    when a cell is taken. *)
Lemma solve_user_cases (v v' : matrix) (sol sol' : solution) (user_i : Z) :
  0 <= user_i ->
  solve_user acos scenario num_sat_beam (v, sol) user_i = Ok (v', sol') ->
  (v' = v /\ sol' = sol /\
   forall c, 0 <= c < Z.of_nat num_sat_beam ->
             cell v (Z.to_nat user_i) (Z.to_nat c) <> Some AVAILIBLE)
  \/
  exists sat_id color_i,
    let c := column sat_id color_i in
    let beams := beams_of sol sat_id in
    1 <= sat_id /\ 0 <= color_i < colors_per_satellite /\
    0 <= c < Z.of_nat num_sat_beam /\
    cell v (Z.to_nat user_i) (Z.to_nat c) = Some AVAILIBLE /\
    (forall c', 0 <= c' < c ->
                cell v (Z.to_nat user_i) (Z.to_nat c') <> Some AVAILIBLE) /\
    sol' = PyDict.setitem sol sat_id (beams ++ [(user_i + 1, color_i)])%list /\
    evolves v v' /\
    cell v' (Z.to_nat user_i) (Z.to_nat c) = Some IN_USE /\
    (Z.of_nat (length beams) = beams_per_satellite - 1 ->
     sat_closed v' sat_id) /\
    (Z.of_nat (length beams) <> beams_per_satellite - 1 ->
     forall r : nat,
       cell v' r (Z.to_nat c) = Some AVAILIBLE ->
       clear_of acos scenario sat_id (user_i + 1) (Z.of_nat r + 1)).
Proof.
  intros Hu H. apply solve_user_step in H; [|exact Hu].
  destruct H as [H|(c & Hc & Hav & Hfirst & Hsol & Hupd)]; [left; exact H|].
  right. exists (c / colors_per_satellite + 1), (c mod colors_per_satellite).
  simpl. rewrite column_div_mod.
  assert (Hsat : 1 <= c / colors_per_satellite + 1).
  { unfold colors_per_satellite. pose proof (Z.div_pos c 4). lia. }
  assert (Hcolor : 0 <= c mod colors_per_satellite < colors_per_satellite).
  { apply Z.mod_pos_bound. reflexivity. }
  apply update_visibility_spec in Hupd; try lia.
  - rewrite column_div_mod in Hupd.
    destruct Hupd as (He & Hin_use & Hfull & Hclear). repeat split; auto; lia.
  - rewrite column_div_mod. apply getcell_nonneg; auto; lia.
Qed.

Lemma solve_user_evolves (v v' : matrix) (sol sol' : solution) (user_i : Z) :
  0 <= user_i ->
  solve_user acos scenario num_sat_beam (v, sol) user_i = Ok (v', sol') ->
  evolves v v'.
Proof.
  intros Hu H. apply solve_user_cases in H; [|exact Hu].
  destruct H as [(-> & _)|(sat_id & color_i & H)]; [reflexivity|].
  simpl in H. tauto.
Qed.

(** What relates the state after [j] users to itself and is kept by every
    later pass relates it to the state after any [k >= j] users. *)
Lemma solve_users_from (R : matrix * solution -> matrix * solution -> Prop)
    (v : matrix) (j : nat) (stj : matrix * solution) :
  solve_users acos scenario num_sat_beam v j = Ok stj ->
  R stj stj ->
  (forall k st st',
     (j <= k)%nat ->
     solve_users acos scenario num_sat_beam v k = Ok st ->
     R stj st ->
     solve_user acos scenario num_sat_beam st (Z.of_nat k) = Ok st' ->
     R stj st') ->
  forall k st,
    (j <= k)%nat ->
    solve_users acos scenario num_sat_beam v k = Ok st -> R stj st.
Proof.
  intros Hj Hrefl Hstep. induction k as [|k IH]; intros st Hjk H.
  - assert (j = 0%nat) as -> by lia. congruence.
  - destruct (decide (j = S k)) as [->|Hne]; [congruence|].
    rewrite solve_users_S in H. inv_ok.
    apply (Hstep k a st); [lia|exact Ha|apply IH; [lia|exact Ha]|exact H].
Qed.

Lemma solve_users_evolves (v : matrix) (j k : nat)
    (vj vk : matrix) (solj solk : solution) :
  (j <= k)%nat ->
  solve_users acos scenario num_sat_beam v j = Ok (vj, solj) ->
  solve_users acos scenario num_sat_beam v k = Ok (vk, solk) ->
  evolves vj vk.
Proof.
  intros Hjk Hj Hk.
  apply (solve_users_from (fun _ st => evolves vj st.1) v j (vj, solj) Hj)
    with (k := k) (st := (vk, solk)); auto.
  - reflexivity.
  - intros k' [v1 sol1] [v2 sol2] _ _ He Hstep. simpl in *.
    etransitivity; [exact He|].
    apply (solve_user_evolves v1 v2 sol1 sol2 (Z.of_nat k'));
      [lia|exact Hstep].
Qed.

(** Capacity: no satellite has more than [beams_per_satellite] beams, and a
    satellite that has as many is closed. *)
Lemma solve_users_capacity (v : matrix) (k : nat) (v' : matrix)
    (sol' : solution) :
  solve_users acos scenario num_sat_beam v k = Ok (v', sol') ->
  forall sat_id,
    Z.of_nat (length (beams_of sol' sat_id)) <= beams_per_satellite /\
    (Z.of_nat (length (beams_of sol' sat_id)) = beams_per_satellite ->
     sat_closed v' sat_id).
Proof.
  revert k v' sol'.
  apply (solve_users_invariant acos scenario
           (fun _ v' sol' =>
              forall sat_id,
                Z.of_nat (length (beams_of sol' sat_id))
                  <= beams_per_satellite /\
                (Z.of_nat (length (beams_of sol' sat_id))
                   = beams_per_satellite -> sat_closed v' sat_id))).
  - intros sat_id. unfold beams_of, beams_per_satellite. simpl.
    split; [lia|discriminate].
  - intros k v1 sol1 v2 sol2 IH Hstep sat.
    apply solve_user_cases in Hstep; [|lia].
    destruct Hstep as [(-> & -> & _)|(sat_id & color_i & Hstep)]; [auto|].
    simpl in Hstep.
    destruct Hstep as (Hsat & Hcolor & Hc & Hav & _ & -> & He & _ & Hfull & _).
    rewrite beams_of_setitem. destruct (decide (sat_id = sat)) as [<-|Hne].
    + destruct (IH sat_id) as [Hle Hclosed]. rewrite length_app. simpl.
      assert (Z.of_nat (length (beams_of sol1 sat_id))
                <> beams_per_satellite).
      { intros Heq. apply (Hclosed Heq (Z.to_nat (Z.of_nat k))
                             (column sat_id color_i)); auto.
        apply column_bounds; auto. }
      unfold beams_per_satellite in *. split; [lia|].
      intros Heq. apply Hfull. lia.
    + destruct (IH sat) as [Hle Hclosed]. split; [exact Hle|].
      intros Heq. eapply evolves_sat_closed; eauto.
Qed.

(** A satellite that has reached its capacity gets no further beam. *)
Lemma solve_users_saturated (v : matrix) (j k : nat)
    (vj vk : matrix) (solj solk : solution) (sat_id : Z) :
  (j <= k)%nat ->
  solve_users acos scenario num_sat_beam v j = Ok (vj, solj) ->
  solve_users acos scenario num_sat_beam v k = Ok (vk, solk) ->
  Z.of_nat (length (beams_of solj sat_id)) = beams_per_satellite ->
  beams_of solk sat_id = beams_of solj sat_id.
Proof.
  intros Hjk Hj Hk Hfull.
  apply (solve_users_from
           (fun _ st => beams_of st.2 sat_id = beams_of solj sat_id)
           v j (vj, solj) Hj)
    with (k := k) (st := (vk, solk)); auto.
  intros k' [v1 sol1] [v2 sol2] _ Hk' Heq Hstep. simpl in *.
  apply solve_users_capacity with (sat_id := sat_id) in Hk'.
  destruct Hk' as [_ Hclosed]. rewrite Heq in Hclosed.
  specialize (Hclosed Hfull).
  apply solve_user_cases in Hstep; [|lia].
  destruct Hstep as [(-> & -> & _)|(sat & color_i & Hstep)]; [auto|].
  simpl in Hstep. destruct Hstep as (_ & Hcolor & _ & Hav & _ & -> & _).
  rewrite beams_of_setitem. destruct (decide (sat = sat_id)) as [->|]; auto.
  exfalso. eapply Hclosed; [|exact Hav]. apply column_bounds; auto.
Qed.

End Greedy.

Section Interference.

Variable acos : float -> float.
Variable scenario : Scenario.
Variable num_sat_beam : nat.

(** A beam appended to a list is the last one; the others are where they
    were. *)
Lemma lookup_snoc {A : Type} (l : list A) (x y : A) (i : nat) :
  (l ++ [x])%list !! i = Some y ->
  (i < length l)%nat /\ l !! i = Some y \/ i = length l /\ y = x.
Proof.
  intros H. apply lookup_app_Some in H as [H|[Hi H]].
  - left. split; [eapply lookup_lt_Some; eauto|exact H].
  - right. apply list_lookup_singleton_Some in H as [H ->].
    split; [lia|reflexivity].
Qed.

(** Self-interference: two beams of one color on a satellite do not
    interfere, and every cell that is still available is clear of the beams
    already assigned on its satellite and color. *)
Lemma solve_users_clear (v : matrix) (k : nat) (v' : matrix)
    (sol' : solution) :
  solve_users acos scenario num_sat_beam v k = Ok (v', sol') ->
  (forall sat_id (i j : nat) user1 user2 color_i,
     (i < j)%nat ->
     beams_of sol' sat_id !! i = Some (user1, color_i) ->
     beams_of sol' sat_id !! j = Some (user2, color_i) ->
     clear_of acos scenario sat_id user1 user2) /\
  (forall sat_id user color_i (r : nat),
     (user, color_i) ∈ beams_of sol' sat_id ->
     cell v' r (Z.to_nat (column sat_id color_i)) = Some AVAILIBLE ->
     clear_of acos scenario sat_id user (Z.of_nat r + 1)).
Proof.
  revert k v' sol'.
  apply (solve_users_invariant acos scenario
           (fun _ v' sol' =>
              (forall sat_id (i j : nat) user1 user2 color_i,
                 (i < j)%nat ->
                 beams_of sol' sat_id !! i = Some (user1, color_i) ->
                 beams_of sol' sat_id !! j = Some (user2, color_i) ->
                 clear_of acos scenario sat_id user1 user2) /\
              (forall sat_id user color_i (r : nat),
                 (user, color_i) ∈ beams_of sol' sat_id ->
                 cell v' r (Z.to_nat (column sat_id color_i))
                   = Some AVAILIBLE ->
                 clear_of acos scenario sat_id user (Z.of_nat r + 1)))).
  - split.
    + intros sat_id i j u1 u2 c _ H. unfold beams_of in H. simpl in H.
      discriminate.
    + intros sat_id u c r H. unfold beams_of in H. simpl in H.
      apply elem_of_nil in H. contradiction.
  - intros k v1 sol1 v2 sol2 [IHa IHb] Hstep.
    apply solve_user_cases in Hstep; [|lia].
    destruct Hstep as [(-> & -> & _)|(sat_id & color_i & Hstep)]; [auto|].
    simpl in Hstep.
    destruct Hstep
      as (Hsat & Hcolor & Hc & Hav & _ & -> & He & _ & Hfull & Hclear).
    rewrite Nat2Z.id in Hav. split.
    + intros sat i j u1 u2 c Hij Hi Hj. rewrite beams_of_setitem in Hi, Hj.
      destruct (decide (sat_id = sat)) as [<-|Hne]; [|eauto].
      apply lookup_snoc in Hj as [[Hj_lt Hj]|[-> Hj]].
      * rewrite lookup_app_l in Hi by lia. eauto.
      * injection Hj as -> ->. rewrite lookup_app_l in Hi by lia.
        apply list_elem_of_lookup_2 in Hi.
        apply (IHb sat_id u1 color_i k Hi Hav).
    + intros sat u c r Hin Hcell. rewrite beams_of_setitem in Hin.
      assert (Hold : (u, c) ∈ beams_of sol1 sat ->
                     clear_of acos scenario sat u (Z.of_nat r + 1)).
      { intros Hin'. eapply IHb; [exact Hin'|].
        eapply evolves_available; eauto. }
      destruct (decide (sat_id = sat)) as [<-|Hne]; [|auto].
      apply elem_of_app in Hin as [Hin|Hin]; [auto|].
      apply list_elem_of_singleton in Hin. injection Hin as -> ->.
      destruct (decide (Z.of_nat (length (beams_of sol1 sat_id))
                        = beams_per_satellite - 1)) as [Heq|Hne].
      * exfalso. eapply (Hfull Heq); [|exact Hcell].
        apply column_bounds; auto.
      * apply Hclear; auto.
Qed.

(** Every beam belongs to a user already passed, who has that beam only and
    whose cell is in use; the beams of a satellite are in the order of the
    users. *)
Lemma solve_users_beams (v : matrix) (k : nat) (v' : matrix)
    (sol' : solution) :
  solve_users acos scenario num_sat_beam v k = Ok (v', sol') ->
  (forall sat_id (i : nat) user color_i,
     beams_of sol' sat_id !! i = Some (user, color_i) ->
     1 <= user <= Z.of_nat k /\ 1 <= sat_id /\
     0 <= color_i < colors_per_satellite /\
     cell v' (Z.to_nat (user - 1)) (Z.to_nat (column sat_id color_i))
       = Some IN_USE) /\
  (forall sat_id sat_id' (i i' : nat) user color_i color_i',
     beams_of sol' sat_id !! i = Some (user, color_i) ->
     beams_of sol' sat_id' !! i' = Some (user, color_i') ->
     sat_id = sat_id' /\ i = i') /\
  (forall sat_id (i j : nat) user1 user2 color1 color2,
     (i < j)%nat ->
     beams_of sol' sat_id !! i = Some (user1, color1) ->
     beams_of sol' sat_id !! j = Some (user2, color2) ->
     user1 < user2).
Proof.
  revert k v' sol'.
  apply (solve_users_invariant acos scenario
           (fun k v' sol' =>
              (forall sat_id (i : nat) user color_i,
                 beams_of sol' sat_id !! i = Some (user, color_i) ->
                 1 <= user <= Z.of_nat k /\ 1 <= sat_id /\
                 0 <= color_i < colors_per_satellite /\
                 cell v' (Z.to_nat (user - 1))
                   (Z.to_nat (column sat_id color_i)) = Some IN_USE) /\
              (forall sat_id sat_id' (i i' : nat) user color_i color_i',
                 beams_of sol' sat_id !! i = Some (user, color_i) ->
                 beams_of sol' sat_id' !! i' = Some (user, color_i') ->
                 sat_id = sat_id' /\ i = i') /\
              (forall sat_id (i j : nat) user1 user2 color1 color2,
                 (i < j)%nat ->
                 beams_of sol' sat_id !! i = Some (user1, color1) ->
                 beams_of sol' sat_id !! j = Some (user2, color2) ->
                 user1 < user2))).
  - repeat split; intros; unfold beams_of in *; simpl in *; discriminate.
  - intros k v1 sol1 v2 sol2 (IHa & IHb & IHc) Hstep.
    apply solve_user_cases in Hstep; [|lia].
    destruct Hstep as [(-> & -> & _)|(sat_id & color_i & Hstep)].
    { split; [|auto]. intros sat i u c H.
      destruct (IHa sat i u c H) as (? & ? & ? & ?). repeat split; auto; lia. }
    simpl in Hstep.
    destruct Hstep
      as (Hsat & Hcolor & Hc & Hav & _ & -> & He & Hin_use & _ & _).
    rewrite Nat2Z.id in Hin_use.
    assert (Hbeam : forall sat i u c,
              beams_of (PyDict.setitem sol1 sat_id
                          (beams_of sol1 sat_id
                             ++ [(Z.of_nat k + 1, color_i)])%list) sat !! i
                = Some (u, c) ->
              beams_of sol1 sat !! i = Some (u, c) \/
              sat = sat_id /\ i = length (beams_of sol1 sat_id) /\
              u = Z.of_nat k + 1 /\ c = color_i).
    { intros sat i u c H. rewrite beams_of_setitem in H.
      destruct (decide (sat_id = sat)) as [<-|Hne]; [|auto].
      apply lookup_snoc in H as [[_ H]|[-> H]]; [auto|].
      injection H as -> ->. auto. }
    assert (Hfresh : forall sat i c,
              beams_of sol1 sat !! i = Some (Z.of_nat k + 1, c) -> False).
    { intros sat i c H. apply IHa in H. lia. }
    split; [|split].
    + intros sat i u c H. apply Hbeam in H as [H|(-> & -> & -> & ->)].
      * destruct (IHa sat i u c H) as (Hu & Hs & Hcol & Hcell).
        repeat split; auto; try lia.
        eapply evolves_terminal; eauto; discriminate.
      * repeat split; auto; try lia.
        replace (Z.of_nat k + 1 - 1) with (Z.of_nat k) by lia.
        rewrite Nat2Z.id. exact Hin_use.
    + intros sat sat' i i' u c c' H H'.
      apply Hbeam in H as [H|(Hs & Hi & Hu & _)];
        apply Hbeam in H' as [H'|(Hs' & Hi' & Hu' & _)].
      * eauto.
      * subst u. exfalso; eauto.
      * subst u. exfalso; eauto.
      * split; congruence.
    + intros sat i j u1 u2 c1 c2 Hij H1 H2.
      apply Hbeam in H1 as [H1|(Hs1 & Hi1 & Hu1 & _)];
        apply Hbeam in H2 as [H2|(Hs2 & Hi2 & Hu2 & _)].
      * eauto.
      * apply IHa in H1. lia.
      * subst sat. pose proof (lookup_lt_Some _ _ _ H2). lia.
      * lia.
Qed.

End Interference.

(** ** The failures of the angle *)

Lemma SFcompare_refl (x : spec_float) :
  x <> S754_nan -> SFcompare x x = Some Eq.
Proof.
  destruct x as [s|s| |s m e]; simpl; try congruence; intros _.
  - destruct s; reflexivity.
  - destruct s; rewrite Z.compare_refl, Pos.compare_cont_refl; reflexivity.
Qed.

Lemma is_nan_true (x : float) :
  PrimFloat.is_nan x = true <-> Prim2SF x = S754_nan.
Proof.
  unfold PrimFloat.is_nan. rewrite FloatAxioms.eqb_spec. unfold SFeqb.
  split.
  - intros H. destruct (Prim2SF x) eqn:Hx; try reflexivity;
      rewrite SFcompare_refl in H by discriminate; discriminate.
  - intros ->. reflexivity.
Qed.

Lemma Prim2SF_zero : Prim2SF 0%float = S754_zero false.
Proof. reflexivity. Qed.

Lemma Prim2SF_infinity : Prim2SF infinity = S754_infinity false.
Proof. reflexivity. Qed.

Lemma is_infinity_spec (x : float) :
  PrimFloat.is_infinity x = true <-> exists s, Prim2SF x = S754_infinity s.
Proof.
  unfold PrimFloat.is_infinity.
  rewrite FloatAxioms.eqb_spec, abs_spec, Prim2SF_infinity. unfold SFeqb.
  destruct (Prim2SF x) as [s|s| |s m e]; simpl; split;
    try discriminate; try (intros (s' & H); discriminate); eauto.
Qed.

(** A finite float is a zero or a nonzero number. *)
Lemma is_finite_cases (x : float) :
  is_finite x = true ->
  (exists s, Prim2SF x = S754_zero s) \/
  (exists s m e, Prim2SF x = S754_finite s m e).
Proof.
  unfold is_finite. intros H. apply andb_true_iff in H as [Hn Hi].
  apply negb_true_iff in Hn, Hi.
  destruct (Prim2SF x) as [s|s| |s m e] eqn:Hx; eauto.
  - assert (PrimFloat.is_infinity x = true) by (apply is_infinity_spec; eauto).
    congruence.
  - assert (PrimFloat.is_nan x = true) by (apply is_nan_true; auto).
    congruence.
Qed.

Lemma eqb_zero (x : float) :
  PrimFloat.eqb x 0%float = true <-> exists s, Prim2SF x = S754_zero s.
Proof.
  rewrite FloatAxioms.eqb_spec, Prim2SF_zero. unfold SFeqb.
  destruct (Prim2SF x) as [s|s| |s m e]; simpl; split;
    try discriminate; try (intros (s' & H); discriminate); eauto;
    destruct s; discriminate.
Qed.

(** Two finite floats that compare equal have a zero for difference. *)
Lemma sub_eq_zero (x y : float) :
  is_finite x = true -> is_finite y = true -> PrimFloat.eqb y x = true ->
  PrimFloat.eqb (x - y) 0%float = true.
Proof.
  intros Hx Hy Heq. apply eqb_zero.
  rewrite FloatAxioms.eqb_spec in Heq. unfold SFeqb in Heq.
  rewrite sub_spec. unfold SF64sub, SFsub.
  destruct (is_finite_cases x Hx) as [(sx & Hx')|(sx & mx & ex & Hx')];
    destruct (is_finite_cases y Hy) as [(sy & Hy')|(sy & my & ey & Hy')];
    rewrite Hx', Hy' in *; simpl in Heq.
  - destruct sx, sy; eauto.
  - destruct sy; discriminate.
  - destruct sx; discriminate.
  - assert (sy = sx /\ ey = ex /\ my = mx) as (-> & -> & ->).
    { destruct sy, sx; try discriminate;
        destruct (ey ?= ex) eqn:He; try discriminate;
        apply Z.compare_eq in He; subst;
        destruct (Pos.compare_cont Eq my mx) eqn:Hm; try discriminate;
        apply Pos.compare_eq in Hm; auto. }
    rewrite Z.sub_diag. simpl. eauto.
Qed.

Lemma pow2_zero (x : float) :
  PrimFloat.eqb x 0%float = true -> PyFloat.pow2 x = Ok 0%float.
Proof.
  intros H. unfold PyFloat.pow2. destruct (PrimFloat.is_nan x) eqn:Hn.
  - apply is_nan_true in Hn. apply eqb_zero in H as (s & H). congruence.
  - destruct (PrimFloat.is_infinity x) eqn:Hi.
    + apply is_infinity_spec in Hi as (s' & Hi).
      apply eqb_zero in H as (s & H). congruence.
    + rewrite H. reflexivity.
Qed.

Lemma sqrt_zero : PyFloat.sqrt (0 + 0 + 0) = Ok 0%float.
Proof. reflexivity. Qed.

Lemma truediv_zero (x : float) :
  PyFloat.truediv x 0 = Raise ZeroDivisionError.
Proof. reflexivity. Qed.

(** The square root is never the step that fails: a sum of squares is not
    below zero. *)
Lemma binary_round_aux_sign (m e : Z) (l : location) :
  not_negative (binary_round_aux prec emax false m e l) = true.
Proof.
  unfold binary_round_aux.
  destruct (shr_fexp prec emax m e l) as [mrs' e'].
  destruct (shr_fexp prec emax _ e' loc_Exact) as [mrs'' e''].
  destruct (shr_m mrs''); try reflexivity.
  destruct (e'' <=? emax - prec); reflexivity.
Qed.

Lemma pow2_not_negative (x r : float) :
  PyFloat.pow2 x = Ok r -> not_negative (Prim2SF r) = true.
Proof.
  unfold PyFloat.pow2. destruct (PrimFloat.is_nan x) eqn:Hn.
  - intros H. injection H as <-. apply is_nan_true in Hn. rewrite Hn.
    reflexivity.
  - destruct (PrimFloat.is_infinity x); [intros H; injection H as <-;
                                         reflexivity|].
    destruct (PrimFloat.eqb x 0); [intros H; injection H as <-; reflexivity|].
    destruct (PrimFloat.is_infinity (abs x * abs x)); [discriminate|].
    intros H. injection H as <-. rewrite mul_spec, abs_spec.
    unfold SF64mul, SFmul.
    destruct (Prim2SF x) as [s|s| |s m e]; simpl; try reflexivity.
    apply binary_round_aux_sign.
Qed.

Lemma add_not_negative (x y : float) :
  not_negative (Prim2SF x) = true -> not_negative (Prim2SF y) = true ->
  not_negative (Prim2SF (x + y)) = true.
Proof.
  rewrite add_spec. unfold SF64add, SFadd.
  destruct (Prim2SF x) as [sx|sx| |sx mx ex],
           (Prim2SF y) as [sy|sy| |sy my ey]; simpl;
    try reflexivity; try (destruct sx, sy; simpl; congruence).
  destruct sx, sy; try discriminate. intros _ _. simpl.
  unfold binary_normalize, binary_round.
  destruct (shl_align _ _ _) as [mz ez].
  apply binary_round_aux_sign.
Qed.

Lemma sqrt_sum_of_squares (x y z x2 y2 z2 : float) :
  PyFloat.pow2 x = Ok x2 -> PyFloat.pow2 y = Ok y2 ->
  PyFloat.pow2 z = Ok z2 ->
  PyFloat.sqrt (x2 + y2 + z2) = Ok (PrimFloat.sqrt (x2 + y2 + z2)).
Proof.
  intros Hx Hy Hz. apply pow2_not_negative in Hx, Hy, Hz.
  pose proof (add_not_negative _ _ (add_not_negative _ _ Hx Hy) Hz) as H.
  unfold PyFloat.sqrt. rewrite FloatAxioms.ltb_spec, Prim2SF_zero.
  unfold SFltb.
  destruct (Prim2SF (x2 + y2 + z2)) as [s|s| |s m e]; simpl in *;
    try reflexivity; destruct s; try discriminate; reflexivity.
Qed.

Lemma pow2_raises (x : float) (e : exn) :
  PyFloat.pow2 x = Raise e -> e = OverflowError.
Proof.
  unfold PyFloat.pow2.
  repeat match goal with
         | |- context [if ?b then _ else _] => destruct b
         end; congruence.
Qed.

Lemma truediv_raises (x y : float) (e : exn) :
  PyFloat.truediv x y = Raise e -> e = ZeroDivisionError.
Proof. unfold PyFloat.truediv. destruct (PrimFloat.eqb y 0); congruence. Qed.

Lemma truediv_Ok (x y r : float) :
  PyFloat.truediv x y = Ok r ->
  PrimFloat.eqb y 0 = false /\ r = PrimFloat.div x y.
Proof. unfold PyFloat.truediv. destruct (PrimFloat.eqb y 0); split; congruence. Qed.

Section Failures.

Variable acos : float -> float.

(** The angle fails by a division by zero or by an overflow, and in no
    other way. *)
Lemma calculate_angle_degrees_raises (vertex a b : Vector3) (e : exn) :
  calculate_angle_degrees acos vertex a b = Raise e ->
  e = ZeroDivisionError \/ e = OverflowError.
Proof.
  unfold calculate_angle_degrees. simpl. intros H.
  repeat match type of H with
         | PyFloat.pow2 ?x ≫= _ = Raise _ =>
           let r := fresh "r" in
           let Hr := fresh "Hr" in
           destruct (PyFloat.pow2 x) as [r|] eqn:Hr; simpl in H;
           [|injection H as <-; right; eapply pow2_raises; eauto]
         | PyFloat.sqrt (?x + ?y + ?z) ≫= _ = Raise _ =>
           erewrite sqrt_sum_of_squares in H by eauto; simpl in H
         | PyFloat.truediv ?x ?y ≫= _ = Raise _ =>
           let r := fresh "r" in
           let Hr := fresh "Hr" in
           destruct (PyFloat.truediv x y) as [r|] eqn:Hr; simpl in H;
           [|injection H as <-; left; eapply truediv_raises; eauto]
         end.
  rewrite py_acos_bound in H. discriminate H.
Qed.

End Failures.

(** ** Strings *)

Lemma prefix_nil (s : string) : String.prefix "" s = true.
Proof. destruct s; reflexivity. Qed.

Lemma prefix_cons (c : ascii) (p s : string) :
  String.prefix (String c p) (String c s) = String.prefix p s.
Proof. simpl. destruct (ascii_dec c c); [reflexivity|contradiction]. Qed.

Lemma append_cons (c : ascii) (p s : string) :
  String c p ++ s = String c (p ++ s).
Proof. reflexivity. Qed.

Lemma append_nil_r (s : string) : s ++ "" = s.
Proof.
  induction s as [|c s IH]; [reflexivity|].
  rewrite append_cons, IH. reflexivity.
Qed.

Lemma contains_prefix (w s : string) :
  String.prefix w s = true -> PyStr.contains w s = true.
Proof.
  intros H. destruct s; cbn [PyStr.contains]; rewrite H; reflexivity.
Qed.

Lemma string_of_list_ascii_app (l1 l2 : list ascii) :
  string_of_list_ascii (l1 ++ l2)
  = string_of_list_ascii l1 ++ string_of_list_ascii l2.
Proof.
  induction l1 as [|c l1 IH]; [reflexivity|].
  change (string_of_list_ascii ((c :: l1) ++ l2))
    with (String c (string_of_list_ascii (l1 ++ l2))).
  rewrite IH. reflexivity.
Qed.

Lemma string_app_assoc (s1 s2 s3 : string) :
  (s1 ++ s2) ++ s3 = s1 ++ (s2 ++ s3).
Proof.
  induction s1 as [|c s1 IH]; [reflexivity|].
  rewrite !append_cons, IH. reflexivity.
Qed.

(** The first token read after the characters [cur] starts with them and
    goes on with a prefix of the rest of the string. *)
Lemma split_from_first (cur : list ascii) (s w : string) (rest : list string) :
  cur <> [] ->
  PyStr.split_from cur s = w :: rest ->
  exists p, w = string_of_list_ascii (rev cur) ++ p /\
            String.prefix p s = true.
Proof.
  revert cur. induction s as [|c s IH]; intros cur Hcur H; simpl in H.
  - destruct cur; [contradiction|]. simpl in H. injection H as <- _.
    exists "". rewrite append_nil_r. auto.
  - destruct (PyStr.is_space c).
    + destruct cur; [contradiction|]. simpl in H. injection H as <- _.
      exists "". rewrite append_nil_r. auto.
    + apply IH in H; [|discriminate]. destruct H as (p & -> & Hp).
      exists (String c p). split.
      * change (rev (c :: cur)) with (rev cur ++ [c])%list.
        rewrite string_of_list_ascii_app, string_app_assoc. reflexivity.
      * rewrite prefix_cons. exact Hp.
Qed.

(** The first token of a line is in the line. *)
Lemma first_token_contains (s w : string) (rest : list string) :
  PyStr.split s = w :: rest -> PyStr.contains w s = true.
Proof.
  unfold PyStr.split. induction s as [|c s IH]; [discriminate|].
  cbn [PyStr.split_from PyStr.contains].
  destruct (PyStr.is_space c) eqn:Hc; intros H.
  - apply IH in H. rewrite H. apply orb_true_r.
  - apply split_from_first in H as (p & -> & Hp); [|discriminate].
    change (string_of_list_ascii (rev [c]) ++ p) with (String c p).
    rewrite prefix_cons, Hp. reflexivity.
Qed.

Lemma split_from_nil (cur : list ascii) (s : string) :
  PyStr.split_from cur s = [] -> cur = [] /\ PyStr.lstrip s = "".
Proof.
  revert cur. induction s as [|c s IH]; intros cur H; simpl in *.
  - destruct cur; [auto|discriminate].
  - destruct (PyStr.is_space c).
    + destruct cur; [|discriminate]. simpl in H. apply IH in H as [_ H].
      auto.
    + apply IH in H as [H _]. discriminate.
Qed.

(** A line that is not blank has a token. *)
Lemma split_not_blank (s : string) :
  String.eqb (PyStr.strip s) "" = false -> PyStr.split s <> [].
Proof.
  intros H Hnil. apply split_from_nil in Hnil as [_ Hnil].
  unfold PyStr.strip in H. rewrite Hnil in H. discriminate.
Qed.

(** ** Reading the scenario *)

Section Reading.

Variable float_of_string : string -> option float.

(** What [read_object] answers on a line that has a token. *)
Lemma read_object_spec (object_type line : string)
    (dest : PyDict.dict string Vector3) :
  PyStr.split line <> [] ->
  read_object float_of_string object_type line dest =
  Ok match PyStr.split line with
     | [kw; ident; sx; sy; sz] =>
       if String.eqb kw object_type then
         match float_of_string sx, float_of_string sy,
               float_of_string sz with
         | Some x, Some y, Some z =>
           (true, PyDict.setitem dest ident (mkVector3 x y z))
         | _, _, _ => (false, dest)
         end
       else (false, dest)
     | _ => (false, dest)
     end.
Proof.
  intros Hne. unfold read_object.
  destruct (PyStr.split line) as [|kw tokens]; [contradiction|].
  assert (Hitem : forall (l : list string) (i : Z) (t : string),
            0 <= i -> l !! Z.to_nat i = Some t -> PyList.getitem l i = Ok t).
  { intros l i t Hi Ht. apply getitem_nonneg; auto. }
  rewrite (Hitem (kw :: tokens) 0 kw ltac:(lia) eq_refl). simpl.
  destruct (String.eqb kw object_type); simpl.
  - destruct tokens as [|ident [|sx [|sy [|sz [|t l]]]]]; try reflexivity.
    simpl.
    destruct (float_of_string sx), (float_of_string sy),
      (float_of_string sz); reflexivity.
  - destruct tokens as [|ident [|sx [|sy [|sz [|t l]]]]]; reflexivity.
Qed.

Lemma read_object_malformed (object_type line : string)
    (dest : PyDict.dict string Vector3) :
  PyStr.split line <> [] ->
  well_formed float_of_string line = false ->
  object_type ∈ ["sat"; "user"; "interferer"] ->
  read_object float_of_string object_type line dest = Ok (false, dest).
Proof.
  intros Hne Hwf Hty. rewrite read_object_spec by exact Hne.
  unfold well_formed in Hwf.
  destruct (PyStr.split line) as [|kw [|ident [|sx [|sy [|sz [|t l]]]]]];
    try reflexivity.
  destruct (String.eqb kw object_type) eqn:Hkw;
    [apply String.eqb_eq in Hkw; subst kw|apply String.eqb_neq in Hkw]; [|reflexivity].
  rewrite bool_decide_eq_true_2 in Hwf by exact Hty. simpl in Hwf.
  destruct (float_of_string sx), (float_of_string sy), (float_of_string sz);
    try reflexivity.
  rewrite !bool_decide_eq_true_2 in Hwf by eauto. discriminate.
Qed.

Lemma read_object_well_formed (object_type line : string)
    (dest : PyDict.dict string Vector3) (rest : list string) :
  PyStr.split line = object_type :: rest ->
  well_formed float_of_string line = true ->
  exists dest',
    read_object float_of_string object_type line dest = Ok (true, dest').
Proof.
  intros Hsplit Hwf. rewrite read_object_spec by (rewrite Hsplit; discriminate).
  unfold well_formed in Hwf. rewrite Hsplit in *.
  destruct rest as [|ident [|sx [|sy [|sz [|t l]]]]]; try discriminate.
  rewrite String.eqb_refl.
  repeat (apply andb_true_iff in Hwf as [Hwf ?]).
  repeat match goal with
         | H : bool_decide (is_Some _) = true |- _ =>
           apply bool_decide_eq_true_1 in H; destruct H as [? ->]
         end.
  eauto.
Qed.

(** A line the reader takes into account and that is malformed ends the
    reading with a failure, whatever follows it. *)
Lemma read_lines_malformed (line : string) (rest : list string)
    (scenario : Scenario) :
  relevant line = true -> well_formed float_of_string line = false ->
  read_lines float_of_string (line :: rest) scenario = Ok (false, scenario).
Proof.
  intros Hrel Hwf. unfold relevant in Hrel.
  apply andb_true_iff in Hrel as [Hc Hb]. apply negb_true_iff in Hc, Hb.
  pose proof (split_not_blank _ Hb) as Hne.
  simpl. rewrite Hc, Hb.
  repeat match goal with
         | |- context [if PyStr.contains ?w line then _ else _] =>
           destruct (PyStr.contains w line)
         end; try reflexivity;
    rewrite read_object_malformed; auto; repeat constructor.
Qed.

Lemma read_lines_skip (line : string) (rest : list string)
    (scenario : Scenario) :
  relevant line = false ->
  read_lines float_of_string (line :: rest) scenario
  = read_lines float_of_string rest scenario.
Proof.
  intros Hrel. unfold relevant in Hrel. simpl.
  destruct (PyStr.contains "#" line); [reflexivity|].
  destruct (String.eqb (PyStr.strip line) ""); [reflexivity|discriminate].
Qed.

(** A line that is well formed and names one kind of object is read, and
    the reading goes on. *)
Lemma read_lines_well_formed (line : string) (rest : list string)
    (scenario : Scenario) :
  relevant line = true -> well_formed float_of_string line = true ->
  unambiguous line = true ->
  exists scenario',
    read_lines float_of_string (line :: rest) scenario
    = read_lines float_of_string rest scenario'.
Proof.
  intros Hrel Hwf Hun. unfold relevant in Hrel.
  apply andb_true_iff in Hrel as [Hc Hb]. apply negb_true_iff in Hc, Hb.
  simpl. rewrite Hc, Hb.
  destruct (PyStr.split line) as [|kw tokens] eqn:Hsplit;
    [unfold well_formed in Hwf; rewrite Hsplit in Hwf; discriminate|].
  pose proof (first_token_contains _ _ _ Hsplit) as Hkw.
  assert (Hkind : kw ∈ ["sat"; "user"; "interferer"]).
  { unfold well_formed in Hwf. rewrite Hsplit in Hwf.
    destruct tokens as [|? [|? [|? [|? [|? ?]]]]]; try discriminate.
    repeat (apply andb_true_iff in Hwf as [Hwf ?]).
    apply bool_decide_eq_true_1 in Hwf. exact Hwf. }
  unfold unambiguous in Hun. rewrite Hsplit in Hun.
  destruct (String.eqb kw "interferer") eqn:Hni;
    [apply String.eqb_eq in Hni; subst kw|apply String.eqb_neq in Hni].
  - rewrite Hkw.
    destruct (read_object_well_formed "interferer" line
                (interferers scenario) tokens Hsplit Hwf) as [d ->].
    simpl. eauto.
  - destruct (String.eqb kw "sat") eqn:Hns;
    [apply String.eqb_eq in Hns; subst kw|apply String.eqb_neq in Hns].
    + apply negb_true_iff in Hun. rewrite Hun, Hkw.
      destruct (read_object_well_formed "sat" line (sats scenario) tokens
                  Hsplit Hwf) as [d ->].
      simpl. eauto.
    + assert (kw = "user") as ->.
      { rewrite !elem_of_cons, elem_of_nil in Hkind.
        destruct Hkind as [?|[?|[?|[]]]]; congruence. }
      apply andb_true_iff in Hun as [Hi Hs]. apply negb_true_iff in Hi, Hs.
      rewrite Hi, Hs, Hkw.
      destruct (read_object_well_formed "user" line (users scenario) tokens
                  Hsplit Hwf) as [d ->].
      simpl. eauto.
Qed.

Lemma read_lines_failure (lines : list string) (scenario : Scenario) :
  Exists (fun line => relevant line = true /\
                      well_formed float_of_string line = false) lines ->
  exists scenario',
    read_lines float_of_string lines scenario = Ok (false, scenario').
Proof.
  intros H. revert scenario. induction lines as [|line rest IH];
    intros scenario; [inversion H|].
  destruct (relevant line) eqn:Hrel.
  - destruct (well_formed float_of_string line) eqn:Hwf.
    + apply Exists_cons in H as [[_ H]|H]; [congruence|].
      destruct (unambiguous line) eqn:Hun.
      * destruct (read_lines_well_formed line rest scenario Hrel Hwf Hun)
          as [sc' ->]. auto.
      * (* the line is taken for another kind of object and refused *)
        clear IH H. unfold relevant in Hrel.
        apply andb_true_iff in Hrel as [Hc Hb].
        apply negb_true_iff in Hc, Hb.
        pose proof (split_not_blank _ Hb) as Hne.
        simpl. rewrite Hc, Hb. unfold unambiguous in Hun.
        destruct (PyStr.split line) as [|kw tokens] eqn:Hsplit;
          [contradiction|].
        destruct (String.eqb kw "interferer") eqn:Hni;
    [apply String.eqb_eq in Hni; subst kw|apply String.eqb_neq in Hni];
          [discriminate|].
        assert (Hrefuse : forall ty d,
                  ty <> kw ->
                  read_object float_of_string ty line d = Ok (false, d)).
        { intros ty d Hty. rewrite read_object_spec by (rewrite Hsplit; discriminate).
          rewrite Hsplit.
          destruct tokens as [|? [|? [|? [|? [|? ?]]]]]; try reflexivity.
          destruct (String.eqb_spec kw ty); [congruence|reflexivity]. }
        destruct (PyStr.contains "interferer" line).
        { rewrite Hrefuse by congruence. simpl. eauto. }
        destruct (String.eqb kw "sat") eqn:Hns;
    [apply String.eqb_eq in Hns; subst kw|apply String.eqb_neq in Hns]; [discriminate|].
        destruct (PyStr.contains "sat" line); [|discriminate].
        rewrite Hrefuse by congruence. simpl. eauto.
    + rewrite read_lines_malformed by auto. eauto.
  - rewrite read_lines_skip by exact Hrel.
    apply Exists_cons in H as [[H _]|H]; [congruence|auto].
Qed.

Lemma read_lines_success (lines : list string) (scenario : Scenario) :
  Forall (fun line => relevant line = true ->
                      well_formed float_of_string line = true /\
                      unambiguous line = true) lines ->
  exists scenario',
    read_lines float_of_string lines scenario = Ok (true, scenario').
Proof.
  intros H. revert scenario. induction H as [|line rest Hline _ IH];
    intros scenario; [simpl; eauto|].
  destruct (relevant line) eqn:Hrel.
  - destruct (Hline eq_refl) as [Hwf Hun].
    destruct (read_lines_well_formed line rest scenario Hrel Hwf Hun)
      as [sc' ->]. auto.
  - rewrite read_lines_skip by exact Hrel. auto.
Qed.

(** The lines after the one that fails are not read. *)
Lemma read_lines_app (pre rest : list string) (scenario sc : Scenario) :
  read_lines float_of_string pre scenario = Ok (true, sc) ->
  read_lines float_of_string (pre ++ rest)%list scenario
  = read_lines float_of_string rest sc.
Proof.
  revert scenario. induction pre as [|line pre IH]; intros scenario H.
  - simpl in H. injection H as <-. reflexivity.
  - simpl in H |- *.
    repeat match type of H with
           | (if ?b then _ else _) = _ => destruct b
           | (read_object ?f ?t ?l ?d ≫= _) = _ =>
             destruct (read_object f t l d) as [[[] ?]|]; simpl in H |- *
           end; try discriminate; auto.
Qed.

End Reading.

(** ** Numbers and their decimal strings *)

Lemma string_of_uint_digits (d : Decimal.uint) :
  digits_only (NilEmpty.string_of_uint d).
Proof.
  unfold digits_only. induction d; simpl; constructor; auto.
Qed.

Lemma digit_not_space (c : ascii) :
  PyStr.is_digit c = true -> PyStr.is_space c = false.
Proof.
  unfold PyStr.is_digit, PyStr.is_space. intros H.
  apply andb_true_iff in H as [H1 H2].
  apply N.leb_le in H1, H2.
  repeat match goal with
         | |- context [(?a <=? ?b)%N] => destruct (N.leb_spec a b)
         | |- context [(?a =? ?b)%N] => destruct (N.eqb_spec a b)
         end; simpl; try reflexivity; lia.
Qed.

Lemma lstrip_digits (s : string) : digits_only s -> PyStr.lstrip s = s.
Proof.
  destruct s as [|c s]; [reflexivity|]. intros H. inversion H; subst.
  simpl. rewrite digit_not_space by assumption. reflexivity.
Qed.

Lemma rstrip_digits (s : string) : digits_only s -> PyStr.rstrip s = s.
Proof.
  induction s as [|c s IH]; [reflexivity|]. intros H. inversion H; subst.
  simpl. rewrite IH by assumption.
  destruct s; [|reflexivity].
  rewrite digit_not_space by assumption. reflexivity.
Qed.

Lemma strip_digits (s : string) : digits_only s -> PyStr.strip s = s.
Proof.
  intros H. unfold PyStr.strip. rewrite lstrip_digits by exact H.
  apply rstrip_digits. exact H.
Qed.

Lemma parse_digits_string_of_uint (d : Decimal.uint) (acc : nat) :
  PyStr.parse_digits acc true (NilEmpty.string_of_uint d)
  = Some (Nat.of_uint_acc d acc).
Proof.
  revert acc. induction d; intros acc; simpl; [reflexivity|..];
    rewrite IHd; rewrite Nat.tail_mul_spec; do 2 f_equal.
Qed.

Lemma parse_digits_to_uint (n : nat) :
  PyStr.parse_digits 0 false (NilEmpty.string_of_uint (Nat.to_uint n))
  = Some n.
Proof.
  pose proof (DecimalNat.Unsigned.of_to n) as Hn.
  unfold Nat.of_uint in Hn.
  destruct (Nat.to_uint n) as [|d|d|d|d|d|d|d|d|d|d] eqn:E;
    [simpl in Hn; subst n; discriminate E|..];
    simpl; rewrite parse_digits_string_of_uint;
    simpl in Hn; rewrite Nat.tail_mul_spec in Hn; simpl in Hn;
    f_equal; exact Hn.
Qed.

(** [int(str(n))] is [n]. *)
Lemma int_str (n : Z) : 0 <= n -> PyStr.int (PyStr.str n) = Ok n.
Proof.
  intros Hn. unfold PyStr.str.
  destruct (Z.ltb_spec n 0) as [?|_]; [lia|].
  unfold PyStr.int. rewrite strip_digits by apply string_of_uint_digits.
  pose proof (parse_digits_to_uint (Z.to_nat n)) as Hp.
  pose proof (string_of_uint_digits (Nat.to_uint (Z.to_nat n))) as Hd.
  destruct (NilEmpty.string_of_uint (Nat.to_uint (Z.to_nat n)))
    as [|c s] eqn:E; [discriminate Hp|].
  inversion Hd as [|? ? Hc _]; subst.
  assert (Hsign : c <> "-"%char /\ c <> "+"%char).
  { split; intros ->; discriminate Hc. }
  destruct Hsign as [Hm Hp'].
  assert (Hbody : (let '(neg, body) :=
                      match String c s with
                      | String "-"%char r => (true, r)
                      | String "+"%char r => (false, r)
                      | _ => (false, String c s)
                      end in
                   match PyStr.parse_digits 0 false body with
                   | Some n0 => Ok (if neg : bool then - Z.of_nat n0
                                    else Z.of_nat n0)
                   | None => Raise ValueError_invalid_literal
                   end) = Ok n); [|exact Hbody].
  destruct c as [[] [] [] [] [] [] [] []]; try congruence;
    rewrite Hp; f_equal; lia.
Qed.

(** The decimal strings of two numbers differ when the numbers do. *)
Lemma str_inj (n m : Z) :
  0 <= n -> 0 <= m -> PyStr.str n = PyStr.str m -> n = m.
Proof.
  intros Hn Hm H. apply (f_equal PyStr.int) in H.
  rewrite !int_str in H by assumption. congruence.
Qed.

(** ** The construction of the matrix *)

Lemma shaped_cell (U C : nat) (v : matrix) (r c : nat) :
  shaped U C v -> (r < U)%nat -> (c < C)%nat -> is_Some (cell v r c).
Proof.
  intros [Hlen Hrows] Hr Hc.
  destruct (lookup_lt_is_Some_2 v r) as [row Hrow]; [lia|].
  pose proof (Forall_lookup_1 _ _ _ _ Hrows Hrow) as Hl. simpl in Hl.
  destruct (lookup_lt_is_Some_2 row c) as [s Hs]; [lia|].
  exists s. apply cell_Some. eauto.
Qed.

Lemma cell_shaped (U C : nat) (v : matrix) (r c : nat) (s : BeamState) :
  shaped U C v -> cell v r c = Some s -> (r < U)%nat /\ (c < C)%nat.
Proof.
  intros [Hlen Hrows] H. apply cell_Some in H as (row & Hrow & Hs).
  pose proof (Forall_lookup_1 _ _ _ _ Hrows Hrow) as Hl. simpl in Hl.
  apply lookup_lt_Some in Hrow, Hs. lia.
Qed.

Lemma shaped_insert (U C : nat) (v : matrix) (kr kc : nat)
    (row : list BeamState) (x : BeamState) :
  shaped U C v -> v !! kr = Some row ->
  shaped U C (<[kr:=<[kc:=x]> row]> v).
Proof.
  intros [Hlen Hrows] Hrow. split; [rewrite length_insert; exact Hlen|].
  apply Forall_insert; [exact Hrows|]. rewrite length_insert.
  apply (Forall_lookup_1 _ _ _ _ Hrows Hrow).
Qed.

Lemma shaped_blank (scenario : Scenario) :
  shaped (length (users scenario))
         (length (sats scenario) * Z.to_nat colors_per_satellite)
         (blank_matrix scenario).
Proof.
  unfold blank_matrix. split; [apply length_replicate|].
  apply Forall_replicate. apply length_replicate.
Qed.

Lemma cell_blank (scenario : Scenario) (r c : nat) (s : BeamState) :
  cell (blank_matrix scenario) r c = Some s -> s = UNAVAILIBLE.
Proof.
  intros H. apply cell_Some in H as (row & Hrow & Hs).
  unfold blank_matrix in Hrow. apply lookup_replicate in Hrow as [-> _].
  apply lookup_replicate in Hs as [-> _]. reflexivity.
Qed.

Lemma evolves_shaped (U C : nat) (v v' : matrix) :
  evolves v v' -> shaped U C v -> shaped U C v'.
Proof.
  intros He [Hlen Hrows]. split; [rewrite <- (evolves_length _ _ He); auto|].
  apply Forall_lookup. intros r row' Hrow'.
  eapply Forall2_lookup_r in He as (row & Hrow & Hcells); eauto.
  pose proof (Forall_lookup_1 _ _ _ _ Hrows Hrow) as Hl. simpl in Hl.
  apply Forall2_length in Hcells. simpl. lia.
Qed.

(** Writing a cell in a matrix of a given shape: the position written is
    the one the indices denote, and nothing else changes. *)
Lemma setcell_shaped (U C : nat) (v v' : matrix) (r c : Z) (x : BeamState) :
  shaped U C v -> setcell v r c x = Ok v' ->
  exists kr kc,
    PyList.index U r = Ok kr /\ PyList.index C c = Ok kc /\
    shaped U C v' /\
    forall r' c', cell v' r' c' =
                  if decide (r' = kr /\ c' = kc) then Some x
                  else cell v r' c'.
Proof.
  intros Hshape H.
  apply setcell_Ok in H as (kr & kc & row & Hkr & Hrow & Hkc & ->).
  destruct Hshape as [Hlen Hrows].
  pose proof (Forall_lookup_1 _ _ _ _ Hrows Hrow) as Hl. simpl in Hl.
  exists kr, kc. subst U C.
  split; [exact Hkr|]. split; [exact Hkc|].
  split; [apply shaped_insert; [split; auto|exact Hrow]|].
  intros r' c'. apply cell_insert; [exact Hrow|].
  apply index_Ok in Hkc. tauto.
Qed.

Lemma setcell_in_range (U C : nat) (v : matrix) (r c : Z) (x : BeamState) :
  shaped U C v -> 0 <= r < Z.of_nat U -> 0 <= c < Z.of_nat C ->
  exists v', setcell v r c x = Ok v'.
Proof.
  intros [Hlen Hrows] Hr Hc.
  destruct (lookup_lt_is_Some_2 v (Z.to_nat r)) as [row Hrow]; [lia|].
  pose proof (Forall_lookup_1 _ _ _ _ Hrows Hrow) as Hl. simpl in Hl.
  eexists. apply setcell_Ok. exists (Z.to_nat r), (Z.to_nat c), row.
  split; [apply index_nonneg; lia|]. split; [exact Hrow|].
  split; [apply index_nonneg; lia|reflexivity].
Qed.

Section Construction.

Variable acos : float -> float.
Variable scenario : Scenario.

Lemma visibility_pair_eq (user_id sat_id : string) (v : matrix) :
  visibility_pair acos scenario user_id v sat_id =
  visible ← pair_visible acos scenario user_id sat_id;
  if visible : bool
  then mark_available user_id sat_id v (range (Z.to_nat colors_per_satellite))
  else Ok v.
Proof.
  unfold visibility_pair, pair_visible, mark_available.
  destruct (PyDict.getitem (users scenario) user_id); simpl; [|reflexivity].
  destruct (PyDict.getitem (sats scenario) sat_id); simpl; [|reflexivity].
  destruct (calculate_angle_degrees _ _ _ _) as [angle|]; simpl;
    [|reflexivity].
  destruct (PrimFloat.leb angle _); simpl; [reflexivity|].
  destruct (interferer_violation _ _ _ _ _) as [[]|]; reflexivity.
Qed.

(** The cells written for a user and a satellite become available, the
    cells that were available stay so, and every other cell is as
    before. *)
Lemma mark_available_spec (U C : nat) (user_id sat_id : string)
    (colors : list Z) (v v' : matrix) :
  shaped U C v ->
  mark_available user_id sat_id v colors = Ok v' ->
  shaped U C v' /\
  (forall r c, targets U C colors user_id sat_id r c ->
               cell v' r c = Some AVAILIBLE) /\
  (forall r c, cell v r c = Some AVAILIBLE -> cell v' r c = Some AVAILIBLE) /\
  (forall r c s, cell v' r c = Some s ->
                 cell v r c = Some s \/
                 s = AVAILIBLE /\ targets U C colors user_id sat_id r c) /\
  (forall i, i ∈ colors ->
             exists u s kr kc,
               PyStr.int user_id = Ok u /\ PyStr.int sat_id = Ok s /\
               PyList.index U (u - 1) = Ok kr /\
               PyList.index C ((s - 1) * colors_per_satellite + i) = Ok kc).
Proof.
  unfold mark_available. revert v.
  induction colors as [|i colors IH]; intros v Hshape H; simpl in H.
  - injection H as <-. split; [exact Hshape|].
    split; [intros r c (u & s & i & _ & _ & Hi & _); inversion Hi|].
    split; [auto|]. split; [auto|]. intros i Hi. inversion Hi.
  - inv_ok. rename a into v1, a0 into s, a1 into u.
    destruct (setcell_shaped U C _ _ _ _ _ Hshape Ha)
      as (kr & kc & Hkr & Hkc & Hshape1 & Hcells1).
    destruct (IH v1 Hshape1 H) as (Hshape' & Hnew & Hkeep & Hold & Hidx).
    assert (Hhere : targets U C (i :: colors) user_id sat_id kr kc).
    { exists u, s, i. repeat split; auto. left. }
    assert (Hmore : forall r c, targets U C colors user_id sat_id r c ->
                                targets U C (i :: colors) user_id sat_id r c).
    { intros r c (u' & s' & i' & ? & ? & Hi' & ? & ?).
      exists u', s', i'. repeat split; auto. right. exact Hi'. }
    split; [exact Hshape'|]. split; [|split; [|split]].
    + intros r c (u' & s' & i' & Hu' & Hs' & Hi' & Hr & Hc).
      apply elem_of_cons in Hi' as [->|Hi'].
      * apply Hkeep. rewrite Hcells1.
        assert (u' = u) as -> by congruence.
        assert (s' = s) as -> by congruence.
        rewrite decide_True; [reflexivity|]. split; congruence.
      * apply Hnew. exists u', s', i'. auto.
    + intros r c Hav. apply Hkeep. rewrite Hcells1.
      destruct (decide _); [reflexivity|exact Hav].
    + intros r c s0 Hs0. apply Hold in Hs0 as [Hs0|[-> Ht]]; [|auto].
      rewrite Hcells1 in Hs0.
      destruct (decide (r = kr /\ c = kc)) as [[-> ->]|_]; [|auto].
      injection Hs0 as <-. auto.
    + intros i' Hi'. apply elem_of_cons in Hi' as [->|Hi']; [|auto].
      exists u, s, kr, kc. auto.
Qed.

End Construction.

Section Constructed.

Variable acos : float -> float.
Variable scenario : Scenario.
Variable U C : nat.

Lemma constructed_ext (P P' : string -> string -> Prop) (v : matrix) :
  (forall u s, P u s <-> P' u s) ->
  constructed acos scenario U C P v -> constructed acos scenario U C P' v.
Proof.
  intros Hext (Hshape & HA & HB & HC & HD & HE).
  split; [exact Hshape|]. split; [|split; [|split; [|split]]].
  - intros r c Hav. destruct (HA r c Hav) as (u & s & HP & Hrest).
    exists u, s. split; [apply Hext; exact HP|exact Hrest].
  - intros u s r c HP. apply HB. apply Hext. exact HP.
  - exact HC.
  - intros u s HP. apply HD. apply Hext. exact HP.
  - intros u s i HP. apply HE. apply Hext. exact HP.
Qed.

(** One pair more. *)
Lemma visibility_pair_constructed (P : string -> string -> Prop)
    (user_id sat_id : string) (v v' : matrix) :
  constructed acos scenario U C P v ->
  visibility_pair acos scenario user_id v sat_id = Ok v' ->
  constructed acos scenario U C
    (fun u s => P u s \/ u = user_id /\ s = sat_id) v'.
Proof.
  intros (Hshape & HA & HB & HC & HD & HE) H.
  rewrite visibility_pair_eq in H. inv_ok. rename a into visible.
  destruct visible.
  - destruct (mark_available_spec U C _ _ _ _ _ Hshape H)
      as (Hshape' & Hnew & Hkeep & Hold & Hidx).
    split; [exact Hshape'|]. split; [|split; [|split; [|split]]].
    + intros r c Hav. apply Hold in Hav as [Hav|[_ Ht]].
      * destruct (HA r c Hav) as (u & s & HP & Hrest). exists u, s. auto.
      * exists user_id, sat_id. auto.
    + intros u s r c [HP|[-> ->]] Hvis Ht; [|auto].
      apply Hkeep. eapply HB; eauto.
    + intros r c s Hs. apply Hold in Hs as [Hs|[-> _]]; [eauto|auto].
    + intros u s [HP|[-> ->]]; [auto|eauto].
    + intros u s i [HP|[-> ->]] Hvis Hi; [eauto|auto].
  - injection H as <-.
    split; [exact Hshape|]. split; [|split; [|split; [|split]]].
    + intros r c Hav. destruct (HA r c Hav) as (u & s & HP & Hrest).
      exists u, s. auto.
    + intros u s r c [HP|[-> ->]] Hvis Ht; [eauto|congruence].
    + exact HC.
    + intros u s [HP|[-> ->]]; [auto|eauto].
    + intros u s i [HP|[-> ->]] Hvis Hi; [eauto|congruence].
Qed.

(** The loop over the satellites, for one user. *)
Lemma visibility_row_constructed (P : string -> string -> Prop)
    (user_id : string) (sat_ids : list string) (v v' : matrix) :
  constructed acos scenario U C P v ->
  foldM (visibility_pair acos scenario user_id) v sat_ids = Ok v' ->
  constructed acos scenario U C
    (fun u s => P u s \/ u = user_id /\ s ∈ sat_ids) v'.
Proof.
  revert P v. induction sat_ids as [|sat_id sat_ids IH]; intros P v Hv H.
  - simpl in H. injection H as <-. eapply constructed_ext; [|exact Hv].
    intros u s. split; [auto|]. intros [HP|[_ Hs]]; [auto|inversion Hs].
  - simpl in H. inv_ok. rename a into v1.
    apply (visibility_pair_constructed P) in Ha; [|exact Hv].
    apply (IH _ _ Ha) in H. eapply constructed_ext; [|exact H].
    intros u s. rewrite elem_of_cons. tauto.
Qed.

(** The two loops. *)
Lemma visibility_rows_constructed (P : string -> string -> Prop)
    (user_ids sat_ids : list string) (v v' : matrix) :
  constructed acos scenario U C P v ->
  foldM (fun v user_id =>
           foldM (visibility_pair acos scenario user_id) v sat_ids)
        v user_ids = Ok v' ->
  constructed acos scenario U C
    (fun u s => P u s \/ u ∈ user_ids /\ s ∈ sat_ids) v'.
Proof.
  revert P v. induction user_ids as [|user_id user_ids IH]; intros P v Hv H.
  - simpl in H. injection H as <-. eapply constructed_ext; [|exact Hv].
    intros u s. split; [auto|]. intros [HP|[Hu _]]; [auto|inversion Hu].
  - simpl in H. inv_ok. rename a into v1.
    apply (visibility_row_constructed P) in Ha; [|exact Hv].
    apply (IH _ _ Ha) in H. eapply constructed_ext; [|exact H].
    intros u s. rewrite elem_of_cons. tauto.
Qed.

End Constructed.

(** The matrix that is built: its available cells are those of the users
    and satellites that pass the two checks, and every other cell is
    unavailable. *)
Lemma generate_visibility_matrix_constructed (acos : float -> float)
    (scenario : Scenario) (v : matrix) :
  generate_visibility_matrix acos scenario = Ok v ->
  constructed acos scenario (length (users scenario))
    (length (sats scenario) * Z.to_nat colors_per_satellite)
    (fun u s => u ∈ PyDict.keys (users scenario) /\
                s ∈ PyDict.keys (sats scenario)) v.
Proof.
  intros H. unfold generate_visibility_matrix in H.
  apply (visibility_rows_constructed acos scenario
           (length (users scenario))
           (length (sats scenario) * Z.to_nat colors_per_satellite)
           (fun _ _ => False))
    in H.
  - eapply constructed_ext; [|exact H]. intros u s. tauto.
  - split; [apply shaped_blank|]. split; [|split; [|split; [|split]]].
    + intros r c Hav. apply cell_blank in Hav. discriminate.
    + intros u s r c [].
    + intros r c s Hs. apply cell_blank in Hs. auto.
    + intros u s [].
    + intros u s i [].
Qed.

(** ** Identifiers *)

Lemma dict_lookup_key `{EqDecision K} {V : Type} (d : PyDict.dict K V)
    (k : K) :
  k ∈ PyDict.keys d -> exists x, PyDict.lookup d k = Some x.
Proof.
  induction d as [|[k' x'] d IH]; simpl; intros H; [inversion H|].
  destruct (decide (k' = k)); [eauto|].
  apply elem_of_cons in H as [H|H]; [congruence|auto].
Qed.

Lemma dict_getitem_key `{EqDecision K} {V : Type} (d : PyDict.dict K V)
    (k : K) :
  k ∈ PyDict.keys d -> exists x, PyDict.getitem d k = Ok x.
Proof.
  intros H. apply dict_lookup_key in H as [x H]. exists x.
  unfold PyDict.getitem. rewrite H. reflexivity.
Qed.

Lemma dict_lookup_Some_key `{EqDecision K} {V : Type} (d : PyDict.dict K V)
    (k : K) (x : V) :
  PyDict.lookup d k = Some x -> k ∈ PyDict.keys d.
Proof.
  induction d as [|[k' x'] d IH]; simpl; [discriminate|].
  destruct (decide (k' = k)) as [->|]; intros H.
  - left.
  - right. auto.
Qed.

Lemma keys_length {K V : Type} (d : PyDict.dict K V) :
  length (PyDict.keys d) = length d.
Proof. unfold PyDict.keys. apply length_map. Qed.

(** With contiguous identifiers, the keys are the strings of the numbers
    from 1 to the number of entries. *)
Lemma ids_contiguous_key (d : PyDict.dict string Vector3) (k : string) :
  ids_contiguous d ->
  k ∈ PyDict.keys d <->
  exists n, 1 <= n <= Z.of_nat (length d) /\ k = PyStr.str n.
Proof.
  intros H. unfold ids_contiguous in H.
  rewrite (elem_of_Permutation_proper _ _ _ H).
  rewrite list_elem_of_fmap. split.
  - intros (n & -> & Hn). apply list_elem_of_In, In_range_from in Hn.
    exists n. split; [lia|reflexivity].
  - intros (n & Hn & ->). exists n. split; [reflexivity|].
    apply list_elem_of_In, In_range_from. lia.
Qed.

(** ** The loop over the interferers *)

Section Interferers.

Variable acos : float -> float.
Variable scenario : Scenario.
Variable user_pos sat_pos : Vector3.

Lemma interferer_violation_false (ids : list string) :
  interferer_violation acos scenario user_pos sat_pos ids = Ok false ->
  forall id, id ∈ ids -> ~ violates acos scenario user_pos sat_pos id.
Proof.
  induction ids as [|id0 ids IH]; intros H id Hid; [inversion Hid|].
  simpl in H. inv_ok. rename a into pos, a0 into angle.
  destruct (PrimFloat.ltb angle non_starlink_interference_max) eqn:Hlt;
    [discriminate|].
  apply elem_of_cons in Hid as [->|Hid]; [|auto].
  intros (pos' & angle' & Hpos & Hangle & Hlt'). congruence.
Qed.

Lemma interferer_violation_true (ids : list string) :
  interferer_violation acos scenario user_pos sat_pos ids = Ok true ->
  exists pre id rest,
    ids = (pre ++ id :: rest)%list /\
    interferer_violation acos scenario user_pos sat_pos pre = Ok false /\
    violates acos scenario user_pos sat_pos id.
Proof.
  induction ids as [|id0 ids IH]; intros H; [discriminate|].
  simpl in H. inv_ok. rename a into pos, a0 into angle.
  destruct (PrimFloat.ltb angle non_starlink_interference_max) eqn:Hlt.
  - exists [], id0, ids. split; [reflexivity|]. split; [reflexivity|].
    exists pos, angle. auto.
  - destruct (IH H) as (pre & id & rest & -> & Hpre & Hid).
    exists (id0 :: pre), id, rest. split; [reflexivity|]. split; [|exact Hid].
    simpl. rewrite Ha. simpl. rewrite Ha0. simpl. rewrite Hlt. exact Hpre.
Qed.

(** The checking stops at the first violation: what comes after it is not
    looked at. *)
Lemma interferer_violation_first (pre rest : list string) (id : string) :
  interferer_violation acos scenario user_pos sat_pos pre = Ok false ->
  violates acos scenario user_pos sat_pos id ->
  interferer_violation acos scenario user_pos sat_pos (pre ++ id :: rest)
  = Ok true.
Proof.
  intros Hpre (pos & angle & Hpos & Hangle & Hlt).
  induction pre as [|id0 pre IH]; simpl.
  - rewrite Hpos. simpl. rewrite Hangle. simpl. rewrite Hlt. reflexivity.
  - simpl in Hpre. inv_ok. rewrite Ha. simpl. rewrite Ha0. simpl.
    destruct (PrimFloat.ltb a0 non_starlink_interference_max);
      [discriminate|auto].
Qed.

End Interferers.

Lemma range_colors (i : Z) :
  i ∈ range (Z.to_nat colors_per_satellite)
  <-> 0 <= i < colors_per_satellite.
Proof.
  rewrite list_elem_of_In, In_range. unfold colors_per_satellite. lia.
Qed.

(** ** The order of the entries of a dictionary *)

Lemma dict_lookup_None `{EqDecision K} {V : Type} (d : PyDict.dict K V)
    (k : K) :
  k ∉ PyDict.keys d -> PyDict.lookup d k = None.
Proof.
  induction d as [|[k' x'] d IH]; simpl; intros H; [reflexivity|].
  destruct (decide (k' = k)) as [->|].
  - exfalso. apply H. left.
  - apply IH. intros Hin. apply H. right. exact Hin.
Qed.

Lemma dict_lookup_Permutation (d1 d2 : PyDict.dict string Vector3)
    (k : string) :
  same_entries d1 d2 -> PyDict.lookup d1 k = PyDict.lookup d2 k.
Proof.
  intros [Hnodup Hperm]. induction Hperm as [|[k0 x0] d1 d2 Hperm IH
                                            |[k1 x1] [k2 x2] d
                                            |d1 d2 d3 H12 IH12 H23 IH23].
  - reflexivity.
  - simpl in *. apply NoDup_cons in Hnodup as [_ Hnodup].
    destruct (decide (k0 = k)); [reflexivity|auto].
  - simpl in *. apply NoDup_cons in Hnodup as [Hne _].
    destruct (decide (k1 = k)) as [->|], (decide (k2 = k)) as [->|];
      try reflexivity.
    exfalso. apply Hne. left.
  - rewrite IH12 by exact Hnodup. apply IH23.
    unfold PyDict.keys in *. rewrite <- H12. exact Hnodup.
Qed.

Lemma dict_getitem_Permutation (d1 d2 : PyDict.dict string Vector3)
    (k : string) :
  same_entries d1 d2 -> PyDict.getitem d1 k = PyDict.getitem d2 k.
Proof.
  intros H. unfold PyDict.getitem.
  rewrite (dict_lookup_Permutation d1 d2 k H). reflexivity.
Qed.

Lemma same_entries_keys (d1 d2 : PyDict.dict string Vector3) (k : string) :
  same_entries d1 d2 -> k ∈ PyDict.keys d1 <-> k ∈ PyDict.keys d2.
Proof.
  intros [_ Hperm]. unfold PyDict.keys. rewrite Hperm. reflexivity.
Qed.

Lemma same_entries_length (d1 d2 : PyDict.dict string Vector3) :
  same_entries d1 d2 -> length d1 = length d2.
Proof. intros [_ Hperm]. apply Permutation_length. exact Hperm. Qed.

Section SameScenario.

Variable acos : float -> float.
Variable sc1 sc2 : Scenario.
Hypothesis same : same_scenario sc1 sc2.

Lemma same_users (k : string) :
  PyDict.getitem (users sc1) k = PyDict.getitem (users sc2) k.
Proof using same. apply dict_getitem_Permutation, same. Qed.

Lemma same_sats (k : string) :
  PyDict.getitem (sats sc1) k = PyDict.getitem (sats sc2) k.
Proof using same. apply dict_getitem_Permutation, same. Qed.

Lemma same_interferers (k : string) :
  PyDict.getitem (interferers sc1) k = PyDict.getitem (interferers sc2) k.
Proof using same. apply dict_getitem_Permutation, same. Qed.

Lemma same_violates (user_pos sat_pos : Vector3) (id : string) :
  violates acos sc1 user_pos sat_pos id ->
  violates acos sc2 user_pos sat_pos id.
Proof using same.
  intros (pos & angle & Hpos & H). exists pos, angle.
  rewrite <- same_interferers. auto.
Qed.

Lemma same_interferer_violation (user_pos sat_pos : Vector3)
    (b1 b2 : bool) :
  interferer_violation acos sc1 user_pos sat_pos
    (PyDict.keys (interferers sc1)) = Ok b1 ->
  interferer_violation acos sc2 user_pos sat_pos
    (PyDict.keys (interferers sc2)) = Ok b2 ->
  b1 = b2.
Proof using same.
  intros H1 H2.
  assert (Hkeys : forall id, id ∈ PyDict.keys (interferers sc1) <->
                             id ∈ PyDict.keys (interferers sc2))
    by (intros id; apply same_entries_keys, same).
  destruct b1, b2; try reflexivity; exfalso.
  - apply interferer_violation_true in H1
      as (pre & id & rest & Hids & _ & Hv).
    eapply interferer_violation_false; [exact H2| |].
    + apply Hkeys. rewrite Hids. apply elem_of_app. right. left.
    + apply same_violates. exact Hv.
  - apply interferer_violation_true in H2
      as (pre & id & rest & Hids & _ & (pos & angle & Hpos & Hv)).
    eapply interferer_violation_false; [exact H1| |].
    + apply Hkeys. rewrite Hids. apply elem_of_app. right. left.
    + exists pos, angle. rewrite same_interferers. auto.
Qed.

Lemma same_pair_visible (user_id sat_id : string) (b1 b2 : bool) :
  pair_visible acos sc1 user_id sat_id = Ok b1 ->
  pair_visible acos sc2 user_id sat_id = Ok b2 ->
  b1 = b2.
Proof using same.
  unfold pair_visible. rewrite <- same_users, <- same_sats.
  intros H1 H2. inv_ok.
  assert (a2 = a) as -> by congruence.
  assert (a3 = a0) as -> by congruence.
  assert (a4 = a1) as -> by congruence.
  destruct (PrimFloat.leb a1 _); [congruence|]. inv_ok.
  f_equal. eapply same_interferer_violation; eauto.
Qed.

(** The matrix does not depend on the order. *)
Lemma same_matrix (v1 v2 : matrix) :
  generate_visibility_matrix acos sc1 = Ok v1 ->
  generate_visibility_matrix acos sc2 = Ok v2 ->
  v1 = v2.
Proof using same.
  intros H1 H2.
  apply generate_visibility_matrix_constructed in H1, H2.
  destruct same as (Hs & Hu & _).
  rewrite <- (same_entries_length _ _ Hs),
    <- (same_entries_length _ _ Hu) in H2.
  destruct H1 as (Hshape1 & HA1 & HB1 & HC1 & HD1 & _).
  destruct H2 as (Hshape2 & HA2 & HB2 & HC2 & HD2 & _).
  assert (Hcells : forall r c, cell v1 r c = cell v2 r c).
  { intros r c.
    assert (H12 : cell v1 r c = Some AVAILIBLE ->
                  cell v2 r c = Some AVAILIBLE).
    { intros Hav. destruct (HA1 r c Hav) as (u & s & [Hu1 Hs1] & Hv & Ht).
      assert (HP2 : u ∈ PyDict.keys (users sc2) /\
                    s ∈ PyDict.keys (sats sc2)).
      { split; [apply (same_entries_keys _ _ _ Hu)
               |apply (same_entries_keys _ _ _ Hs)]; assumption. }
      destruct (HD2 u s HP2) as [b Hb].
      assert (b = true) as -> by (symmetry; eapply same_pair_visible; eauto).
      eapply HB2; eauto. }
    assert (H21 : cell v2 r c = Some AVAILIBLE ->
                  cell v1 r c = Some AVAILIBLE).
    { intros Hav. destruct (HA2 r c Hav) as (u & s & [Hu2 Hs2] & Hv & Ht).
      assert (HP1 : u ∈ PyDict.keys (users sc1) /\
                    s ∈ PyDict.keys (sats sc1)).
      { split; [apply (same_entries_keys _ _ _ Hu)
               |apply (same_entries_keys _ _ _ Hs)]; assumption. }
      destruct (HD1 u s HP1) as [b Hb].
      assert (b = true) as -> by (eapply same_pair_visible; eauto).
      eapply HB1; eauto. }
    destruct (cell v1 r c) as [s1|] eqn:E1, (cell v2 r c) as [s2|] eqn:E2.
    - destruct (HC1 _ _ _ E1) as [-> | ->], (HC2 _ _ _ E2) as [-> | ->];
        try reflexivity.
      + symmetry. auto.
      + auto.
    - apply (cell_shaped _ _ _ _ _ _ Hshape1) in E1.
      destruct (shaped_cell _ _ v2 r c Hshape2) as [s Hs2]; [lia|lia|].
      congruence.
    - apply (cell_shaped _ _ _ _ _ _ Hshape2) in E2.
      destruct (shaped_cell _ _ v1 r c Hshape1) as [s Hs1]; [lia|lia|].
      congruence.
    - reflexivity. }
  apply list_eq. intros r.
  destruct (v1 !! r) as [row1|] eqn:E1, (v2 !! r) as [row2|] eqn:E2.
  - f_equal. apply list_eq. intros c.
    specialize (Hcells r c). unfold cell in Hcells.
    rewrite E1, E2 in Hcells. exact Hcells.
  - apply lookup_lt_Some in E1. apply lookup_ge_None in E2.
    destruct Hshape1 as [? _], Hshape2 as [? _]. lia.
  - apply lookup_lt_Some in E2. apply lookup_ge_None in E1.
    destruct Hshape1 as [? _], Hshape2 as [? _]. lia.
  - reflexivity.
Qed.

Lemma foldM_ext {S A : Type} (f g : S -> A -> res S) (s : S) (l : list A) :
  (forall s a, f s a = g s a) -> foldM f s l = foldM g s l.
Proof.
  intros H. revert s. induction l as [|a l IH]; intros s; simpl;
    [reflexivity|].
  rewrite H. destruct (g s a); simpl; auto.
Qed.

Lemma same_update_visibility_user (pos : Vector3) (full : bool)
    (sat_id color_i : Z) (v : matrix) (user_i : Z) :
  update_visibility_user acos sc1 pos full sat_id color_i v user_i
  = update_visibility_user acos sc2 pos full sat_id color_i v user_i.
Proof using same.
  unfold update_visibility_user.
  destruct (PyList.getitem v user_i) as [row|]; simpl; [|reflexivity].
  destruct full; [reflexivity|].
  destruct (PyList.getitem row _) as [s|]; simpl; [|reflexivity].
  destruct (is_available s); simpl; [|reflexivity].
  rewrite same_users.
  destruct (PyDict.getitem (users sc2) _); simpl; [|reflexivity].
  rewrite same_sats. reflexivity.
Qed.

Lemma same_update_visibility (v : matrix)
    (target_user_i sat_id color_i beam_i : Z) :
  update_visibility acos v sc1 target_user_i sat_id color_i beam_i
  = update_visibility acos v sc2 target_user_i sat_id color_i beam_i.
Proof using same.
  unfold update_visibility.
  destruct (set_user_beam _ _ _ _ _) as [v1|]; simpl; [|reflexivity].
  rewrite same_users.
  destruct (PyDict.getitem (users sc2) _) as [pos|]; simpl; [|reflexivity].
  destruct (PyList.getitem v1 0); simpl; [|reflexivity].
  apply foldM_ext. intros v0 user_i. apply same_update_visibility_user.
Qed.

Lemma same_greedy_solver (v : matrix) :
  greedy_solver acos sc1 v = greedy_solver acos sc2 v.
Proof using same.
  unfold greedy_solver.
  destruct (PyList.getitem v 0) as [row0|]; simpl; [|reflexivity].
  unfold solve_users. apply foldM_ext. intros [v0 sol] user_i.
  unfold solve_user.
  destruct (PyList.getitem v0 user_i); simpl; [|reflexivity].
  destruct (first_available _ _ _) as [[c|]|]; simpl; try reflexivity.
  rewrite same_update_visibility. reflexivity.
Qed.

End SameScenario.

(** ** Runs without a failed index, key or identifier *)

Lemma safe_Ok {A : Type} (a : A) : safe (Ok a).
Proof. intros e H. discriminate H. Qed.

Lemma safe_bind {A B : Type} (m : res A) (k : A -> res B) :
  safe m -> (forall a, m = Ok a -> safe (k a)) -> safe (m ≫= k).
Proof.
  intros Hm Hk e H. apply bind_Raise in H as [H|(a & Ha & H)].
  - apply Hm. exact H.
  - eapply Hk; eauto.
Qed.

Lemma safe_bind_Ok {A B : Type} (m : res A) (k : A -> res B) (a : A) :
  m = Ok a -> safe (k a) -> safe (m ≫= k).
Proof. intros -> H. exact H. Qed.

Lemma safe_foldM {S A : Type} (I : S -> Prop) (f : S -> A -> res S)
    (l : list A) (s : S) :
  I s ->
  (forall s a, In a l -> I s ->
               safe (f s a) /\ forall s', f s a = Ok s' -> I s') ->
  safe (foldM f s l).
Proof.
  revert s. induction l as [|a l IH]; intros s Hs Hf; simpl.
  - apply safe_Ok.
  - destruct (Hf s a (or_introl eq_refl) Hs) as [Hsafe Hnext].
    apply safe_bind; [exact Hsafe|]. intros s' Hs'. apply IH; [auto|].
    intros s0 a0 Hin. apply Hf. right. exact Hin.
Qed.

Lemma safe_calculate_angle_degrees (acos : float -> float)
    (vertex a b : Vector3) :
  safe (calculate_angle_degrees acos vertex a b).
Proof. intros e H. apply calculate_angle_degrees_raises in H. exact H. Qed.

Lemma getitem_in_range {A : Type} (l : list A) (i : Z) :
  0 <= i < Z.of_nat (length l) -> exists x, PyList.getitem l i = Ok x.
Proof.
  intros Hi. destruct (lookup_lt_is_Some_2 l (Z.to_nat i)) as [x Hx]; [lia|].
  exists x. apply getitem_nonneg; [lia|exact Hx].
Qed.

Lemma getcell_in_range (U C : nat) (v : matrix) (r c : Z) :
  shaped U C v -> 0 <= r < Z.of_nat U -> 0 <= c < Z.of_nat C ->
  exists s, getcell v r c = Ok s.
Proof.
  intros Hshape Hr Hc.
  destruct (shaped_cell U C v (Z.to_nat r) (Z.to_nat c) Hshape) as [s Hs];
    [lia|lia|].
  exists s. apply getcell_nonneg; [lia|lia|exact Hs].
Qed.

Lemma setcell_keeps_shape (U C : nat) (v v' : matrix) (r c : Z)
    (x : BeamState) :
  shaped U C v -> setcell v r c x = Ok v' -> shaped U C v'.
Proof.
  intros Hshape H.
  destruct (setcell_shaped U C _ _ _ _ _ Hshape H) as (? & ? & ? & ? & ? & ?).
  assumption.
Qed.

Section Safety.

Variable acos : float -> float.
Variable scenario : Scenario.

#[local] Abbreviation n_users := (length (users scenario)).
#[local] Abbreviation n_sats := (length (sats scenario)).
#[local] Abbreviation n_cols :=
  (length (sats scenario) * Z.to_nat colors_per_satellite)%nat.

Hypothesis users_contiguous : ids_contiguous (users scenario).
Hypothesis sats_contiguous : ids_contiguous (sats scenario).

Lemma user_position (user : Z) :
  1 <= user <= Z.of_nat n_users ->
  exists pos, PyDict.getitem (users scenario) (PyStr.str user) = Ok pos.
Proof using users_contiguous.
  intros H. apply dict_getitem_key, ids_contiguous_key; eauto.
Qed.

Lemma sat_position (sat : Z) :
  1 <= sat <= Z.of_nat n_sats ->
  exists pos, PyDict.getitem (sats scenario) (PyStr.str sat) = Ok pos.
Proof using sats_contiguous.
  intros H. apply dict_getitem_key, ids_contiguous_key; eauto.
Qed.

Lemma safe_interferer_violation (user_pos sat_pos : Vector3)
    (ids : list string) :
  (forall id, id ∈ ids -> id ∈ PyDict.keys (interferers scenario)) ->
  safe (interferer_violation acos scenario user_pos sat_pos ids).
Proof.
  induction ids as [|id ids IH]; intros Hids; simpl; [apply safe_Ok|].
  destruct (dict_getitem_key (interferers scenario) id) as [pos Hpos].
  { apply Hids. left. }
  eapply safe_bind_Ok; [exact Hpos|].
  apply safe_bind; [apply safe_calculate_angle_degrees|]. intros angle _.
  destruct (PrimFloat.ltb angle _); [apply safe_Ok|].
  apply IH. intros id' Hin. apply Hids. right. exact Hin.
Qed.

Lemma safe_pair_visible (user_id sat_id : string) :
  user_id ∈ PyDict.keys (users scenario) ->
  sat_id ∈ PyDict.keys (sats scenario) ->
  safe (pair_visible acos scenario user_id sat_id).
Proof.
  intros Hu Hs. unfold pair_visible.
  destruct (dict_getitem_key _ _ Hu) as [user_pos Hup].
  destruct (dict_getitem_key _ _ Hs) as [sat_pos Hsp].
  eapply safe_bind_Ok; [exact Hup|]. eapply safe_bind_Ok; [exact Hsp|].
  apply safe_bind; [apply safe_calculate_angle_degrees|]. intros angle _.
  destruct (PrimFloat.leb angle _); [apply safe_Ok|].
  apply safe_bind; [apply safe_interferer_violation; auto|].
  intros viol _. apply safe_Ok.
Qed.

Lemma safe_mark_available (user_id sat_id : string) (v : matrix)
    (colors : list Z) :
  user_id ∈ PyDict.keys (users scenario) ->
  sat_id ∈ PyDict.keys (sats scenario) ->
  (forall i, i ∈ colors -> 0 <= i < colors_per_satellite) ->
  shaped n_users n_cols v ->
  safe (mark_available user_id sat_id v colors).
Proof using users_contiguous sats_contiguous.
  intros Hu Hs Hcolors Hshape. unfold mark_available.
  apply ids_contiguous_key in Hu as (u & Hu & ->); [|assumption].
  apply ids_contiguous_key in Hs as (s & Hs & ->); [|assumption].
  apply (safe_foldM (shaped n_users n_cols)); [exact Hshape|].
  intros v0 i Hi Hv0. apply list_elem_of_In, Hcolors in Hi.
  rewrite !int_str by lia. simpl.
  destruct (setcell_in_range n_users n_cols v0 (u - 1)
              ((s - 1) * colors_per_satellite + i) AVAILIBLE Hv0)
    as [v1 Hv1].
  { lia. }
  { unfold colors_per_satellite in *. lia. }
  rewrite Hv1. split; [apply safe_Ok|].
  intros v' Hv'. injection Hv' as <-.
  eapply setcell_keeps_shape; eauto.
Qed.

Lemma safe_visibility_pair (user_id sat_id : string) (v : matrix) :
  user_id ∈ PyDict.keys (users scenario) ->
  sat_id ∈ PyDict.keys (sats scenario) ->
  shaped n_users n_cols v ->
  safe (visibility_pair acos scenario user_id v sat_id) /\
  forall v', visibility_pair acos scenario user_id v sat_id = Ok v' ->
             shaped n_users n_cols v'.
Proof using users_contiguous sats_contiguous.
  intros Hu Hs Hshape. rewrite visibility_pair_eq. split.
  - apply safe_bind; [apply safe_pair_visible; auto|].
    intros [] _; [|apply safe_Ok].
    apply safe_mark_available; auto. intros i Hi. apply range_colors. exact Hi.
  - intros v' H. inv_ok. destruct a.
    + eapply mark_available_spec; eauto.
    + injection H as <-. exact Hshape.
Qed.

(** The construction of the matrix. *)
Lemma safe_generate_visibility_matrix :
  safe (generate_visibility_matrix acos scenario) /\
  forall v, generate_visibility_matrix acos scenario = Ok v -> shaped n_users n_cols v.
Proof using users_contiguous sats_contiguous.
  unfold generate_visibility_matrix.
  assert (Hrow : forall user_id v,
            user_id ∈ PyDict.keys (users scenario) -> shaped n_users n_cols v ->
            safe (foldM (visibility_pair acos scenario user_id) v
                    (PyDict.keys (sats scenario))) /\
            forall v', foldM (visibility_pair acos scenario user_id) v
                         (PyDict.keys (sats scenario)) = Ok v' ->
                       shaped n_users n_cols v').
  { intros user_id v Hu Hv. split.
    - apply (safe_foldM (shaped n_users n_cols)); [exact Hv|].
      intros v0 sat_id Hs Hv0. apply list_elem_of_In in Hs.
      apply safe_visibility_pair; auto.
    - intros v'. apply foldM_invariant; [|exact Hv].
      intros v0 sat_id v1 Hs Hv0. apply list_elem_of_In in Hs.
      apply safe_visibility_pair; auto. }
  split.
  - apply (safe_foldM (shaped n_users n_cols)); [apply shaped_blank|].
    intros v0 user_id Hu Hv0. apply list_elem_of_In in Hu. auto.
  - intros v. apply foldM_invariant; [|apply shaped_blank].
    intros v0 user_id v1 Hu Hv0. apply list_elem_of_In in Hu.
    apply Hrow; auto.
Qed.

End Safety.

Section SafeSolver.

Variable acos : float -> float.
Variable scenario : Scenario.

#[local] Abbreviation n_users := (length (users scenario)).
#[local] Abbreviation n_sats := (length (sats scenario)).
#[local] Abbreviation n_cols :=
  (length (sats scenario) * Z.to_nat colors_per_satellite)%nat.

Hypothesis users_contiguous : ids_contiguous (users scenario).
Hypothesis sats_contiguous : ids_contiguous (sats scenario).

Lemma safe_update_visibility_user (pos : Vector3) (full : bool)
    (sat_id color_i : Z) (v : matrix) (user_i : Z) :
  shaped n_users n_cols v -> 0 <= user_i < Z.of_nat n_users ->
  1 <= sat_id <= Z.of_nat n_sats -> 0 <= color_i < colors_per_satellite ->
  safe (update_visibility_user acos scenario pos full sat_id color_i v
          user_i).
Proof using users_contiguous sats_contiguous.
  intros Hshape Hu Hs Hc. unfold update_visibility_user.
  destruct (getitem_in_range v user_i) as [row Hrow].
  { destruct Hshape as [-> _]. exact Hu. }
  eapply safe_bind_Ok; [exact Hrow|]. destruct full.
  - apply (safe_foldM (shaped n_users n_cols)); [exact Hshape|].
    intros v0 i Hi Hv0. apply In_range_from in Hi.
    destruct (getcell_in_range n_users n_cols v0 user_i i Hv0) as [s Hs0]; [lia| |].
    { unfold colors_per_satellite in *. lia. }
    rewrite Hs0. simpl. destruct (is_available s).
    + destruct (setcell_in_range n_users n_cols v0 user_i i UNAVAILIBLE Hv0)
        as [v1 Hv1]; [lia| |].
      { unfold colors_per_satellite in *. lia. }
      rewrite Hv1. split; [apply safe_Ok|].
      intros v' Hv'. injection Hv' as <-.
      eapply setcell_keeps_shape; eauto.
    + split; [apply safe_Ok|]. intros v' Hv'. injection Hv' as <-. exact Hv0.
  - destruct (getitem_in_range row
                ((sat_id - 1) * colors_per_satellite + color_i))
      as [s Hs0].
    { apply getitem_nonneg in Hrow; [|lia]. destruct Hshape as [_ Hrows].
      rewrite (Forall_lookup_1 _ _ _ _ Hrows Hrow).
      unfold colors_per_satellite in *. lia. }
    eapply safe_bind_Ok; [exact Hs0|].
    destruct (is_available s); simpl; [|apply safe_Ok].
    destruct (user_position scenario users_contiguous (user_i + 1))
      as [user_pos Hup]; [lia|].
    destruct (sat_position scenario sats_contiguous sat_id)
      as [sat_pos Hsp]; [lia|].
    eapply safe_bind_Ok; [exact Hup|]. eapply safe_bind_Ok; [exact Hsp|].
    apply safe_bind; [apply safe_calculate_angle_degrees|]. intros angle _.
    destruct (PrimFloat.ltb angle _); [|apply safe_Ok].
    destruct (setcell_in_range n_users n_cols v user_i
                ((sat_id - 1) * colors_per_satellite + color_i)
                UNAVAILIBLE Hshape) as [v1 Hv1]; [lia| |].
    { unfold colors_per_satellite in *. lia. }
    rewrite Hv1. apply safe_Ok.
Qed.

Lemma update_visibility_user_shape (pos : Vector3) (full : bool)
    (sat_id color_i : Z) (v v' : matrix) (user_i : Z) :
  shaped n_users n_cols v -> 0 <= user_i -> 1 <= sat_id -> 0 <= color_i ->
  update_visibility_user acos scenario pos full sat_id color_i v user_i
    = Ok v' ->
  shaped n_users n_cols v'.
Proof.
  intros Hshape Hu Hs Hc H. eapply evolves_shaped; [|exact Hshape].
  destruct full.
  - destruct (update_visibility_user_full acos scenario pos sat_id color_i
                v v' user_i Hu Hs H) as [He _].
    exact He.
  - unfold update_visibility_user in H.
    fold (column sat_id color_i) in H. inv_ok.
    assert (Hcell : getcell v user_i (column sat_id color_i) = Ok a0).
    { unfold getcell. apply bind_Ok. eauto. }
    destruct (is_available a0) eqn:Hav; simpl in H.
    + apply is_available_true in Hav as ->. inv_ok.
      match type of H with (if ?b then _ else _) = _ => destruct b end.
      * eapply setcell_evolves; eauto. constructor.
      * injection H as <-. reflexivity.
    + injection H as <-. reflexivity.
Qed.

Lemma safe_update_visibility (v : matrix)
    (target_user_i sat_id color_i beam_i : Z) :
  shaped n_users n_cols v -> 0 <= target_user_i < Z.of_nat n_users ->
  1 <= sat_id <= Z.of_nat n_sats -> 0 <= color_i < colors_per_satellite ->
  safe (update_visibility acos v scenario target_user_i sat_id color_i
          beam_i).
Proof using users_contiguous sats_contiguous.
  intros Hshape Hu Hs Hc. unfold update_visibility, set_user_beam.
  destruct (setcell_in_range n_users n_cols v target_user_i
              ((sat_id - 1) * colors_per_satellite + color_i) IN_USE Hshape)
    as [v1 Hv1]; [lia| |].
  { unfold colors_per_satellite in *. lia. }
  eapply safe_bind_Ok; [exact Hv1|].
  pose proof (setcell_keeps_shape _ _ _ _ _ _ _ Hshape Hv1) as Hshape1.
  destruct (user_position scenario users_contiguous (target_user_i + 1))
    as [pos Hpos]; [lia|].
  eapply safe_bind_Ok; [exact Hpos|].
  destruct (getitem_in_range v1 0) as [row0 Hrow0].
  { destruct Hshape1 as [-> _]. lia. }
  eapply safe_bind_Ok; [exact Hrow0|].
  apply (safe_foldM (shaped n_users n_cols)); [exact Hshape1|].
  intros v0 user_i Hi Hv0. apply In_range in Hi.
  destruct Hshape1 as [Hlen1 _]. split.
  - apply safe_update_visibility_user; auto; lia.
  - intros v'. apply update_visibility_user_shape; auto; lia.
Qed.

Lemma safe_solve_user (v : matrix) (sol : solution) (user_i : Z) :
  shaped n_users n_cols v -> 0 <= user_i < Z.of_nat n_users ->
  safe (solve_user acos scenario n_cols (v, sol) user_i).
Proof using users_contiguous sats_contiguous.
  intros Hshape Hu. unfold solve_user.
  destruct (getitem_in_range v user_i) as [row Hrow].
  { destruct Hshape as [-> _]. exact Hu. }
  eapply safe_bind_Ok; [exact Hrow|].
  destruct (first_available_total v user_i n_cols 0) as [found Hfound];
    [lia|lia| |].
  { intros c Hc. apply (shaped_cell n_users n_cols); auto; lia. }
  unfold range. eapply safe_bind_Ok; [exact Hfound|].
  apply first_available_spec in Hfound; [|lia|lia].
  destruct found as [c|]; [|apply safe_Ok].
  destruct Hfound as (Hc & _ & _). unfold append_beam. simpl.
  apply safe_bind; [|intros v' _; apply safe_Ok].
  apply safe_update_visibility; auto.
  - unfold colors_per_satellite in *.
    pose proof (Z.div_pos c 4). 
    assert (c / 4 < Z.of_nat n_sats) by (apply Z.div_lt_upper_bound; lia).
    lia.
  - apply Z.mod_pos_bound. reflexivity.
Qed.

(** With a user at least, and identifiers 1, 2, ..., the scheduler ends
    well or with an exception of the geometry. *)
Lemma safe_schedule :
  (0 < n_users)%nat -> safe (schedule acos scenario).
Proof using users_contiguous sats_contiguous.
  intros HU. unfold schedule.
  destruct (safe_generate_visibility_matrix acos scenario users_contiguous
              sats_contiguous) as [Hsafe Hshape].
  
  apply safe_bind; [exact Hsafe|]. intros v Hv. apply Hshape in Hv.
  unfold greedy_solver.
  destruct (getitem_in_range v 0) as [row0 Hrow0].
  { destruct Hv as [-> _]. lia. }
  eapply safe_bind_Ok; [exact Hrow0|].
  assert (Hlen : length row0 = n_cols).
  { apply getitem_nonneg in Hrow0; [|lia]. destruct Hv as [_ Hrows].
    apply (Forall_lookup_1 _ _ _ _ Hrows Hrow0). }
  rewrite Hlen. unfold solve_users.
  apply (safe_foldM (fun st => shaped n_users n_cols st.1)); [exact Hv|].
  intros [v1 sol1] user_i Hi Hv1. apply In_range in Hi. simpl in Hv1.
  destruct Hv as [Hlenv _]. split.
  - apply safe_solve_user; auto. lia.
  - intros [v2 sol2] Hstep. simpl.
    eapply evolves_shaped; [|exact Hv1].
    eapply solve_user_evolves; [|exact Hstep]. lia.
Qed.

End SafeSolver.

(** ** The scheduler *)

(** The scheduler is the loop over all the users, on the matrix as it was
    built, scanning as many columns as the first row has. *)
Lemma schedule_Ok (acos : float -> float) (scenario : Scenario)
    (v' : matrix) (sol' : solution) :
  schedule acos scenario = Ok (v', sol') <->
  exists v row0,
    generate_visibility_matrix acos scenario = Ok v /\
    PyList.getitem v 0 = Ok row0 /\
    solve_users acos scenario (length row0) v (length v) = Ok (v', sol').
Proof.
  unfold schedule, greedy_solver. split.
  - intros H. inv_ok. eauto.
  - intros (v & row0 & Hv & Hrow0 & H). rewrite Hv. simpl. rewrite Hrow0.
    exact H.
Qed.

(** C1. Two beams of the same satellite and color: the angle at the
    satellite between their users is computed and is at least
    [self_interference_max], whenever the scheduler ends with an
    assignment.  The arc cosine is assumed to give a number on [[-1, 1]]. *)
Theorem same_color_beams_apart (acos : float -> float) (scenario : Scenario)
    (v : matrix) (sol : solution) (sat_id : Z) (i j : nat)
    (user1 user2 color_i : Z) :
  (forall x, PrimFloat.leb (-1)%float x = true ->
             PrimFloat.leb x 1%float = true ->
             PrimFloat.is_nan (PyFloat.degrees (acos x)) = false) ->
  schedule acos scenario = Ok (v, sol) ->
  i <> j ->
  beams_of sol sat_id !! i = Some (user1, color_i) ->
  beams_of sol sat_id !! j = Some (user2, color_i) ->
  exists sat_pos pos1 pos2 angle,
    PyDict.getitem (sats scenario) (PyStr.str sat_id) = Ok sat_pos /\
    PyDict.getitem (users scenario) (PyStr.str user1) = Ok pos1 /\
    PyDict.getitem (users scenario) (PyStr.str user2) = Ok pos2 /\
    calculate_angle_degrees acos sat_pos pos1 pos2 = Ok angle /\
    PrimFloat.leb self_interference_max angle = true.
Proof.
  intros Hacos H Hij Hi Hj.
  apply schedule_Ok in H as (v0 & row0 & _ & _ & H).
  apply solve_users_clear in H as [Hpairs _].
  assert (Hclear : clear_of acos scenario sat_id user1 user2 \/
                   clear_of acos scenario sat_id user2 user1).
  { destruct (Nat.lt_total i j) as [Hlt|[Heq|Hlt]]; [left|lia|right]; eauto. }
  assert (Hangle : forall sat_pos pos1 pos2 angle,
            calculate_angle_degrees acos sat_pos pos1 pos2 = Ok angle ->
            PrimFloat.ltb angle self_interference_max = false ->
            PrimFloat.leb self_interference_max angle = true).
  { intros sat_pos pos1 pos2 angle Hcalc Hlt.
    apply ltb_false_leb; [|reflexivity|exact Hlt].
    apply calculate_angle_degrees_value in Hcalc as (x & Hlo & Hhi & ->).
    auto. }
  destruct Hclear as [Hc|Hc];
    destruct Hc as (sat_pos & p1 & p2 & angle & Hs & H1 & H2 & Hcalc & Hlt).
  - exists sat_pos, p1, p2, angle. eauto 10.
  - exists sat_pos, p2, p1, angle.
    apply calculate_angle_degrees_sym in Hcalc. eauto 10.
Qed.

Lemma same_color_beams_apart_witness :
  exists sat_pos pos1 pos2 angle,
    PyDict.getitem (sats demo_scenario) (PyStr.str 1) = Ok sat_pos /\
    PyDict.getitem (users demo_scenario) (PyStr.str 8) = Ok pos1 /\
    PyDict.getitem (users demo_scenario) (PyStr.str 3) = Ok pos2 /\
    calculate_angle_degrees acos_by_thresholds sat_pos pos1 pos2 = Ok angle /\
    PrimFloat.leb self_interference_max angle = true.
Proof.
  eapply (same_color_beams_apart acos_by_thresholds demo_scenario _ _ 1
            7%nat 2%nat 8 3 0).
  - intros x _ _. apply acos_by_thresholds_number.
  - vm_compute. reflexivity.
  - discriminate.
  - vm_compute. reflexivity.
  - vm_compute. reflexivity.
Defined.

(** C2. Capacity: at every point of the scheduler's loop no satellite has
    more than [beams_per_satellite] beams; a satellite that has as many has
    no available cell left, for any user and any color, and has the same
    beams at every later point of the loop. *)
Theorem beam_capacity (acos : float -> float) (scenario : Scenario)
    (num_sat_beam : nat) (v : matrix) (j k : nat) (vj vk : matrix)
    (solj solk : solution) (sat_id : Z) :
  (j <= k)%nat ->
  solve_users acos scenario num_sat_beam v j = Ok (vj, solj) ->
  solve_users acos scenario num_sat_beam v k = Ok (vk, solk) ->
  Z.of_nat (length (beams_of solk sat_id)) <= beams_per_satellite /\
  (Z.of_nat (length (beams_of solj sat_id)) = beams_per_satellite ->
   sat_closed vj sat_id /\ beams_of solk sat_id = beams_of solj sat_id).
Proof.
  intros Hjk Hj Hk. split.
  - eapply solve_users_capacity; eauto.
  - intros Hfull. split.
    + eapply solve_users_capacity; eauto.
    + eapply solve_users_saturated; eauto.
Qed.

Lemma demo_matrix_generated :
  generate_visibility_matrix acos_by_thresholds demo_scenario
    = Ok demo_matrix.
Proof. vm_compute. reflexivity. Qed.

Lemma beam_capacity_witness :
  exists vj solj vk solk,
    solve_users acos_by_thresholds demo_scenario 4 demo_matrix 32
      = Ok (vj, solj) /\
    solve_users acos_by_thresholds demo_scenario 4 demo_matrix 33
      = Ok (vk, solk) /\
    Z.of_nat (length (beams_of solj 1)) = beams_per_satellite /\
    sat_closed vj 1 /\ beams_of solk 1 = beams_of solj 1.
Proof.
  do 4 eexists.
  split; [vm_compute; reflexivity|].
  split; [vm_compute; reflexivity|].
  split; [vm_compute; reflexivity|].
  apply (proj2 (beam_capacity acos_by_thresholds demo_scenario 4
                  demo_matrix 32 33 _ _ _ _ 1
                  ltac:(lia) ltac:(vm_compute; reflexivity)
                  ltac:(vm_compute; reflexivity))).
  vm_compute. reflexivity.
Defined.

(** The pass over a user who has no available cell ends well and changes
    nothing. *)
Lemma solve_user_none (acos : float -> float) (scenario : Scenario)
    (num_sat_beam : nat) (v : matrix) (sol : solution) (k : nat) :
  (forall c, (c < num_sat_beam)%nat ->
             exists s, cell v k c = Some s /\ s <> AVAILIBLE) ->
  (k < length v)%nat ->
  solve_user acos scenario num_sat_beam (v, sol) (Z.of_nat k) = Ok (v, sol).
Proof.
  intros Hcells Hk. unfold solve_user.
  destruct (lookup_lt_is_Some_2 v k Hk) as [row Hrow].
  assert (Hget : PyList.getitem v (Z.of_nat k) = Ok row).
  { apply getitem_nonneg; [lia|]. rewrite Nat2Z.id. exact Hrow. }
  rewrite Hget. simpl.
  destruct (first_available_total v (Z.of_nat k) num_sat_beam 0)
    as [found Hfound]; [lia|lia| |].
  { intros c Hc. rewrite Nat2Z.id.
    destruct (Hcells (Z.to_nat c)) as (s & Hs & _); [lia|].
    rewrite Hs. eauto. }
  unfold range. rewrite Hfound. simpl.
  apply first_available_spec in Hfound; [|lia|lia].
  destruct found as [c|]; [|reflexivity].
  destruct Hfound as (Hc & Hav & _). rewrite Nat2Z.id in Hav.
  destruct (Hcells (Z.to_nat c)) as (s & Hs & Hne); [lia|]. congruence.
Qed.

(** C4. The scheduler takes the users in the order of their numbers
    (after [k] passes the beams are those of users 1 to [k], in that order
    on every satellite) and gives a user at most one beam.  The pass over
    the next user scans the columns in order, satellite first and color
    second: without an available cell it ends well and changes nothing;
    otherwise it takes the first available cell, which becomes [IN_USE], and
    appends the user and the color to the beams of the cell's satellite, so
    that the new beam's number is the new length of the list. *)
Theorem greedy_first_fit (acos : float -> float) (scenario : Scenario)
    (num_sat_beam : nat) (v : matrix) (k : nat) (v1 : matrix)
    (sol1 : solution) :
  solve_users acos scenario num_sat_beam v k = Ok (v1, sol1) ->
  (forall sat_id (i : nat) user color_i,
     beams_of sol1 sat_id !! i = Some (user, color_i) ->
     1 <= user <= Z.of_nat k) /\
  (forall sat_id (i j : nat) user1 user2 color1 color2,
     (i < j)%nat ->
     beams_of sol1 sat_id !! i = Some (user1, color1) ->
     beams_of sol1 sat_id !! j = Some (user2, color2) ->
     user1 < user2) /\
  (forall sat_id sat_id' (i i' : nat) user color_i color_i',
     beams_of sol1 sat_id !! i = Some (user, color_i) ->
     beams_of sol1 sat_id' !! i' = Some (user, color_i') ->
     sat_id = sat_id' /\ i = i') /\
  ((k < length v1)%nat ->
   (forall c, (c < num_sat_beam)%nat ->
              exists s, cell v1 k c = Some s /\ s <> AVAILIBLE) ->
   solve_user acos scenario num_sat_beam (v1, sol1) (Z.of_nat k)
     = Ok (v1, sol1)) /\
  (forall v2 sol2,
     solve_user acos scenario num_sat_beam (v1, sol1) (Z.of_nat k)
       = Ok (v2, sol2) ->
     (v2 = v1 /\ sol2 = sol1 /\
      forall c, (c < num_sat_beam)%nat -> cell v1 k c <> Some AVAILIBLE)
     \/
     exists sat_id color_i,
       1 <= sat_id /\ 0 <= color_i < colors_per_satellite /\
       column sat_id color_i < Z.of_nat num_sat_beam /\
       cell v1 k (Z.to_nat (column sat_id color_i)) = Some AVAILIBLE /\
       (forall sat_id' color_i',
          1 <= sat_id' -> 0 <= color_i' < colors_per_satellite ->
          cell v1 k (Z.to_nat (column sat_id' color_i')) = Some AVAILIBLE ->
          sat_id < sat_id' \/ sat_id = sat_id' /\ color_i <= color_i') /\
       cell v2 k (Z.to_nat (column sat_id color_i)) = Some IN_USE /\
       beams_of sol2 sat_id
         = (beams_of sol1 sat_id ++ [(Z.of_nat k + 1, color_i)])%list /\
       beams_of sol2 sat_id
         !! (length (beams_of sol2 sat_id) - 1)%nat
         = Some (Z.of_nat k + 1, color_i) /\
       forall sat_id', sat_id' <> sat_id ->
                       beams_of sol2 sat_id' = beams_of sol1 sat_id').
Proof.
  intros H. destruct (solve_users_beams _ _ _ _ _ _ _ H) as (Ha & Hb & Hc).
  split; [intros sat i u c Hi; apply Ha in Hi; tauto|].
  split; [exact Hc|]. split; [exact Hb|].
  split; [intros Hk Hcells; apply solve_user_none; auto|].
  intros v2 sol2 Hstep. apply solve_user_cases in Hstep; [|lia].
  rewrite Nat2Z.id in Hstep.
  destruct Hstep as [(-> & -> & Hnone)|(sat_id & color_i & Hstep)].
  - left. repeat split; auto. intros c Hlt.
    specialize (Hnone (Z.of_nat c)). rewrite Nat2Z.id in Hnone.
    apply Hnone. lia.
  - right. exists sat_id, color_i. simpl in Hstep.
    destruct Hstep
      as (Hsat & Hcolor & Hcol & Hav & Hfirst & -> & _ & Hin_use & _ & _).
    rewrite !beams_of_setitem, decide_True by reflexivity.
    repeat split; auto; try lia.
    + intros sat' color' Hsat' Hcolor' Hav'.
      destruct (Z.lt_ge_cases (column sat' color') (column sat_id color_i))
        as [Hlt|Hge].
      * exfalso. apply (Hfirst (column sat' color')); [|exact Hav'].
        unfold column, colors_per_satellite in *. lia.
      * unfold column, colors_per_satellite in *. lia.
    + rewrite length_app. simpl. rewrite lookup_app_r by lia.
      replace (length (beams_of sol1 sat_id) + 1 - 1
               - length (beams_of sol1 sat_id))%nat with 0%nat by lia.
      reflexivity.
    + intros sat' Hne. rewrite beams_of_setitem, decide_False by congruence.
      reflexivity.
Qed.

Lemma greedy_first_fit_witness :
  exists v1 sol1,
    solve_users acos_by_thresholds demo_scenario 4 demo_matrix 32
      = Ok (v1, sol1) /\
    solve_user acos_by_thresholds demo_scenario 4 (v1, sol1) 32
      = Ok (v1, sol1).
Proof.
  do 2 eexists. split; [vm_compute; reflexivity|].
  apply (proj1 (proj2 (proj2 (proj2
           (greedy_first_fit acos_by_thresholds demo_scenario 4 demo_matrix
              32 _ _ ltac:(vm_compute; reflexivity)))))).
  - vm_compute. lia.
  - intros c Hc.
    destruct c as [|[|[|[|c]]]]; [| | | |lia];
      (eexists; split; [vm_compute; reflexivity|discriminate]).
Defined.

(** The pass over a user who finds a cell, run on the demonstration
    scenario: the ninth user is too close to the first for color A and takes
    color B. *)
Example ninth_user_takes_B :
  exists v1 sol1 v2 sol2,
    solve_users acos_by_thresholds demo_scenario 4 demo_matrix 8
      = Ok (v1, sol1) /\
    solve_user acos_by_thresholds demo_scenario 4 (v1, sol1) 8
      = Ok (v2, sol2) /\
    cell v1 8 0 = Some UNAVAILIBLE /\ cell v1 8 1 = Some AVAILIBLE /\
    cell v2 8 1 = Some IN_USE /\
    beams_of sol2 1 = (beams_of sol1 1 ++ [(9, 1)])%list.
Proof.
  do 4 eexists.
  do 5 (split; [vm_compute; reflexivity|]). vm_compute. reflexivity.
Qed.

(** C6, as the code has it.  From the matrix the scheduler starts with to
    any later point of its loop, and between any two points of the loop, a
    cell changes only by leaving [AVAILIBLE], for [IN_USE] or for
    [UNAVAILIBLE]: a cell that is not available keeps its state, and no
    cell becomes available. *)
Theorem scheduling_leaves_available (acos : float -> float)
    (scenario : Scenario) (num_sat_beam : nat) (v : matrix) (j k : nat)
    (vj vk : matrix) (solj solk : solution) :
  (j <= k)%nat ->
  solve_users acos scenario num_sat_beam v j = Ok (vj, solj) ->
  solve_users acos scenario num_sat_beam v k = Ok (vk, solk) ->
  evolves v vj /\ evolves vj vk /\
  (forall r c s, cell vj r c = Some s -> s <> AVAILIBLE ->
                 cell vk r c = Some s) /\
  (forall r c, cell vk r c = Some AVAILIBLE -> cell vj r c = Some AVAILIBLE).
Proof.
  intros Hjk Hj Hk.
  assert (H0 : solve_users acos scenario num_sat_beam v 0 = Ok (v, []))
    by reflexivity.
  assert (He : evolves vj vk) by (eapply solve_users_evolves; eauto).
  split; [eapply (solve_users_evolves _ _ _ v 0 j); eauto; lia|].
  split; [exact He|]. split.
  - intros r c s. apply evolves_terminal. exact He.
  - intros r c. apply evolves_available. exact He.
Qed.

Lemma scheduling_leaves_available_witness :
  exists vj solj vk solk,
    solve_users acos_by_thresholds demo_scenario 4 demo_matrix 8
      = Ok (vj, solj) /\
    solve_users acos_by_thresholds demo_scenario 4 demo_matrix 33
      = Ok (vk, solk) /\
    evolves demo_matrix vj /\ evolves vj vk.
Proof.
  do 4 eexists.
  split; [vm_compute; reflexivity|].
  split; [vm_compute; reflexivity|].
  pose proof (scheduling_leaves_available acos_by_thresholds demo_scenario 4
                demo_matrix 8 33 _ _ _ _
                ltac:(lia) ltac:(vm_compute; reflexivity)
                ltac:(vm_compute; reflexivity)) as H.
  split; apply H.
Defined.

(** C6 as stated fails during the construction of the matrix: the cells are
    allocated [UNAVAILIBLE] and those of a visible satellite are then
    written [AVAILIBLE]. *)
Lemma construction_writes_available :
  ~ (forall acos scenario v,
       generate_visibility_matrix acos scenario = Ok v ->
       evolves (blank_matrix scenario) v).
Proof.
  intros H.
  specialize (H acos_by_thresholds
                (mkScenario [("1", mkVector3 0 0 42164)]
                            [("1", mkVector3 0 0 6371)] [])
                [[AVAILIBLE; AVAILIBLE; AVAILIBLE; AVAILIBLE]]
                ltac:(vm_compute; reflexivity)).
  apply (evolves_available _ _ 0 0) in H; [|reflexivity].
  vm_compute in H. discriminate H.
Qed.

Section AngleFailures.

Variable acos : float -> float.

Lemma magnitude_raises (vertex point : Vector3) (e : exn) :
  magnitude vertex point = Raise e -> e = OverflowError.
Proof.
  unfold magnitude. intros H.
  repeat match type of H with
         | PyFloat.pow2 ?x ≫= _ = Raise _ =>
           let r := fresh "r" in
           let Hr := fresh "Hr" in
           destruct (PyFloat.pow2 x) as [r|] eqn:Hr; simpl in H;
           [|injection H as <-; eapply pow2_raises; eauto]
         end.
  erewrite sqrt_sum_of_squares in H by eauto. discriminate H.
Qed.

(** A point with finite coordinates is at distance zero from itself. *)
Lemma magnitude_coincide (vertex point : Vector3) :
  finite_vector vertex = true -> finite_vector point = true ->
  coincide vertex point = true ->
  magnitude vertex point = Ok 0%float.
Proof.
  unfold finite_vector, coincide, magnitude. intros Hv Hp Hc.
  repeat match goal with
         | H : _ && _ = true |- _ => apply andb_true_iff in H as [? ?]
         end.
  rewrite !pow2_zero by (apply sub_eq_zero; auto). simpl.
  apply sqrt_zero.
Qed.

(** The angle, in terms of the two lengths. *)
Lemma calculate_angle_degrees_magnitudes (vertex a b : Vector3) :
  calculate_angle_degrees acos vertex a b =
  va_mag ← magnitude vertex a;
  vb_mag ← magnitude vertex b;
  nax ← PyFloat.truediv (vx a - vx vertex) va_mag;
  nay ← PyFloat.truediv (vy a - vy vertex) va_mag;
  naz ← PyFloat.truediv (vz a - vz vertex) va_mag;
  nbx ← PyFloat.truediv (vx b - vx vertex) vb_mag;
  nby ← PyFloat.truediv (vy b - vy vertex) vb_mag;
  nbz ← PyFloat.truediv (vz b - vz vertex) vb_mag;
  a ← py_acos acos
        (PyFloat.min 1%float
           (PyFloat.max (-1)%float (nax * nbx + nay * nby + naz * nbz)));
  Ok (PyFloat.degrees a).
Proof.
  unfold calculate_angle_degrees, magnitude. simpl.
  repeat match goal with
         | |- context [PyFloat.pow2 ?x ≫= _] =>
           destruct (PyFloat.pow2 x); simpl; [|reflexivity]
         | |- context [PyFloat.sqrt ?x ≫= _] =>
           destruct (PyFloat.sqrt x); simpl; [|reflexivity]
         end.
  reflexivity.
Qed.

(** The angle is returned exactly when the two lengths are computed and
    are not zero. *)
Lemma calculate_angle_degrees_is_ok (vertex a b : Vector3) :
  is_ok (calculate_angle_degrees acos vertex a b) = true <->
  exists va_mag vb_mag,
    magnitude vertex a = Ok va_mag /\ magnitude vertex b = Ok vb_mag /\
    PrimFloat.eqb va_mag 0 = false /\ PrimFloat.eqb vb_mag 0 = false.
Proof.
  rewrite calculate_angle_degrees_magnitudes. split.
  - destruct (magnitude vertex a) as [ma|]; simpl; [|discriminate].
    destruct (magnitude vertex b) as [mb|]; simpl; [|discriminate].
    unfold PyFloat.truediv.
    destruct (PrimFloat.eqb ma 0) eqn:Ha; simpl; [discriminate|].
    destruct (PrimFloat.eqb mb 0) eqn:Hb; simpl; [discriminate|].
    intros _. exists ma, mb. auto.
  - intros (ma & mb & -> & -> & Ha & Hb). simpl.
    unfold PyFloat.truediv. rewrite Ha, Hb. simpl.
    rewrite py_acos_bound. reflexivity.
Qed.

End AngleFailures.

(** The value returned, from the two lengths: the arc cosine, in degrees,
    of the dot product of the two directions divided by their lengths,
    bounded to -1 and 1.  A dot product that is a NaN is bounded to -1. *)
Lemma calculate_angle_degrees_Ok (acos : float -> float)
    (vertex a b : Vector3) (angle : float) :
  calculate_angle_degrees acos vertex a b = Ok angle ->
  exists va_mag vb_mag dot_product,
    magnitude vertex a = Ok va_mag /\ magnitude vertex b = Ok vb_mag /\
    dot_product =
      ((vx a - vx vertex) / va_mag * ((vx b - vx vertex) / vb_mag)
       + (vy a - vy vertex) / va_mag * ((vy b - vy vertex) / vb_mag)
       + (vz a - vz vertex) / va_mag * ((vz b - vz vertex) / vb_mag))%float /\
    angle = PyFloat.degrees
              (acos (PyFloat.min 1%float
                       (PyFloat.max (-1)%float dot_product))) /\
    (PrimFloat.is_nan dot_product = true ->
     angle = PyFloat.degrees (acos (-1)%float)).
Proof.
  rewrite calculate_angle_degrees_magnitudes. intros H.
  destruct (magnitude vertex a) as [ma|] eqn:Hma; [|discriminate H].
  destruct (magnitude vertex b) as [mb|] eqn:Hmb; [|discriminate H].
  simpl in H.
  repeat match type of H with
         | PyFloat.truediv ?x ?y ≫= _ = Ok _ =>
           let r := fresh "r" in
           let Hr := fresh "Hr" in
           destruct (PyFloat.truediv x y) as [r|] eqn:Hr;
           [apply truediv_Ok in Hr as [_ ->]; simpl in H|discriminate H]
         end.
  rewrite py_acos_bound in H. simpl in H. injection H as <-.
  eexists ma, mb, _. split; [reflexivity|]. split; [reflexivity|].
  split; [reflexivity|]. split; [reflexivity|].
  intros Hnan. do 2 f_equal.
  assert (Hmax : forall d, PrimFloat.is_nan d = true ->
                           PyFloat.max (-1)%float d = (-1)%float).
  { intros d Hd. apply is_nan_true in Hd. unfold PyFloat.max.
    rewrite FloatAxioms.ltb_spec, Hd. unfold SFltb.
    destruct (Prim2SF (-1)); reflexivity. }
  rewrite Hmax by exact Hnan. reflexivity.
Qed.

(** C9, as the code has it.  With finite coordinates the angle fails, by
    [ZeroDivisionError] or [OverflowError], whenever the vertex coincides
    with [a] or with [b].  For all inputs, finite or not, it fails in these
    two ways only; it returns exactly when both directions have a computed
    length (no square overflows) that is not zero; and what it returns is
    the arc cosine, in degrees, of the dot product of the two directions
    divided by their lengths, bounded to -1 and 1.  The bound is between -1
    and 1 whatever the dot product is, and is -1 when the dot product is a
    NaN: the angle is then the one of -1, never a NaN taken from the dot
    product. *)
Theorem angle_fails_at_vertex (acos : float -> float) (vertex a b : Vector3) :
  (finite_vector vertex = true -> finite_vector a = true ->
   finite_vector b = true ->
   coincide vertex a = true \/ coincide vertex b = true ->
   exists e, calculate_angle_degrees acos vertex a b = Raise e) /\
  (forall e, calculate_angle_degrees acos vertex a b = Raise e ->
             e = ZeroDivisionError \/ e = OverflowError) /\
  (is_ok (calculate_angle_degrees acos vertex a b) = true <->
   exists va_mag vb_mag,
     magnitude vertex a = Ok va_mag /\ magnitude vertex b = Ok vb_mag /\
     PrimFloat.eqb va_mag 0 = false /\ PrimFloat.eqb vb_mag 0 = false) /\
  (forall angle,
     calculate_angle_degrees acos vertex a b = Ok angle ->
     exists va_mag vb_mag dot_product,
       magnitude vertex a = Ok va_mag /\ magnitude vertex b = Ok vb_mag /\
       dot_product =
         ((vx a - vx vertex) / va_mag * ((vx b - vx vertex) / vb_mag)
          + (vy a - vy vertex) / va_mag * ((vy b - vy vertex) / vb_mag)
          + (vz a - vz vertex) / va_mag * ((vz b - vz vertex) / vb_mag))%float
       /\
       angle = PyFloat.degrees
                 (acos (PyFloat.min 1%float
                          (PyFloat.max (-1)%float dot_product))) /\
       PrimFloat.leb (-1)%float
         (PyFloat.min 1%float (PyFloat.max (-1)%float dot_product)) = true /\
       PrimFloat.leb
         (PyFloat.min 1%float (PyFloat.max (-1)%float dot_product)) 1%float
         = true /\
       (PrimFloat.is_nan dot_product = true ->
        angle = PyFloat.degrees (acos (-1)%float))).
Proof.
  split; [|split; [|split]].
  - intros Hv Ha Hb Hc.
    destruct (calculate_angle_degrees acos vertex a b) as [angle|e] eqn:H;
      [|eauto].
    exfalso.
    assert (Hok : is_ok (calculate_angle_degrees acos vertex a b) = true)
      by (rewrite H; reflexivity).
    apply calculate_angle_degrees_is_ok
      in Hok as (ma & mb & Hma & Hmb & Hza & Hzb).
    destruct Hc as [Hc|Hc].
    + rewrite magnitude_coincide in Hma by auto. injection Hma as <-.
      discriminate Hza.
    + rewrite magnitude_coincide in Hmb by auto. injection Hmb as <-.
      discriminate Hzb.
  - apply calculate_angle_degrees_raises.
  - apply calculate_angle_degrees_is_ok.
  - intros angle H.
    apply calculate_angle_degrees_Ok in H
      as (ma & mb & dot & Hma & Hmb & Hdot & Hangle & Hnan).
    exists ma, mb, dot.
    destruct (bound_in_domain dot) as [Hlo Hhi]. auto 10.
Qed.

Lemma angle_fails_at_vertex_witness :
  exists e,
    calculate_angle_degrees acos_by_thresholds (mkVector3 1 2 3)
      (mkVector3 1 2 3) (mkVector3 4 5 6) = Raise e.
Proof.
  apply (proj1 (angle_fails_at_vertex acos_by_thresholds (mkVector3 1 2 3)
                  (mkVector3 1 2 3) (mkVector3 4 5 6))); try reflexivity.
  left. reflexivity.
Defined.

(** C9 as stated fails in both directions.  A direction that is not zero
    can have a computed length of zero, its squares being too small, and the
    angle then fails though the vertex is neither [a] nor [b]. *)
Lemma angle_fails_away_from_vertex :
  ~ (forall acos vertex a b,
       is_ok (calculate_angle_degrees acos vertex a b) = false <->
       coincide vertex a = true \/ coincide vertex b = true).
Proof.
  intros H.
  destruct (H acos_by_thresholds (mkVector3 0 0 0)
              (mkVector3 0x1p-600 0 0) (mkVector3 1 0 0)) as [H1 _].
  destruct (H1 ltac:(reflexivity)) as [Hc|Hc]; vm_compute in Hc;
    discriminate Hc.
Qed.

(** And a vertex at infinity coincides with itself, the direction is a NaN
    and not zero, no division fails, and the bound turns the NaN dot product
    into -1: the angle returned is 180 degrees. *)
Example angle_of_infinite_vertex (acos : float -> float) :
  coincide (mkVector3 infinity 0 0) (mkVector3 infinity 0 0) = true /\
  calculate_angle_degrees acos (mkVector3 infinity 0 0)
    (mkVector3 infinity 0 0) (mkVector3 1 0 0)
  = Ok (PyFloat.degrees (acos (-1)%float)).
Proof. split; reflexivity. Qed.

(** With finite coordinates a difference can overflow: the direction is an
    infinity, its length too, the quotient is a NaN, and the angle between
    a point and itself is returned as 180 degrees. *)
Example angle_of_overflowing_difference (acos : float -> float) :
  finite_vector (mkVector3 (-0x1p1023) 0 0) = true /\
  finite_vector (mkVector3 0x1p1023 0 0) = true /\
  calculate_angle_degrees acos (mkVector3 (-0x1p1023) 0 0)
    (mkVector3 0x1p1023 0 0) (mkVector3 0x1p1023 0 0)
  = Ok (PyFloat.degrees (acos (-1)%float)).
Proof. repeat split; reflexivity. Qed.

(** C8, as the code has it.  A line that is neither a comment nor blank
    and is malformed (not five tokens, no keyword first, or a coordinate
    that is not a number) makes the load fail: [read_scenario] answers
    failure as soon as it meets the first such line, without reading what
    follows, and [main] exits with -1 without building a matrix or printing
    an assignment.  Conversely the load succeeds on a file whose lines,
    other than comments and blank lines, are well formed and name one kind
    of object each: no line of a satellite contains the text [interferer],
    and no line of a user the text [interferer] or [sat]. *)
Theorem load_all_or_nothing (acos : float -> float)
    (float_of_string : string -> option float) (lines : list string) :
  (Exists (fun line => relevant line = true /\
                       well_formed float_of_string line = false) lines ->
   (exists scenario,
      read_scenario float_of_string lines = Ok (false, scenario)) /\
   main acos float_of_string lines = Ok (-1, "")) /\
  (forall pre line rest scenario,
     lines = (pre ++ line :: rest)%list ->
     read_scenario float_of_string pre = Ok (true, scenario) ->
     relevant line = true -> well_formed float_of_string line = false ->
     read_scenario float_of_string lines = Ok (false, scenario)) /\
  (Forall (fun line => relevant line = true ->
                       well_formed float_of_string line = true /\
                       unambiguous line = true) lines ->
   exists scenario,
     read_scenario float_of_string lines = Ok (true, scenario)).
Proof.
  split; [|split].
  - intros H.
    destruct (read_lines_failure float_of_string lines (mkScenario [] [] []) H)
      as [sc Hsc].
    split; [eauto|]. unfold main, read_scenario. rewrite Hsc. reflexivity.
  - intros pre line rest sc -> Hpre Hrel Hwf. unfold read_scenario in *.
    rewrite (read_lines_app _ _ _ _ _ Hpre).
    apply read_lines_malformed; auto.
  - intros H. apply read_lines_success. exact H.
Qed.

Lemma load_all_or_nothing_witness :
  main acos_by_thresholds float_of_integer_literal
    ["sat 1 0 0 42164"; "user 1 0 0"; "user 2 0 0 6371"] = Ok (-1, "") /\
  exists scenario,
    read_scenario float_of_integer_literal
      ["# one satellite"; "sat 1 0 0 42164"; ""; "user 1 0 0 6371"]
    = Ok (true, scenario).
Proof.
  split.
  - apply (proj1 (load_all_or_nothing acos_by_thresholds
                    float_of_integer_literal
                    ["sat 1 0 0 42164"; "user 1 0 0"; "user 2 0 0 6371"])).
    apply Exists_cons_tl, Exists_cons_hd. split; reflexivity.
  - apply (proj2 (proj2 (load_all_or_nothing acos_by_thresholds
                           float_of_integer_literal
                           ["# one satellite"; "sat 1 0 0 42164"; "";
                            "user 1 0 0 6371"]))).
    repeat constructor; try discriminate.
Defined.

(** C8 as stated fails in its converse: a line of a user whose identifier
    contains [sat] has five tokens, a keyword and three numbers, and is taken
    for the line of a satellite and refused. *)
Lemma well_formed_line_refused :
  ~ (forall float_of_string lines,
       Forall (fun line => relevant line = true ->
                           well_formed float_of_string line = true) lines ->
       exists scenario,
         read_scenario float_of_string lines = Ok (true, scenario)).
Proof.
  intros H.
  destruct (H float_of_integer_literal ["user sat1 0 0 6371"]) as [sc Hsc].
  - repeat constructor.
  - vm_compute in Hsc. discriminate Hsc.
Qed.

Section Cells.

Variable acos : float -> float.
Variable scenario : Scenario.

Lemma pair_visible_Ok (user_id sat_id : string) (visible : bool) :
  pair_visible acos scenario user_id sat_id = Ok visible ->
  exists user_pos sat_pos elevation,
    PyDict.getitem (users scenario) user_id = Ok user_pos /\
    PyDict.getitem (sats scenario) sat_id = Ok sat_pos /\
    calculate_angle_degrees acos user_pos origin sat_pos = Ok elevation /\
    (PrimFloat.leb elevation (180 - max_user_visible_angle) = true /\
     visible = false
     \/
     PrimFloat.leb elevation (180 - max_user_visible_angle) = false /\
     exists violation,
       interferer_violation acos scenario user_pos sat_pos
         (PyDict.keys (interferers scenario)) = Ok violation /\
       visible = negb violation).
Proof.
  unfold pair_visible. intros H. inv_ok.
  rename a into user_pos, a0 into sat_pos, a1 into elevation.
  exists user_pos, sat_pos, elevation. repeat (split; [assumption|]).
  destruct (PrimFloat.leb elevation _) eqn:Hleb.
  - left. split; [reflexivity|congruence].
  - right. split; [reflexivity|]. inv_ok. eauto.
Qed.

(** With contiguous identifiers the cells of a user and a satellite are in
    the user's row and the satellite's columns, and belong to no other
    pair. *)
Lemma targets_contiguous (user sat : Z) (color_i : Z) :
  1 <= user <= Z.of_nat (length (users scenario)) ->
  1 <= sat <= Z.of_nat (length (sats scenario)) ->
  0 <= color_i < colors_per_satellite ->
  targets (length (users scenario))
    (length (sats scenario) * Z.to_nat colors_per_satellite)
    (range (Z.to_nat colors_per_satellite))
    (PyStr.str user) (PyStr.str sat)
    (Z.to_nat (user - 1)) (Z.to_nat (column sat color_i)).
Proof.
  intros Hu Hs Hc. exists user, sat, color_i.
  rewrite !int_str by lia. repeat split; auto.
  - apply range_colors. exact Hc.
  - apply index_nonneg. lia.
  - apply index_nonneg. unfold column, colors_per_satellite in *. lia.
Qed.

Lemma targets_contiguous_inv (user_id sat_id : string) (user sat : Z)
    (color_i : Z) :
  ids_contiguous (users scenario) -> ids_contiguous (sats scenario) ->
  user_id ∈ PyDict.keys (users scenario) ->
  sat_id ∈ PyDict.keys (sats scenario) ->
  1 <= user -> 1 <= sat -> 0 <= color_i < colors_per_satellite ->
  targets (length (users scenario))
    (length (sats scenario) * Z.to_nat colors_per_satellite)
    (range (Z.to_nat colors_per_satellite))
    user_id sat_id
    (Z.to_nat (user - 1)) (Z.to_nat (column sat color_i)) ->
  user_id = PyStr.str user /\ sat_id = PyStr.str sat.
Proof.
  intros Hus Hss Huid Hsid Hu Hs Hc (u & s & i & Hiu & His & Hi & Hr & Hcol).
  apply ids_contiguous_key in Huid as (u' & Hu' & ->); [|exact Hus].
  apply ids_contiguous_key in Hsid as (s' & Hs' & ->); [|exact Hss].
  rewrite int_str in Hiu, His by lia.
  injection Hiu as <-. injection His as <-.
  apply range_colors in Hi.
  apply index_nonneg_inv in Hr as [Hr _]; [|lia].
  apply index_nonneg_inv in Hcol as [Hcol _];
    [|unfold colors_per_satellite in *; lia].
  assert (u' = user) as -> by lia.
  assert (Hcols : column s' i = column sat color_i).
  { unfold column, colors_per_satellite in *. lia. }
  apply column_inj in Hcols as [-> _]; auto.
Qed.

End Cells.

(** C3. With identifiers 1, 2, ... the cells of a user and a satellite,
    after the construction of the matrix, are all available or all
    unavailable; they are available exactly when the elevation angle at the
    user between the center of the earth and the satellite is above
    [180 - max_user_visible_angle] and no interferer yields an angle with
    the satellite below [non_starlink_interference_max].  The loop over the
    interferers ends at the first violation, whatever comes after it.  The
    arc cosine is assumed to give a number on [[-1, 1]]. *)
Theorem visibility_matrix_cells (acos : float -> float)
    (scenario : Scenario) (v : matrix) (user sat : Z) :
  (forall x, PrimFloat.leb (-1)%float x = true ->
             PrimFloat.leb x 1%float = true ->
             PrimFloat.is_nan (PyFloat.degrees (acos x)) = false) ->
  ids_contiguous (users scenario) -> ids_contiguous (sats scenario) ->
  generate_visibility_matrix acos scenario = Ok v ->
  1 <= user <= Z.of_nat (length (users scenario)) ->
  1 <= sat <= Z.of_nat (length (sats scenario)) ->
  exists user_pos sat_pos elevation,
    PyDict.getitem (users scenario) (PyStr.str user) = Ok user_pos /\
    PyDict.getitem (sats scenario) (PyStr.str sat) = Ok sat_pos /\
    calculate_angle_degrees acos user_pos origin sat_pos = Ok elevation /\
    ((forall color_i, 0 <= color_i < colors_per_satellite ->
                      cell v (Z.to_nat (user - 1))
                        (Z.to_nat (column sat color_i)) = Some AVAILIBLE)
     <->
     PrimFloat.ltb (180 - max_user_visible_angle) elevation = true /\
     forall interferer_id,
       interferer_id ∈ PyDict.keys (interferers scenario) ->
       ~ violates acos scenario user_pos sat_pos interferer_id) /\
    ((forall color_i, 0 <= color_i < colors_per_satellite ->
                      cell v (Z.to_nat (user - 1))
                        (Z.to_nat (column sat color_i)) = Some AVAILIBLE)
     \/
     (forall color_i, 0 <= color_i < colors_per_satellite ->
                      cell v (Z.to_nat (user - 1))
                        (Z.to_nat (column sat color_i))
                      = Some UNAVAILIBLE)) /\
    (forall pre interferer_id rest,
       interferer_violation acos scenario user_pos sat_pos pre = Ok false ->
       violates acos scenario user_pos sat_pos interferer_id ->
       interferer_violation acos scenario user_pos sat_pos
         (pre ++ interferer_id :: rest) = Ok true).
Proof.
  intros Hacos Hus Hss H Hu Hs.
  apply generate_visibility_matrix_constructed in H.
  destruct H as (Hshape & HA & HB & HC & HD & _).
  assert (Huid : PyStr.str user ∈ PyDict.keys (users scenario))
    by (apply ids_contiguous_key; eauto).
  assert (Hsid : PyStr.str sat ∈ PyDict.keys (sats scenario))
    by (apply ids_contiguous_key; eauto).
  destruct (HD _ _ (conj Huid Hsid)) as [visible Hvis].
  destruct (pair_visible_Ok _ _ _ _ _ Hvis)
    as (user_pos & sat_pos & elevation & Hup & Hsp & Helev & Hcases).
  exists user_pos, sat_pos, elevation. repeat (split; [assumption|]).
  assert (Hnumber : PrimFloat.is_nan elevation = false).
  { apply calculate_angle_degrees_value in Helev as (x & Hlo & Hhi & ->).
    auto. }
  (* the cells follow the outcome of the two checks *)
  assert (Htrue : visible = true ->
            forall color_i, 0 <= color_i < colors_per_satellite ->
              cell v (Z.to_nat (user - 1)) (Z.to_nat (column sat color_i))
              = Some AVAILIBLE).
  { intros -> color_i Hc. eapply HB; eauto.
    apply targets_contiguous; auto. }
  assert (Hfalse : visible = false ->
            forall color_i, 0 <= color_i < colors_per_satellite ->
              cell v (Z.to_nat (user - 1)) (Z.to_nat (column sat color_i))
              = Some UNAVAILIBLE).
  { intros -> color_i Hc.
    destruct (shaped_cell _ _ v (Z.to_nat (user - 1))
                (Z.to_nat (column sat color_i)) Hshape) as [s Hcell].
    { lia. }
    { unfold column, colors_per_satellite in *. lia. }
    destruct (HC _ _ _ Hcell) as [-> | ->]; [|exact Hcell].
    destruct (HA _ _ Hcell) as (uid & sid & [Hin1 Hin2] & Hv & Ht).
    apply targets_contiguous_inv in Ht as [-> ->]; auto; try lia.
    congruence. }
  split; [|split].
  - split.
    + intros Hall. destruct visible.
      * destruct Hcases as [[_ ?]|(Hleb & viol & Hviol & Hneg)];
          [discriminate|].
        split; [apply leb_false_ltb; auto|].
        destruct viol; [discriminate|].
        apply interferer_violation_false. exact Hviol.
      * specialize (Hall 0 ltac:(unfold colors_per_satellite; lia)).
        rewrite Hfalse in Hall by (auto; unfold colors_per_satellite; lia).
        discriminate.
    + intros [Hlt Hnone]. apply Htrue.
      destruct Hcases as [[Hleb _]|(Hleb & viol & Hviol & Hneg)];
        [|subst visible].
      * apply ltb_true_leb_false in Hlt. congruence.
      * destruct viol; [|reflexivity].
        apply interferer_violation_true in Hviol
          as (pre & id & rest & Hkeys & _ & Hid).
        exfalso. apply (Hnone id); [|exact Hid].
        rewrite Hkeys. apply elem_of_app. right. left.
  - destruct visible; [left|right]; auto.
  - intros pre id rest. apply interferer_violation_first.
Qed.

Lemma visibility_matrix_cells_witness :
  exists user_pos sat_pos elevation,
    PyDict.getitem (users small_scenario) (PyStr.str 1) = Ok user_pos /\
    PyDict.getitem (sats small_scenario) (PyStr.str 2) = Ok sat_pos /\
    calculate_angle_degrees acos_by_thresholds user_pos origin sat_pos
      = Ok elevation /\
    PrimFloat.ltb (180 - max_user_visible_angle) elevation = true /\
    forall color_i, 0 <= color_i < colors_per_satellite ->
      cell [[UNAVAILIBLE; UNAVAILIBLE; UNAVAILIBLE; UNAVAILIBLE;
             AVAILIBLE; AVAILIBLE; AVAILIBLE; AVAILIBLE];
            [UNAVAILIBLE; UNAVAILIBLE; UNAVAILIBLE; UNAVAILIBLE;
             UNAVAILIBLE; UNAVAILIBLE; UNAVAILIBLE; UNAVAILIBLE]]
        (Z.to_nat (1 - 1)) (Z.to_nat (column 2 color_i)) = Some AVAILIBLE.
Proof.
  destruct (visibility_matrix_cells acos_by_thresholds small_scenario
              [[UNAVAILIBLE; UNAVAILIBLE; UNAVAILIBLE; UNAVAILIBLE;
                AVAILIBLE; AVAILIBLE; AVAILIBLE; AVAILIBLE];
               [UNAVAILIBLE; UNAVAILIBLE; UNAVAILIBLE; UNAVAILIBLE;
                UNAVAILIBLE; UNAVAILIBLE; UNAVAILIBLE; UNAVAILIBLE]]
              1 2)
    as (user_pos & sat_pos & elevation & Hup & Hsp & Helev & Hiff & _).
  - intros x _ _. apply acos_by_thresholds_number.
  - vm_compute. reflexivity.
  - vm_compute. reflexivity.
  - vm_compute. reflexivity.
  - vm_compute. split; discriminate.
  - vm_compute. split; discriminate.
  - exists user_pos, sat_pos, elevation.
    repeat (split; [assumption|]).
    assert (Hall : forall color_i, 0 <= color_i < colors_per_satellite ->
              cell [[UNAVAILIBLE; UNAVAILIBLE; UNAVAILIBLE; UNAVAILIBLE;
                     AVAILIBLE; AVAILIBLE; AVAILIBLE; AVAILIBLE];
                    [UNAVAILIBLE; UNAVAILIBLE; UNAVAILIBLE; UNAVAILIBLE;
                     UNAVAILIBLE; UNAVAILIBLE; UNAVAILIBLE; UNAVAILIBLE]]
                (Z.to_nat (1 - 1)) (Z.to_nat (column 2 color_i))
              = Some AVAILIBLE).
    { intros color_i Hc. unfold colors_per_satellite in Hc.
      assert (color_i = 0 \/ color_i = 1 \/ color_i = 2 \/ color_i = 3)
        as [->|[->|[->| ->]]] by lia; reflexivity. }
    split; [apply Hiff; exact Hall|exact Hall].
Defined.

(** The first user and the first satellite of the same scenario: the
    interferer is in line with the satellite and the four cells stay
    unavailable. *)
Example interferer_blocks_pair :
  generate_visibility_matrix acos_by_thresholds small_scenario
  = Ok [[UNAVAILIBLE; UNAVAILIBLE; UNAVAILIBLE; UNAVAILIBLE;
         AVAILIBLE; AVAILIBLE; AVAILIBLE; AVAILIBLE];
        [UNAVAILIBLE; UNAVAILIBLE; UNAVAILIBLE; UNAVAILIBLE;
         UNAVAILIBLE; UNAVAILIBLE; UNAVAILIBLE; UNAVAILIBLE]] /\
  violates acos_by_thresholds small_scenario (mkVector3 0 0 6371)
    (mkVector3 0 0 42164) "1".
Proof.
  split; [vm_compute; reflexivity|].
  eexists _, _. split; [vm_compute; reflexivity|].
  split; vm_compute; reflexivity.
Qed.

(** C10. The identifiers are used as indices and as keys.  When the users
    are ["1"], ["2"], ... and the satellites likewise, the construction of
    the matrix, and with one user at least the whole scheduler, end well or
    with an exception of the geometry: no index is out of range, no key is
    missing and no identifier fails to be a number.  A scenario that loads
    and whose identifiers are not such can fail on an index or on a key: a
    single user ["2"] who sees a satellite is written in a row the matrix
    does not have, and a single user ["0"] who sees a satellite is written
    in the last row and then looked up under the key ["1"]. *)
Theorem ids_precondition (acos : float -> float) (scenario : Scenario) :
  (ids_contiguous (users scenario) -> ids_contiguous (sats scenario) ->
   (forall e, generate_visibility_matrix acos scenario = Raise e ->
              e = ZeroDivisionError \/ e = OverflowError) /\
   (users scenario <> [] ->
    forall e, schedule acos scenario = Raise e ->
              e = ZeroDivisionError \/ e = OverflowError)) /\
  (exists scenario2,
     read_scenario float_of_integer_literal
       ["sat 1 0 0 42164"; "user 2 0 0 6371"] = Ok (true, scenario2) /\
     PyDict.keys (users scenario2) = ["2"] /\
     generate_visibility_matrix acos_by_thresholds scenario2
       = Raise IndexError /\
     main acos_by_thresholds float_of_integer_literal
       ["sat 1 0 0 42164"; "user 2 0 0 6371"] = Raise IndexError) /\
  (exists scenario0,
     read_scenario float_of_integer_literal
       ["sat 1 0 0 42164"; "user 0 0 0 6371"] = Ok (true, scenario0) /\
     PyDict.keys (users scenario0) = ["0"] /\
     main acos_by_thresholds float_of_integer_literal
       ["sat 1 0 0 42164"; "user 0 0 0 6371"] = Raise KeyError).
Proof.
  split; [|split].
  - intros Hus Hss. split.
    + apply (safe_generate_visibility_matrix acos scenario Hus Hss).
    + intros Hne. apply (safe_schedule acos scenario Hus Hss).
      destruct (users scenario); [contradiction|simpl; lia].
  - eexists. split; [vm_compute; reflexivity|].
    split; [reflexivity|]. split; vm_compute; reflexivity.
  - eexists. split; [vm_compute; reflexivity|].
    split; [reflexivity|]. vm_compute. reflexivity.
Qed.

Lemma ids_precondition_witness :
  schedule acos_by_thresholds demo_scenario <> Raise IndexError /\
  schedule acos_by_thresholds demo_scenario <> Raise KeyError.
Proof.
  assert (H : forall e, schedule acos_by_thresholds demo_scenario = Raise e ->
                        e = ZeroDivisionError \/ e = OverflowError).
  { apply (proj1 (ids_precondition acos_by_thresholds demo_scenario)).
    - vm_compute. reflexivity.
    - vm_compute. reflexivity.
    - discriminate. }
  split; intros He; apply H in He; destruct He; discriminate.
Defined.

(** The precondition is what guarantees the run, not what every run
    needs: a single user ["7"] who sees no satellite is never written in the
    matrix nor looked up, and the run ends with an empty assignment. *)
Example unseen_user_runs :
  main acos_by_thresholds float_of_integer_literal
    ["sat 1 0 0 42164"; "user 7 6371 0 0"] = Ok (0, newline).
Proof. vm_compute. reflexivity. Qed.

(** ** Scenarios without users or without satellites *)

Lemma foldM_unchanged {S A : Type} (f : S -> A -> res S) (s : S)
    (l : list A) :
  (forall a, In a l -> f s a = Ok s) -> foldM f s l = Ok s.
Proof.
  induction l as [|a l IH]; intros H; simpl; [reflexivity|].
  rewrite H by (left; reflexivity). simpl. apply IH.
  intros a' Hin. apply H. right. exact Hin.
Qed.

(** Without satellites the matrix has rows without cells, every user is
    passed without a beam, and the assignment is empty. *)
Lemma no_satellites_empty_assignment (acos : float -> float)
    (us ins : PyDict.dict string Vector3) :
  us <> [] ->
  schedule acos (mkScenario [] us ins) = Ok (replicate (length us) [], []) /\
  format_solution [] = Ok newline.
Proof.
  intros Hne. split; [|reflexivity].
  unfold schedule, generate_visibility_matrix. simpl.
  rewrite foldM_unchanged by reflexivity. simpl.
  unfold greedy_solver.
  assert (Hrow : forall i, 0 <= i < Z.of_nat (length us) ->
            PyList.getitem (replicate (length us) ([] : list BeamState)) i
            = Ok []).
  { intros i Hi. apply getitem_nonneg; [lia|].
    apply lookup_replicate_2. lia. }
  rewrite Hrow by (destruct us; [contradiction|simpl; lia]). simpl.
  unfold solve_users.
  change (blank_matrix (mkScenario [] us ins))
    with (replicate (length us) ([] : list BeamState)).
  rewrite length_replicate.
  apply foldM_unchanged. intros i Hi. apply In_range in Hi.
  unfold solve_user. rewrite Hrow by exact Hi. reflexivity.
Qed.

(** C5, where the code fails.  Without users the matrix has no row, and
    the scheduler, which reads the number of columns off the first row,
    raises [IndexError]: there is no assignment, empty or not. *)
Theorem no_users_raises (acos : float -> float)
    (float_of_string : string -> option float)
    (ss ins : PyDict.dict string Vector3) :
  schedule acos (mkScenario ss [] ins) = Raise IndexError /\
  main acos float_of_string [] = Raise IndexError /\
  main acos_by_thresholds float_of_integer_literal ["sat 1 0 0 42164"]
    = Raise IndexError.
Proof. split; [reflexivity|]. split; [reflexivity|]. vm_compute. reflexivity. Qed.

(** C7. The run is a function of the scenario, and more: two runs that end
    with an assignment, on scenarios with the same satellites, users and
    interferers, give the same matrix and the same assignment, record for
    record and in the same order, and print the same text, even if the
    dictionaries of the two runs enumerate their entries in different
    orders.  Two runs on the same scenario are the case of the same
    order. *)
Theorem schedule_deterministic (acos : float -> float) (sc1 sc2 : Scenario)
    (v1 v2 : matrix) (sol1 sol2 : solution) :
  same_scenario sc1 sc2 ->
  schedule acos sc1 = Ok (v1, sol1) ->
  schedule acos sc2 = Ok (v2, sol2) ->
  v1 = v2 /\ sol1 = sol2 /\ format_solution sol1 = format_solution sol2.
Proof.
  intros Hsame H1 H2. unfold schedule in H1, H2. inv_ok.
  rename a0 into m1, a into m2.
  assert (m1 = m2) as -> by (eapply same_matrix; eauto).
  rewrite (same_greedy_solver acos sc1 sc2 Hsame) in H1.
  assert (Heq : (v1, sol1) = (v2, sol2)) by congruence.
  injection Heq as -> ->. auto.
Qed.

Lemma schedule_deterministic_witness :
  exists v1 sol1 v2 sol2,
    schedule acos_by_thresholds small_scenario = Ok (v1, sol1) /\
    schedule acos_by_thresholds
      (mkScenario (reverse (sats small_scenario))
                  (reverse (users small_scenario))
                  (interferers small_scenario))
    = Ok (v2, sol2) /\
    v1 = v2 /\ sol1 = sol2 /\
    format_solution sol1 = format_solution sol2.
Proof.
  do 4 eexists.
  split; [vm_compute; reflexivity|].
  split; [vm_compute; reflexivity|].
  apply (schedule_deterministic acos_by_thresholds small_scenario
           (mkScenario (reverse (sats small_scenario))
                       (reverse (users small_scenario))
                       (interferers small_scenario))).
  - repeat split; simpl;
      try (repeat constructor; rewrite ?elem_of_cons, ?elem_of_nil;
           intuition discriminate).
  - vm_compute. reflexivity.
  - vm_compute. reflexivity.
Defined.

(** ** What the propagation changes, cell by cell *)

Lemma closes_refl (B : nat -> nat -> Prop) (v : matrix) : closes B v v.
Proof. intros r c. left. reflexivity. Qed.

Lemma closes_trans (B : nat -> nat -> Prop) (v1 v2 v3 : matrix) :
  closes B v1 v2 -> closes B v2 v3 -> closes B v1 v3.
Proof.
  intros H12 H23 r c.
  destruct (H23 r c) as [H|(Ha & Hu & HB)], (H12 r c) as [H'|(Ha' & Hu' & HB')].
  - left. congruence.
  - right. rewrite H. auto.
  - right. rewrite <- H'. auto.
  - congruence.
Qed.

Lemma closes_weaken (B B' : nat -> nat -> Prop) (v v' : matrix) :
  (forall r c, B r c -> B' r c) -> closes B v v' -> closes B' v v'.
Proof.
  intros HB H r c. destruct (H r c) as [?|(? & ? & ?)]; [left|right]; auto.
Qed.

(** Writing a cell at indices that are not negative changes that cell and
    no other. *)
Lemma setcell_cells (v v' : matrix) (r c : Z) (x : BeamState) :
  0 <= r -> 0 <= c -> setcell v r c x = Ok v' ->
  forall r' c',
    cell v' r' c' =
    if decide (r' = Z.to_nat r /\ c' = Z.to_nat c) then Some x
    else cell v r' c'.
Proof.
  intros Hr Hc H r' c'.
  apply setcell_Ok in H as (kr & kc & row & Hkr & Hrow & Hkc & ->).
  apply index_nonneg_inv in Hkr as [-> _]; [|exact Hr].
  pose proof Hkc as Hlt. apply index_Ok in Hlt as [Hlt _].
  apply index_nonneg_inv in Hkc as [-> _]; [|exact Hc].
  apply cell_insert; assumption.
Qed.

Lemma setcell_closes (B : nat -> nat -> Prop) (v v' : matrix) (r c : Z) :
  0 <= r -> 0 <= c -> getcell v r c = Ok AVAILIBLE ->
  setcell v r c UNAVAILIBLE = Ok v' ->
  B (Z.to_nat r) (Z.to_nat c) -> closes B v v'.
Proof.
  intros Hr Hc Hav H HB r' c'.
  rewrite (setcell_cells _ _ _ _ _ Hr Hc H).
  apply getcell_nonneg in Hav; [|exact Hr|exact Hc].
  destruct (decide (r' = Z.to_nat r /\ c' = Z.to_nat c)) as [[-> ->]|];
    [right|left]; auto.
Qed.

Lemma foldM_closes {A : Type} (B : nat -> nat -> Prop)
    (f : matrix -> A -> res matrix) (l : list A) (v v' : matrix) :
  (forall a v v', In a l -> f v a = Ok v' -> closes B v v') ->
  foldM f v l = Ok v' -> closes B v v'.
Proof.
  intros Hf H.
  apply (foldM_invariant (fun v1 => closes B v v1) f l v v');
    [|apply closes_refl|exact H].
  intros v1 a v2 Hin H1 Hstep. eapply closes_trans; eauto.
Qed.

Section Effects.

Variable acos : float -> float.
Variable scenario : Scenario.

(** One pass over a user when the satellite is full. *)
Lemma update_visibility_user_full_closes (pos : Vector3)
    (sat_id color_i : Z) (v v' : matrix) (user_i : Z) :
  0 <= user_i -> 1 <= sat_id ->
  update_visibility_user acos scenario pos true sat_id color_i v user_i
    = Ok v' ->
  closes (fun r c =>
            r = Z.to_nat user_i /\
            column sat_id 0 <= Z.of_nat c
              < column sat_id colors_per_satellite) v v'.
Proof.
  intros Hu Hsat H. unfold update_visibility_user in H. inv_ok. clear Ha.
  eapply foldM_closes; [|exact H].
  intros i v0 v1 Hin Hstep. apply In_range_from in Hin.
  change (Z.to_nat colors_per_satellite) with 4%nat in Hin.
  assert (0 <= i) by (unfold colors_per_satellite in Hin; lia).
  apply bind_Ok in Hstep as (s & Hcell & Hstep).
  destruct (is_available s) eqn:Hs.
  - apply is_available_true in Hs as ->.
    apply (setcell_closes _ v0 v1 user_i i); auto. split; [reflexivity|].
    rewrite column_range. unfold column. lia.
  - injection Hstep as <-. apply closes_refl.
Qed.

(** One pass over a user when the satellite is not full. *)
Lemma update_visibility_user_clear_closes (pos : Vector3)
    (sat_id color_i : Z) (v v' : matrix) (target_user_i user_i : Z) :
  0 <= user_i -> 0 <= column sat_id color_i ->
  PyDict.getitem (users scenario) (PyStr.str (target_user_i + 1)) = Ok pos ->
  update_visibility_user acos scenario pos false sat_id color_i v user_i
    = Ok v' ->
  closes (fun r c =>
            r = Z.to_nat user_i /\ c = Z.to_nat (column sat_id color_i) /\
            too_close acos scenario sat_id (target_user_i + 1) (user_i + 1))
         v v'.
Proof.
  intros Hu Hcol Hpos H. unfold update_visibility_user in H.
  fold (column sat_id color_i) in H. inv_ok.
  rename a into user, a0 into s.
  assert (Hcell : getcell v user_i (column sat_id color_i) = Ok s).
  { unfold getcell. apply bind_Ok. eauto. }
  destruct (is_available s) eqn:Hs; simpl in H.
  - apply is_available_true in Hs as ->. inv_ok.
    rename a into user_pos, a0 into sat_pos, a1 into angle.
    destruct (PrimFloat.ltb angle self_interference_max) eqn:Hlt.
    + apply (setcell_closes _ v v' user_i (column sat_id color_i)); auto.
      split; [reflexivity|]. split; [reflexivity|].
      exists sat_pos, pos, user_pos, angle. auto.
    + injection H as <-. apply closes_refl.
  - injection H as <-. apply closes_refl.
Qed.

(** [update_visibility] writes [IN_USE] in the cell of the beam and then
    only closes cells. *)
Lemma update_visibility_cells (v v' : matrix)
    (target_user_i sat_id color_i beam_i : Z) :
  0 <= target_user_i -> 1 <= sat_id -> 0 <= color_i ->
  update_visibility acos v scenario target_user_i sat_id color_i beam_i
    = Ok v' ->
  exists v1,
    setcell v target_user_i (column sat_id color_i) IN_USE = Ok v1 /\
    closes (blocked_by acos scenario target_user_i sat_id color_i beam_i)
           v1 v'.
Proof.
  intros Ht Hsat Hcolor H. unfold update_visibility in H.
  assert (Hcol : 0 <= column sat_id color_i)
    by (unfold column, colors_per_satellite; lia).
  inv_ok. rename a into v1, a0 into pos. clear Ha1.
  unfold set_user_beam in Ha. fold (column sat_id color_i) in Ha.
  exists v1. split; [exact Ha|]. unfold blocked_by.
  destruct (beam_i =? beams_per_satellite - 1) eqn:Hfull.
  - eapply foldM_closes; [|exact H].
    intros user_i v0 v2 Hin Hstep. apply In_range in Hin.
    eapply closes_weaken;
      [|apply (update_visibility_user_full_closes pos sat_id color_i v0 v2
                 user_i); [lia|exact Hsat|exact Hstep]].
    simpl. tauto.
  - eapply foldM_closes; [|exact H].
    intros user_i v0 v2 Hin Hstep. apply In_range in Hin.
    eapply closes_weaken;
      [|apply (update_visibility_user_clear_closes pos sat_id color_i v0 v2
                 target_user_i user_i);
        [lia|exact Hcol|exact Ha0|exact Hstep]].
    simpl. intros r c (-> & -> & Hclose). split; [reflexivity|].
    rewrite Z2Nat.id by lia. exact Hclose.
Qed.

End Effects.

(** X1. What [update_visibility] does to the matrix, for a user, a
    satellite and a color that are not negative: the cell of the beam is
    [IN_USE]; every other cell keeps its state, or was [AVAILIBLE] and is
    [UNAVAILIBLE] for one of the two reasons of the function: the beam is
    the satellite's last one and the cell is in a column of the satellite,
    or the cell is in the column of the beam and its user is less than
    [self_interference_max] away from the user of the beam, seen from the
    satellite.  No cell of another satellite changes, and nothing is closed
    without one of these reasons. *)
Theorem update_visibility_effect (acos : float -> float)
    (scenario : Scenario) (v v' : matrix)
    (target_user_i sat_id color_i beam_i : Z) :
  0 <= target_user_i -> 1 <= sat_id ->
  0 <= color_i < colors_per_satellite ->
  update_visibility acos v scenario target_user_i sat_id color_i beam_i
    = Ok v' ->
  cell v' (Z.to_nat target_user_i) (Z.to_nat (column sat_id color_i))
    = Some IN_USE /\
  (forall r c,
     r <> Z.to_nat target_user_i \/ c <> Z.to_nat (column sat_id color_i) ->
     cell v' r c = cell v r c \/
     cell v r c = Some AVAILIBLE /\ cell v' r c = Some UNAVAILIBLE /\
     blocked_by acos scenario target_user_i sat_id color_i beam_i r c) /\
  (forall r c,
     ~ column sat_id 0 <= Z.of_nat c < column sat_id colors_per_satellite ->
     cell v' r c = cell v r c).
Proof.
  intros Ht Hsat [Hcolor Hcolor'] H.
  assert (Hcol : 0 <= column sat_id color_i)
    by (unfold column, colors_per_satellite; lia).
  destruct (update_visibility_cells acos scenario _ _ _ _ _ _ Ht Hsat Hcolor H)
    as (v1 & Hset & Hcl).
  pose proof (setcell_cells _ _ _ _ _ Ht Hcol Hset) as Hv1.
  assert (Hothers : forall r c,
            r <> Z.to_nat target_user_i \/
            c <> Z.to_nat (column sat_id color_i) ->
            cell v' r c = cell v r c \/
            cell v r c = Some AVAILIBLE /\ cell v' r c = Some UNAVAILIBLE /\
            blocked_by acos scenario target_user_i sat_id color_i beam_i r c).
  { intros r c Hne. specialize (Hv1 r c).
    rewrite decide_False in Hv1 by tauto. rewrite <- Hv1. apply Hcl. }
  split; [|split; [exact Hothers|]].
  - specialize (Hv1 (Z.to_nat target_user_i)
                    (Z.to_nat (column sat_id color_i))).
    rewrite decide_True in Hv1 by auto.
    destruct (Hcl (Z.to_nat target_user_i)
                  (Z.to_nat (column sat_id color_i))) as [Heq|(Hav & _)];
      congruence.
  - intros r c Hout.
    assert (Hne : c <> Z.to_nat (column sat_id color_i)).
    { intros ->. apply Hout. rewrite Z2Nat.id by exact Hcol.
      rewrite column_range. unfold column, colors_per_satellite in *. lia. }
    destruct (Hothers r c (or_intror Hne)) as [Heq|(_ & _ & Hb)];
      [exact Heq|].
    exfalso. unfold blocked_by in Hb.
    destruct (beam_i =? beams_per_satellite - 1); [tauto|].
    destruct Hb as [-> _]. contradiction.
Qed.

(** ** The matrix and the assignment, side by side *)

(** The beams of a satellite after a beam is appended to one. *)
Lemma beams_of_append (sol : solution) (sat_id sat : Z) (beam : Z * Z)
    (i : nat) (u c : Z) :
  beams_of (PyDict.setitem sol sat_id (beams_of sol sat_id ++ [beam])%list)
           sat !! i = Some (u, c) ->
  beams_of sol sat !! i = Some (u, c) \/
  sat = sat_id /\ i = length (beams_of sol sat_id) /\ (u, c) = beam.
Proof.
  intros H. rewrite beams_of_setitem in H.
  destruct (decide (sat_id = sat)) as [<-|Hne]; [|auto].
  apply lookup_snoc in H as [[_ H]|[-> H]]; auto.
Qed.

Lemma beams_of_kept (sol : solution) (sat_id sat : Z) (beam : Z * Z)
    (i : nat) (u c : Z) :
  beams_of sol sat !! i = Some (u, c) ->
  beams_of (PyDict.setitem sol sat_id (beams_of sol sat_id ++ [beam])%list)
           sat !! i = Some (u, c).
Proof.
  intros H. rewrite beams_of_setitem.
  destruct (decide (sat_id = sat)) as [<-|Hne]; [|exact H].
  apply lookup_app_l_Some. exact H.
Qed.

Lemma beams_of_last (sol : solution) (sat_id : Z) (beam : Z * Z) :
  beams_of (PyDict.setitem sol sat_id (beams_of sol sat_id ++ [beam])%list)
           sat_id !! length (beams_of sol sat_id) = Some beam.
Proof.
  rewrite beams_of_setitem, decide_True by reflexivity.
  rewrite lookup_app_r by lia. rewrite Nat.sub_diag. reflexivity.
Qed.

Section Ledger.

Variable acos : float -> float.
Variable scenario : Scenario.
Variable num_sat_beam : nat.

(** One pass of the scheduler's loop, cell by cell. *)
Lemma solve_user_effect (v v' : matrix) (sol sol' : solution) (user_i : Z) :
  0 <= user_i ->
  solve_user acos scenario num_sat_beam (v, sol) user_i = Ok (v', sol') ->
  (v' = v /\ sol' = sol) \/
  exists sat_id color_i v1,
    1 <= sat_id /\ 0 <= color_i < colors_per_satellite /\
    cell v (Z.to_nat user_i) (Z.to_nat (column sat_id color_i))
      = Some AVAILIBLE /\
    sol' = PyDict.setitem sol sat_id
             (beams_of sol sat_id ++ [(user_i + 1, color_i)])%list /\
    setcell v user_i (column sat_id color_i) IN_USE = Ok v1 /\
    closes (blocked_by acos scenario user_i sat_id color_i
              (Z.of_nat (length (beams_of sol sat_id)))) v1 v'.
Proof.
  intros Hu H. apply solve_user_step in H; [|exact Hu].
  destruct H as [(-> & -> & _)|(c & H)]; [left; auto|right].
  simpl in H. destruct H as (Hc & Hav & _ & -> & Hupd).
  assert (Hsat : 1 <= c / colors_per_satellite + 1).
  { pose proof (Z.div_pos c colors_per_satellite).
    unfold colors_per_satellite in *. lia. }
  assert (Hcolor : 0 <= c mod colors_per_satellite < colors_per_satellite).
  { apply Z.mod_pos_bound. reflexivity. }
  destruct (update_visibility_cells acos scenario _ _ _ _ _ _ Hu Hsat
              (proj1 Hcolor) Hupd) as (v1 & Hset & Hcl).
  exists (c / colors_per_satellite + 1), (c mod colors_per_satellite), v1.
  rewrite column_div_mod in *. auto 10.
Qed.

(** Every cell in use is the cell of a recorded beam, when the scheduler
    starts from a matrix without a cell in use. *)
Lemma solve_users_in_use (v : matrix) (k : nat) (v' : matrix)
    (sol' : solution) :
  (forall r c, cell v r c <> Some IN_USE) ->
  solve_users acos scenario num_sat_beam v k = Ok (v', sol') ->
  forall r c,
    cell v' r c = Some IN_USE ->
    exists sat_id (i : nat) color_i,
      1 <= sat_id /\ 0 <= color_i < colors_per_satellite /\
      c = Z.to_nat (column sat_id color_i) /\
      beams_of sol' sat_id !! i = Some (Z.of_nat r + 1, color_i).
Proof.
  intros Hnone. revert k v' sol'.
  apply (solve_users_invariant acos scenario
           (fun _ v' sol' =>
              forall r c,
                cell v' r c = Some IN_USE ->
                exists sat_id (i : nat) color_i,
                  1 <= sat_id /\ 0 <= color_i < colors_per_satellite /\
                  c = Z.to_nat (column sat_id color_i) /\
                  beams_of sol' sat_id !! i
                    = Some (Z.of_nat r + 1, color_i))).
  - intros r c H. exfalso. eapply Hnone; eauto.
  - intros k v1 sol1 v2 sol2 IH Hstep r c Hcell.
    apply solve_user_effect in Hstep; [|lia].
    destruct Hstep as [[-> ->]|(sat_id & color_i & v3 & Hsat & Hcolor & Hav
                                & -> & Hset & Hcl)]; [auto|].
    assert (Hcol : 0 <= column sat_id color_i)
      by (unfold column, colors_per_satellite in *; lia).
    pose proof (setcell_cells _ _ _ _ _ (Nat2Z.is_nonneg k) Hcol Hset r c)
      as Hv3.
    rewrite Nat2Z.id in Hv3.
    destruct (Hcl r c) as [Heq|(_ & Hun & _)]; [|congruence].
    rewrite Heq in Hcell. rewrite Hv3 in Hcell.
    destruct (decide (r = k /\ c = Z.to_nat (column sat_id color_i)))
      as [[-> ->]|Hne].
    + exists sat_id, (length (beams_of sol1 sat_id)), color_i.
      repeat split; auto; try lia. apply beams_of_last.
    + destruct (IH r c Hcell) as (sat & i & color & ? & ? & ? & Hbeam).
      exists sat, i, color. repeat split; auto; try lia.
      apply beams_of_kept. exact Hbeam.
Qed.

(** A user who was passed without a beam has no available cell, then and
    later. *)
Lemma solve_users_unserved (v : matrix) (k : nat) (v' : matrix)
    (sol' : solution) :
  solve_users acos scenario num_sat_beam v k = Ok (v', sol') ->
  forall r : nat,
    (r < k)%nat ->
    served sol' (Z.of_nat r + 1) \/
    forall c : nat,
      (c < num_sat_beam)%nat -> cell v' r c <> Some AVAILIBLE.
Proof.
  revert k v' sol'.
  apply (solve_users_invariant acos scenario
           (fun k v' sol' =>
              forall r : nat,
                (r < k)%nat ->
                served sol' (Z.of_nat r + 1) \/
                forall c : nat,
                  (c < num_sat_beam)%nat ->
                  cell v' r c <> Some AVAILIBLE)).
  - intros r Hr. lia.
  - intros k v1 sol1 v2 sol2 IH Hstep r Hr.
    pose proof (solve_user_evolves acos scenario num_sat_beam _ _ _ _ _
                  (Nat2Z.is_nonneg k) Hstep) as He.
    apply solve_user_cases in Hstep; [|lia].
    destruct (decide (r = k)) as [->|Hne].
    + destruct Hstep as [(-> & -> & Hnone)|(sat_id & color_i & Hstep)].
      * right. intros c Hc. specialize (Hnone (Z.of_nat c)).
        rewrite !Nat2Z.id in Hnone. apply Hnone. lia.
      * left. simpl in Hstep. destruct Hstep as (_ & _ & _ & _ & _ & -> & _).
        exists sat_id, (length (beams_of sol1 sat_id)), color_i.
        apply beams_of_last.
    + destruct (IH r) as [(sat & i & color & Hbeam)|Hnone]; [lia| |].
      * left. destruct Hstep as [(-> & -> & _)|(sat_id & color_i & Hstep)];
          [exists sat, i, color; exact Hbeam|].
        simpl in Hstep. destruct Hstep as (_ & _ & _ & _ & _ & -> & _).
        exists sat, i, color. apply beams_of_kept. exact Hbeam.
      * right. intros c Hc Hav. apply (Hnone c Hc).
        eapply evolves_available; eauto.
Qed.

(** The cell of every recorded beam was available in the matrix the
    scheduler started from. *)
Lemma solve_users_origin (v : matrix) (k : nat) (v' : matrix)
    (sol' : solution) :
  solve_users acos scenario num_sat_beam v k = Ok (v', sol') ->
  forall sat_id (i : nat) user color_i,
    beams_of sol' sat_id !! i = Some (user, color_i) ->
    cell v (Z.to_nat (user - 1)) (Z.to_nat (column sat_id color_i))
      = Some AVAILIBLE.
Proof.
  intros H.
  enough (Hboth : evolves v v' /\
            forall sat_id (i : nat) user color_i,
              beams_of sol' sat_id !! i = Some (user, color_i) ->
              cell v (Z.to_nat (user - 1))
                (Z.to_nat (column sat_id color_i)) = Some AVAILIBLE)
    by apply Hboth.
  revert k v' sol' H.
  apply (solve_users_invariant acos scenario
           (fun _ v' sol' =>
              evolves v v' /\
              forall sat_id (i : nat) user color_i,
                beams_of sol' sat_id !! i = Some (user, color_i) ->
                cell v (Z.to_nat (user - 1))
                  (Z.to_nat (column sat_id color_i)) = Some AVAILIBLE)).
  - split; [reflexivity|]. intros sat i u c H. unfold beams_of in H.
    simpl in H. discriminate.
  - intros k v1 sol1 v2 sol2 [He IH] Hstep.
    apply solve_user_cases in Hstep; [|lia].
    destruct Hstep as [(-> & -> & _)|(sat_id & color_i & Hstep)]; [auto|].
    simpl in Hstep.
    destruct Hstep as (_ & _ & _ & Hav & _ & -> & He' & _).
    split; [etransitivity; eauto|].
    intros sat i u c Hbeam.
    apply beams_of_append in Hbeam as [Hbeam|(-> & -> & Heq)]; [eauto|].
    injection Heq as -> ->.
    replace (Z.of_nat k + 1 - 1) with (Z.of_nat k) by lia.
    eapply evolves_available; eauto.
Qed.

End Ledger.

(** The matrix the scheduler starts from and ends with. *)
Lemma schedule_shape (acos : float -> float) (scenario : Scenario)
    (v : matrix) (sol : solution) :
  schedule acos scenario = Ok (v, sol) ->
  let U := length (users scenario) in
  let C := (length (sats scenario) * Z.to_nat colors_per_satellite)%nat in
  exists v0,
    generate_visibility_matrix acos scenario = Ok v0 /\
    constructed acos scenario U C
      (fun u s => u ∈ PyDict.keys (users scenario) /\
                  s ∈ PyDict.keys (sats scenario)) v0 /\
    solve_users acos scenario C v0 U = Ok (v, sol) /\
    evolves v0 v /\ shaped U C v.
Proof.
  intros H U C. apply schedule_Ok in H as (v0 & row0 & Hgen & Hrow0 & H).
  pose proof (generate_visibility_matrix_constructed _ _ _ Hgen) as Hcons.
  pose proof Hcons as [[Hlen Hrows] _].
  apply getitem_nonneg in Hrow0; [|lia].
  pose proof (Forall_lookup_1 _ _ _ _ Hrows Hrow0) as Hl. simpl in Hl.
  rewrite Hl, Hlen in H. fold U C in H.
  assert (He : evolves v0 v).
  { apply (solve_users_evolves acos scenario C v0 0 U v0 v [] sol);
      [lia|reflexivity|exact H]. }
  exists v0. split; [exact Hgen|]. split; [exact Hcons|].
  split; [exact H|]. split; [exact He|].
  eapply evolves_shaped; [exact He|]. apply Hcons.
Qed.

Lemma update_visibility_effect_witness :
  exists v',
    update_visibility acos_by_thresholds small_matrix small_scenario 0 2 0 0
      = Ok v' /\
    cell v' (Z.to_nat 0) (Z.to_nat (column 2 0)) = Some IN_USE /\
    (forall r c,
       r <> Z.to_nat 0 \/ c <> Z.to_nat (column 2 0) ->
       cell v' r c = cell small_matrix r c \/
       cell small_matrix r c = Some AVAILIBLE /\
       cell v' r c = Some UNAVAILIBLE /\
       blocked_by acos_by_thresholds small_scenario 0 2 0 0 r c) /\
    (forall r c,
       ~ column 2 0 <= Z.of_nat c < column 2 colors_per_satellite ->
       cell v' r c = cell small_matrix r c).
Proof.
  eexists. split; [vm_compute; reflexivity|].
  apply (update_visibility_effect acos_by_thresholds small_scenario
           small_matrix _ 0 2 0 0); [lia|lia|split; [lia|reflexivity]|].
  vm_compute. reflexivity.
Defined.

(** X2. The cells in use and the assignment tell the same story: when the
    scheduler ends with an assignment, the cell in row [r] and column [c]
    of the matrix is [IN_USE] exactly when user [r + 1] has a beam of the
    satellite and the color of that column. *)
Theorem in_use_cells_are_beams (acos : float -> float)
    (scenario : Scenario) (v : matrix) (sol : solution) (r c : nat) :
  schedule acos scenario = Ok (v, sol) ->
  cell v r c = Some IN_USE <->
  exists sat_id color_i,
    1 <= sat_id /\ 0 <= color_i < colors_per_satellite /\
    c = Z.to_nat (column sat_id color_i) /\
    (Z.of_nat r + 1, color_i) ∈ beams_of sol sat_id.
Proof.
  intros H. apply schedule_shape in H as (v0 & _ & Hcons & H & _).
  destruct Hcons as (_ & _ & _ & Hstates & _). split.
  - intros Hcell.
    assert (Hnone : forall r' c', cell v0 r' c' <> Some IN_USE).
    { intros r' c' Hin. apply Hstates in Hin as [?|?]; discriminate. }
    destruct (solve_users_in_use acos scenario _ _ _ _ _ Hnone H r c Hcell)
      as (sat_id & i & color_i & Hsat & Hcolor & Hc & Hbeam).
    exists sat_id, color_i. repeat split; auto; try lia.
    eapply list_elem_of_lookup_2; eauto.
  - intros (sat_id & color_i & _ & _ & -> & Hbeam).
    apply list_elem_of_lookup_1 in Hbeam as [i Hbeam].
    destruct (solve_users_beams acos scenario _ _ _ _ _ H) as (Ha & _).
    destruct (Ha _ _ _ _ Hbeam) as (_ & _ & _ & Hcell).
    replace (Z.of_nat r + 1 - 1) with (Z.of_nat r) in Hcell by lia.
    rewrite Nat2Z.id in Hcell. exact Hcell.
Qed.

Lemma in_use_cells_are_beams_witness :
  exists v sol,
    schedule acos_by_thresholds small_scenario = Ok (v, sol) /\
    (cell v 0 4 = Some IN_USE <->
     exists sat_id color_i,
       1 <= sat_id /\ 0 <= color_i < colors_per_satellite /\
       4%nat = Z.to_nat (column sat_id color_i) /\
       (Z.of_nat 0 + 1, color_i) ∈ beams_of sol sat_id).
Proof.
  do 2 eexists. split; [vm_compute; reflexivity|].
  apply (in_use_cells_are_beams acos_by_thresholds small_scenario).
  vm_compute. reflexivity.
Defined.

(** X3. No user is left out while a cell is open to them: when the
    scheduler ends with an assignment, every user has a beam or has no
    [AVAILIBLE] cell in the final matrix. *)
Theorem unserved_users_blocked (acos : float -> float)
    (scenario : Scenario) (v : matrix) (sol : solution) (user : Z) :
  schedule acos scenario = Ok (v, sol) ->
  1 <= user <= Z.of_nat (length (users scenario)) ->
  served sol user \/
  forall c : nat, cell v (Z.to_nat (user - 1)) c <> Some AVAILIBLE.
Proof.
  intros H Hu. apply schedule_shape in H as (v0 & _ & _ & H & _ & Hshape).
  destruct (solve_users_unserved acos scenario _ _ _ _ _ H
              (Z.to_nat (user - 1))) as [Hs|Hnone]; [lia| |].
  - left. replace (Z.of_nat (Z.to_nat (user - 1)) + 1) with user in Hs by lia.
    exact Hs.
  - right. intros c Hav. apply (Hnone c); [|exact Hav].
    eapply cell_shaped in Hav; [|exact Hshape]. lia.
Qed.

Lemma unserved_users_blocked_witness :
  exists v sol,
    schedule acos_by_thresholds small_scenario = Ok (v, sol) /\
    (served sol 2 \/
     forall c : nat, cell v (Z.to_nat (2 - 1)) c <> Some AVAILIBLE).
Proof.
  do 2 eexists. split; [vm_compute; reflexivity|].
  apply (unserved_users_blocked acos_by_thresholds small_scenario).
  - vm_compute. reflexivity.
  - simpl. lia.
Defined.

(** A user with a beam can keep cells that are [AVAILIBLE]: the first user
    of [small_scenario] has the first color of the second satellite and the
    three other colors of that satellite stay open in the row. *)
Example served_user_keeps_cells :
  exists v sol,
    schedule acos_by_thresholds small_scenario = Ok (v, sol) /\
    served sol 1 /\ cell v 0 5 = Some AVAILIBLE.
Proof.
  do 2 eexists. split; [vm_compute; reflexivity|]. split; [|reflexivity].
  exists 2, 0%nat, 0. reflexivity.
Qed.

(** X4. Every beam of the assignment joins a user and a satellite that
    passed the two checks of the matrix: with identifiers 1, 2, ... the
    user and the satellite of a recorded beam exist, the angle at the user
    between the center of the earth and the satellite is computed and is
    not at most [180 - max_user_visible_angle], and no interferer is less
    than [non_starlink_interference_max] away from the satellite, seen from
    the user. *)
Theorem assigned_beams_visible (acos : float -> float)
    (scenario : Scenario) (v : matrix) (sol : solution) (sat_id : Z)
    (i : nat) (user color_i : Z) :
  ids_contiguous (users scenario) -> ids_contiguous (sats scenario) ->
  schedule acos scenario = Ok (v, sol) ->
  beams_of sol sat_id !! i = Some (user, color_i) ->
  1 <= user <= Z.of_nat (length (users scenario)) /\
  1 <= sat_id <= Z.of_nat (length (sats scenario)) /\
  0 <= color_i < colors_per_satellite /\
  exists user_pos sat_pos elevation,
    PyDict.getitem (users scenario) (PyStr.str user) = Ok user_pos /\
    PyDict.getitem (sats scenario) (PyStr.str sat_id) = Ok sat_pos /\
    calculate_angle_degrees acos user_pos origin sat_pos = Ok elevation /\
    PrimFloat.leb elevation (180 - max_user_visible_angle) = false /\
    forall interferer_id,
      interferer_id ∈ PyDict.keys (interferers scenario) ->
      ~ violates acos scenario user_pos sat_pos interferer_id.
Proof.
  intros Hus Hss H Hbeam.
  apply schedule_shape in H as (v0 & _ & Hcons & H & _).
  destruct (solve_users_beams acos scenario _ _ _ _ _ H) as (Ha & _).
  destruct (Ha _ _ _ _ Hbeam) as (Hu & Hsat & Hcolor & _).
  pose proof (solve_users_origin acos scenario _ _ _ _ _ H _ _ _ _ Hbeam)
    as Hav.
  destruct Hcons as (Hshape & Hfrom & _).
  destruct (Hfrom _ _ Hav) as (uid & sid & [Hin1 Hin2] & Hvis & Ht).
  pose proof (cell_shaped _ _ _ _ _ _ Hshape Hav) as [_ Hc].
  apply (targets_contiguous_inv scenario) in Ht as [-> ->]; auto; try lia.
  split; [exact Hu|]. split.
  { split; [exact Hsat|]. unfold column, colors_per_satellite in *. lia. }
  split; [exact Hcolor|].
  apply pair_visible_Ok in Hvis
    as (user_pos & sat_pos & elevation & Hup & Hsp & Helev & Hcases).
  exists user_pos, sat_pos, elevation.
  destruct Hcases as [[_ ?]|(Hleb & viol & Hviol & Hneg)]; [discriminate|].
  destruct viol; [discriminate|].
  repeat split; auto.
  apply interferer_violation_false. exact Hviol.
Qed.

Lemma assigned_beams_visible_witness :
  1 <= 1 <= Z.of_nat (length (users small_scenario)) /\
  1 <= 2 <= Z.of_nat (length (sats small_scenario)) /\
  0 <= 0 < colors_per_satellite /\
  exists user_pos sat_pos elevation,
    PyDict.getitem (users small_scenario) (PyStr.str 1) = Ok user_pos /\
    PyDict.getitem (sats small_scenario) (PyStr.str 2) = Ok sat_pos /\
    calculate_angle_degrees acos_by_thresholds user_pos origin sat_pos
      = Ok elevation /\
    PrimFloat.leb elevation (180 - max_user_visible_angle) = false /\
    forall interferer_id,
      interferer_id ∈ PyDict.keys (interferers small_scenario) ->
      ~ violates acos_by_thresholds small_scenario user_pos sat_pos
          interferer_id.
Proof.
  apply (assigned_beams_visible acos_by_thresholds small_scenario
           [[UNAVAILIBLE; UNAVAILIBLE; UNAVAILIBLE; UNAVAILIBLE;
             IN_USE; AVAILIBLE; AVAILIBLE; AVAILIBLE];
            [UNAVAILIBLE; UNAVAILIBLE; UNAVAILIBLE; UNAVAILIBLE;
             UNAVAILIBLE; UNAVAILIBLE; UNAVAILIBLE; UNAVAILIBLE]]
           [(2, [(1, 0)])] 2 0%nat 1 0).
  - vm_compute. reflexivity.
  - vm_compute. reflexivity.
  - vm_compute. reflexivity.
  - reflexivity.
Defined.

(** ** Words and lines *)

Lemma concat_lines_app (l1 l2 : list string) :
  concat_lines (l1 ++ l2)%list = concat_lines l1 ++ concat_lines l2.
Proof.
  induction l1 as [|x l1 IH]; [reflexivity|].
  change (concat_lines ((x :: l1) ++ l2)%list)
    with (x ++ concat_lines (l1 ++ l2)%list).
  change (concat_lines (x :: l1)) with (x ++ concat_lines l1).
  rewrite IH, string_app_assoc. reflexivity.
Qed.

(** [" ".join(l)], word by word. *)
Lemma join_space_cons (w : string) (rest : list string) :
  join_space (w :: rest)
  = w ++ concat_lines (map (fun x => " " ++ x) rest).
Proof.
  unfold join_space. revert w.
  induction rest as [|x rest IH]; intros w.
  - simpl. rewrite append_nil_r. reflexivity.
  - change (fold_left (fun acc x0 => acc ++ " " ++ x0) (x :: rest) w)
      with (fold_left (fun acc x0 => acc ++ " " ++ x0) rest (w ++ " " ++ x)).
    rewrite IH.
    change (concat_lines (map (fun x0 => " " ++ x0) (x :: rest)))
      with ((" " ++ x) ++ concat_lines (map (fun x0 => " " ++ x0) rest)).
    rewrite !string_app_assoc. reflexivity.
Qed.

Lemma split_from_chars (w s : string) (cur : list ascii) :
  Forall (fun c => PyStr.is_space c = false) (list_ascii_of_string w) ->
  PyStr.split_from cur (w ++ s)
  = PyStr.split_from (rev (list_ascii_of_string w) ++ cur)%list s.
Proof.
  revert cur. induction w as [|c w IH]; intros cur H; [reflexivity|].
  simpl in H. apply Forall_cons in H as [Hc H].
  rewrite append_cons. cbn [PyStr.split_from]. rewrite Hc.
  rewrite IH by exact H. simpl. rewrite <- app_assoc. reflexivity.
Qed.

Lemma split_from_leading_space (cur : list ascii) (c : ascii) (s : string) :
  PyStr.is_space c = true ->
  PyStr.split_from cur (String c s)
  = PyStr.flush cur (PyStr.split_from [] (String c s)).
Proof. intros H. cbn [PyStr.split_from]. rewrite H. reflexivity. Qed.

Lemma flush_word (w : string) (k : list string) :
  w <> "" ->
  PyStr.flush (rev (list_ascii_of_string w)) k = w :: k.
Proof.
  intros Hw. unfold PyStr.flush.
  destruct (rev (list_ascii_of_string w)) as [|c l] eqn:E.
  - exfalso. apply Hw. apply (f_equal (@rev ascii)) in E.
    rewrite rev_involutive in E. simpl in E.
    rewrite <- (string_of_list_ascii_of_string w), E. reflexivity.
  - rewrite <- E, rev_involutive, string_of_list_ascii_of_string.
    reflexivity.
Qed.

(** The words of a line are found again by [split], whatever white space
    ends the line. *)
Lemma split_from_words (ws : list string) (c : ascii) (tail : string) :
  Forall word ws -> PyStr.is_space c = true ->
  PyStr.split_from [] (String c tail) = [] ->
  PyStr.split_from []
    (concat_lines (map (fun x => " " ++ x) ws) ++ String c tail) = ws.
Proof.
  intros Hws Hc Htail. induction Hws as [|w ws [Hne Hw] Hws IH].
  - exact Htail.
  - change (concat_lines (map (fun x => " " ++ x) (w :: ws)))
      with ((" " ++ w) ++ concat_lines (map (fun x => " " ++ x) ws)).
    rewrite !string_app_assoc.
    change (" " ++ w ++ concat_lines (map (fun x => " " ++ x) ws)
                ++ String c tail)
      with (String " " (w ++ concat_lines (map (fun x => " " ++ x) ws)
                          ++ String c tail)).
    cbn [PyStr.split_from]. change (PyStr.is_space " ") with true.
    cbn iota. unfold PyStr.flush at 1.
    rewrite split_from_chars by exact Hw. rewrite app_nil_r.
    assert (Hnext : exists c' s',
              concat_lines (map (fun x => " " ++ x) ws) ++ String c tail
              = String c' s' /\ PyStr.is_space c' = true).
    { destruct ws as [|w' ws'].
      - exists c, tail. auto.
      - exists " "%char,
          (w' ++ concat_lines (map (fun x => " " ++ x) ws')
              ++ String c tail).
        split; [|reflexivity].
        change (concat_lines (map (fun x => " " ++ x) (w' :: ws')))
          with ((" " ++ w')
                  ++ concat_lines (map (fun x => " " ++ x) ws')).
        rewrite !string_app_assoc. reflexivity. }
    destruct Hnext as (c' & s' & Heq & Hc').
    rewrite Heq in *. rewrite split_from_leading_space by exact Hc'.
    rewrite IH. apply flush_word. exact Hne.
Qed.

Lemma split_join_space (ws : list string) :
  Forall word ws -> PyStr.split (join_space ws ++ newline) = ws.
Proof.
  intros Hws. unfold PyStr.split. destruct Hws as [|w ws [Hne Hw] Hws].
  - reflexivity.
  - rewrite join_space_cons, string_app_assoc.
    rewrite split_from_chars by exact Hw. rewrite app_nil_r.
    assert (Hnext : exists c' s',
              concat_lines (map (fun x => " " ++ x) ws) ++ newline
              = String c' s' /\ PyStr.is_space c' = true).
    { destruct ws as [|w' ws'].
      - eexists _, _. split; reflexivity.
      - exists " "%char,
          (w' ++ concat_lines (map (fun x => " " ++ x) ws') ++ newline).
        split; [|reflexivity].
        change (concat_lines (map (fun x => " " ++ x) (w' :: ws')))
          with ((" " ++ w')
                  ++ concat_lines (map (fun x => " " ++ x) ws')).
        rewrite !string_app_assoc. reflexivity. }
    destruct Hnext as (c' & s' & Heq & Hc').
    rewrite Heq, split_from_leading_space by exact Hc'. rewrite <- Heq.
    unfold newline.
    rewrite split_from_words; [apply flush_word; exact Hne|exact Hws| |];
      reflexivity.
Qed.

(** ** Numbers as words *)

Lemma digits_word (s : string) : s <> "" -> digits_only s -> word s.
Proof.
  intros Hne H. split; [exact Hne|].
  unfold digits_only in H. eapply Forall_impl; [exact H|].
  intros c Hc. apply digit_not_space. exact Hc.
Qed.

Lemma string_of_uint_nonempty (n : nat) :
  NilEmpty.string_of_uint (Nat.to_uint n) <> "".
Proof.
  intros E. pose proof (parse_digits_to_uint n) as H. rewrite E in H.
  discriminate H.
Qed.

Lemma word_str (n : Z) : word (PyStr.str n).
Proof.
  unfold PyStr.str. destruct (n <? 0).
  - destruct (digits_word _ (string_of_uint_nonempty (Z.to_nat (- n)))
                (string_of_uint_digits _)) as [_ H].
    split; [discriminate|]. simpl. constructor; [reflexivity|exact H].
  - apply digits_word;
      [apply string_of_uint_nonempty|apply string_of_uint_digits].
Qed.

(** [int(str(n))] is [n], below zero as well. *)
Lemma int_str_all (n : Z) : PyStr.int (PyStr.str n) = Ok n.
Proof.
  destruct (Z.ltb_spec n 0) as [Hneg|Hpos]; [|apply int_str; exact Hpos].
  unfold PyStr.str. rewrite (proj2 (Z.ltb_lt n 0) Hneg).
  pose proof (parse_digits_to_uint (Z.to_nat (- n))) as Hp.
  pose proof (string_of_uint_digits (Nat.to_uint (Z.to_nat (- n)))) as Hd.
  pose proof (string_of_uint_nonempty (Z.to_nat (- n))) as Hne.
  set (ds := NilEmpty.string_of_uint (Nat.to_uint (Z.to_nat (- n)))) in *.
  unfold PyStr.int.
  assert (Hstrip : PyStr.strip (String "-" ds) = String "-" ds).
  { unfold PyStr.strip. cbn [PyStr.lstrip].
    change (PyStr.is_space "-") with false. cbn iota.
    cbn [PyStr.rstrip]. rewrite rstrip_digits by exact Hd.
    destruct ds; [contradiction|reflexivity]. }
  rewrite Hstrip. cbn iota. rewrite Hp. f_equal. lia.
Qed.

(** ** What is printed *)

Lemma color_getitem (color_i : Z) :
  0 <= color_i < colors_per_satellite ->
  PyList.getitem valid_color_ids color_i
  = Ok (default "" (valid_color_ids !! Z.to_nat color_i)).
Proof.
  unfold colors_per_satellite. intros H.
  assert (color_i = 0 \/ color_i = 1 \/ color_i = 2 \/ color_i = 3)
    as [->|[->|[->| ->]]] by lia; reflexivity.
Qed.

Lemma color_word (color_i : Z) :
  0 <= color_i < colors_per_satellite ->
  word (default "" (valid_color_ids !! Z.to_nat color_i)) /\
  default "" (valid_color_ids !! Z.to_nat color_i) ∈ valid_color_ids.
Proof.
  unfold colors_per_satellite. intros H.
  assert (color_i = 0 \/ color_i = 1 \/ color_i = 2 \/ color_i = 3)
    as [->|[->|[->| ->]]] by lia; simpl;
    (split; [split; [discriminate|repeat constructor]|]);
    unfold valid_color_ids; rewrite !elem_of_cons; auto.
Qed.

Lemma foldM_Raise {S A : Type} (f : S -> A -> res S) (l : list A) (s : S)
    (e : exn) :
  foldM f s l = Raise e -> exists s' a, In a l /\ f s' a = Raise e.
Proof.
  revert s. induction l as [|a l IH]; intros s H; simpl in H;
    [discriminate|].
  apply bind_Raise in H as [H|(s' & _ & H)].
  - exists s, a. split; [left; reflexivity|exact H].
  - destruct (IH _ H) as (s'' & a' & Hin & H'). exists s'', a'.
    split; [right; exact Hin|exact H'].
Qed.

Lemma format_beam_raises (sat_id : Z) (result : string)
    (numbered : Z * (Z * Z)) (e : exn) :
  format_beam sat_id result numbered = Raise e -> e = IndexError.
Proof.
  destruct numbered as [beam_i [user color_i]]. unfold format_beam.
  intros H. apply bind_Raise in H as [H|(color & _ & H)]; [|discriminate].
  unfold PyList.getitem in H.
  apply bind_Raise in H as [H|(k & _ & H)].
  - unfold PyList.index in H.
    destruct (_ && _); [discriminate|congruence].
  - destruct (valid_color_ids !! k); [discriminate|congruence].
Qed.

Lemma format_beam_Ok (sat_id : Z) (result : string) (beam_i user color_i : Z) :
  0 <= color_i < colors_per_satellite ->
  format_beam sat_id result (beam_i, (user, color_i))
  = Ok (result ++
        beam_line sat_id (beam_i + 1) user
          (default "" (valid_color_ids !! Z.to_nat color_i))).
Proof.
  intros Hc. unfold format_beam. rewrite color_getitem by exact Hc.
  reflexivity.
Qed.

(** The lines of one satellite, whose beams are numbered from [a + 1]. *)
Lemma format_beams (sat_id : Z) (sat : list (Z * Z)) (a : nat)
    (result : string) :
  Forall (fun '(_, color_i) => 0 <= color_i < colors_per_satellite) sat ->
  foldM (format_beam sat_id) result
        (zip (range_from (Z.of_nat a) (length sat)) sat)
  = Ok (result ++
        concat_lines
          (imap (fun i '(user, color_i) =>
                   beam_line sat_id (Z.of_nat (a + i) + 1) user
                     (default "" (valid_color_ids !! Z.to_nat color_i)))
                sat)).
Proof.
  revert a result. induction sat as [|[user color_i] sat IH];
    intros a result H.
  - simpl. rewrite append_nil_r. reflexivity.
  - apply Forall_cons in H as [Hc H].
    cbn [length]. rewrite range_from_cons. cbn [zip_with foldM].
    rewrite format_beam_Ok by exact Hc. cbn [mbind res_bind].
    replace (range_from (Z.of_nat a + 1) (length sat))
      with (range_from (Z.of_nat (S a)) (length sat)) by (f_equal; lia).
    rewrite IH by exact H. rewrite imap_cons, Nat.add_0_r.
    rewrite (imap_ext
               ((fun i '(user0, color_i0) =>
                   beam_line sat_id (Z.of_nat (a + i) + 1) user0
                     (default "" (valid_color_ids !! Z.to_nat color_i0)))
                  ∘ S)
               (fun i '(user0, color_i0) =>
                  beam_line sat_id (Z.of_nat (S a + i) + 1) user0
                    (default "" (valid_color_ids !! Z.to_nat color_i0)))).
    + change (concat_lines (?x :: ?l)) with (x ++ concat_lines l).
      rewrite string_app_assoc. reflexivity.
    + intros i [u c] _. simpl.
      replace (a + S i)%nat with (S (a + i)) by lia. reflexivity.
Qed.

Lemma format_sats (sol : solution) (result : string) :
  colors_valid sol ->
  foldM (fun result '(sat_id, sat) =>
           foldM (format_beam sat_id) result
                 (zip (range (length sat)) sat))
        result sol
  = Ok (result ++ concat_lines (solution_lines sol)).
Proof.
  revert result. induction sol as [|[sat_id sat] sol IH]; intros result H.
  - simpl. rewrite append_nil_r. reflexivity.
  - apply Forall_cons in H as [Hsat H]. cbn [foldM].
    change (range (length sat))
      with (range_from (Z.of_nat 0) (length sat)).
    rewrite (format_beams sat_id sat 0 result Hsat). cbn [mbind res_bind].
    rewrite IH by exact H. f_equal.
    change (solution_lines ((sat_id, sat) :: sol))
      with (sat_lines sat_id sat ++ solution_lines sol)%list.
    rewrite concat_lines_app, string_app_assoc. reflexivity.
Qed.

Lemma format_solution_Ok (sol : solution) :
  colors_valid sol ->
  format_solution sol = Ok (concat_lines (solution_lines sol) ++ newline).
Proof.
  intros H. unfold format_solution. rewrite format_sats by exact H.
  reflexivity.
Qed.

(** X5. What [format_solution] prints: when every color index is one of
    0, 1, 2, 3 the function ends well, and the text is one line per beam,
    satellite after satellite in the order of the dictionary and beam after
    beam in the order of the satellite's list, the beams of a satellite
    being numbered from 1, followed by the empty line of [print].  The
    function raises nothing but [IndexError], and only when a color index
    is not one of those. *)
Theorem format_solution_lines (sol : solution) :
  (colors_valid sol ->
   format_solution sol = Ok (concat_lines (solution_lines sol) ++ newline)) /\
  (forall e, format_solution sol = Raise e ->
             e = IndexError /\ ~ colors_valid sol).
Proof.
  split; [apply format_solution_Ok|].
  intros e H. split.
  - unfold format_solution in H.
    apply bind_Raise in H as [H|(? & _ & H)]; [|discriminate].
    apply foldM_Raise in H as (r & [sat_id sat] & _ & H).
    apply foldM_Raise in H as (r' & numbered & _ & H).
    eapply format_beam_raises; eauto.
  - intros Hvalid. rewrite format_solution_Ok in H by exact Hvalid.
    discriminate H.
Qed.

Lemma format_solution_lines_witness :
  format_solution [(2, [(1, 0); (4, 3)]); (1, [(3, 0)])]
  = Ok (concat_lines
          (solution_lines [(2, [(1, 0); (4, 3)]); (1, [(3, 0)])])
        ++ newline).
Proof.
  apply (proj1 (format_solution_lines
                  [(2, [(1, 0); (4, 3)]); (1, [(3, 0)])])).
  unfold colors_valid, colors_per_satellite.
  repeat first [apply Forall_cons; split | apply Forall_nil | lia].
Defined.

(** X6. A printed line can be read back: split at white space, the line
    of a beam gives the eight words [sat], the satellite, [beam], the
    number of the beam, [user], the user, [color] and the letter of the
    color; [int] gives back the three numbers and the letter is the color's
    in [valid_color_ids]. *)
Theorem beam_line_round_trip (sat_id beam user color_i : Z) :
  0 <= color_i < colors_per_satellite ->
  exists s b u color,
    PyStr.split
      (beam_line sat_id beam user
         (default "" (valid_color_ids !! Z.to_nat color_i)))
    = ["sat"; s; "beam"; b; "user"; u; "color"; color] /\
    PyStr.int s = Ok sat_id /\ PyStr.int b = Ok beam /\
    PyStr.int u = Ok user /\
    PyList.getitem valid_color_ids color_i = Ok color.
Proof.
  intros Hc.
  exists (PyStr.str sat_id), (PyStr.str beam), (PyStr.str user),
         (default "" (valid_color_ids !! Z.to_nat color_i)).
  rewrite !int_str_all. split; [|auto using color_getitem].
  unfold beam_line. apply split_join_space.
  destruct (color_word color_i Hc) as [Hw _].
  assert (Hkw : forall w, w ∈ ["sat"; "beam"; "user"; "color"] -> word w).
  { intros w Hin. rewrite !elem_of_cons, elem_of_nil in Hin.
    destruct Hin as [->|[->|[->|[->|[]]]]];
      (split; [discriminate|repeat constructor]). }
  repeat first [apply Forall_cons_2 | apply Forall_nil_2];
    first [apply word_str | exact Hw
          | apply Hkw; rewrite !elem_of_cons; tauto].
Qed.

Lemma beam_line_round_trip_witness :
  exists s b u color,
    PyStr.split
      (beam_line 12 3 40 (default "" (valid_color_ids !! Z.to_nat 2)))
    = ["sat"; s; "beam"; b; "user"; u; "color"; color] /\
    PyStr.int s = Ok 12 /\ PyStr.int b = Ok 3 /\ PyStr.int u = Ok 40 /\
    PyList.getitem valid_color_ids 2 = Ok color.
Proof.
  apply (beam_line_round_trip 12 3 40 2).
  unfold colors_per_satellite. lia.
Defined.

(** ** What the reader stores *)

Lemma keys_setitem `{EqDecision K} {V : Type} (d : PyDict.dict K V) (k : K)
    (x : V) :
  PyDict.keys (PyDict.setitem d k x) =
  if decide (k ∈ PyDict.keys d) then PyDict.keys d
  else (PyDict.keys d ++ [k])%list.
Proof.
  induction d as [|[k' x'] d IH].
  - cbn [PyDict.setitem PyDict.keys map fst].
    destruct (decide (k ∈ @nil K)) as [Hin|_]; [|reflexivity].
    apply elem_of_nil in Hin. contradiction.
  - cbn [PyDict.setitem]. destruct (decide (k' = k)) as [->|Hne].
    + cbn [PyDict.keys map fst].
      destruct (decide (k ∈ k :: map fst d)) as [_|Hout]; [reflexivity|].
      exfalso. apply Hout. left.
    + change (PyDict.keys ((k', x') :: PyDict.setitem d k x))
        with (k' :: PyDict.keys (PyDict.setitem d k x)).
      change (PyDict.keys ((k', x') :: d)) with (k' :: PyDict.keys d).
      rewrite IH.
      destruct (decide (k ∈ PyDict.keys d)) as [Hin|Hout],
               (decide (k ∈ k' :: PyDict.keys d)) as [Hin'|Hout'];
        try reflexivity.
      * exfalso. apply Hout'. right. exact Hin.
      * exfalso. apply elem_of_cons in Hin' as [?|?]; congruence.
Qed.

Lemma setitem_NoDup `{EqDecision K} {V : Type} (d : PyDict.dict K V) (k : K)
    (x : V) :
  NoDup (PyDict.keys d) -> NoDup (PyDict.keys (PyDict.setitem d k x)).
Proof.
  intros H. rewrite keys_setitem.
  destruct (decide (k ∈ PyDict.keys d)) as [Hin|Hout]; [exact H|].
  apply NoDup_app. split; [exact H|]. split.
  - intros k' Hin Hin'. apply list_elem_of_singleton in Hin'. congruence.
  - apply NoDup_singleton.
Qed.

Section Stored.

Variable float_of_string : string -> option float.

(** X7. What [read_object] stores.  When it answers [True] the line has
    five words, the first one the type asked for and the last three read by
    [float]; the position is then found under the identifier, which is the
    second word as it is written; the other identifiers keep their
    positions; and the identifier is added after the others if it is new
    and keeps its place if it is not, so that a second line for an
    identifier replaces the position of the first.  When it answers [False]
    the dictionary is as it was. *)
Theorem read_object_stores (object_type line : string)
    (dest : PyDict.dict string Vector3) (ok : bool)
    (dest' : PyDict.dict string Vector3) :
  read_object float_of_string object_type line dest = Ok (ok, dest') ->
  if ok then
    exists ident sx sy sz x y z,
      PyStr.split line = [object_type; ident; sx; sy; sz] /\
      float_of_string sx = Some x /\ float_of_string sy = Some y /\
      float_of_string sz = Some z /\
      PyDict.getitem dest' ident = Ok (mkVector3 x y z) /\
      (forall k, k <> ident -> PyDict.lookup dest' k = PyDict.lookup dest k) /\
      PyDict.keys dest' =
      (if decide (ident ∈ PyDict.keys dest) then PyDict.keys dest
       else (PyDict.keys dest ++ [ident])%list)
  else dest' = dest.
Proof.
  intros H.
  destruct (PyStr.split line) as [|kw tokens] eqn:Hsplit.
  { unfold read_object in H. rewrite Hsplit in H. discriminate H. }
  rewrite read_object_spec in H by (rewrite Hsplit; discriminate).
  rewrite Hsplit in H.
  destruct tokens as [|ident [|sx [|sy [|sz [|? ?]]]]];
    try (injection H as <- <-; reflexivity).
  destruct (String.eqb kw object_type) eqn:Hkw;
    [apply String.eqb_eq in Hkw; subst kw
    |injection H as <- <-; reflexivity].
  destruct (float_of_string sx) as [x|] eqn:Hx;
    [|injection H as <- <-; reflexivity].
  destruct (float_of_string sy) as [y|] eqn:Hy;
    [|injection H as <- <-; reflexivity].
  destruct (float_of_string sz) as [z|] eqn:Hz;
    [|injection H as <- <-; reflexivity].
  injection H as <- <-.
  exists ident, sx, sy, sz, x, y, z. repeat split; auto.
  - unfold PyDict.getitem. rewrite dict_lookup_setitem.
    rewrite decide_True by reflexivity. reflexivity.
  - intros k Hk. rewrite dict_lookup_setitem.
    rewrite decide_False by congruence. reflexivity.
  - apply keys_setitem.
Qed.

Lemma read_object_total (object_type line : string)
    (dest : PyDict.dict string Vector3) :
  PyStr.split line <> [] ->
  exists ok dest',
    read_object float_of_string object_type line dest = Ok (ok, dest').
Proof.
  intros Hne. rewrite read_object_spec by exact Hne.
  match goal with |- exists ok dest', Ok ?p = _ => destruct p as [ok d] end.
  eauto.
Qed.

Lemma read_lines_total (lines : list string) (scenario : Scenario) :
  exists ok scenario',
    read_lines float_of_string lines scenario = Ok (ok, scenario').
Proof.
  revert scenario. induction lines as [|line rest IH]; intros scenario;
    [simpl; eauto|].
  cbn [read_lines].
  destruct (PyStr.contains "#" line); [apply IH|].
  destruct (String.eqb (PyStr.strip line) "") eqn:Hb; [apply IH|].
  pose proof (split_not_blank _ Hb) as Hne.
  repeat match goal with
         | |- context [if PyStr.contains ?w line then _ else _] =>
           destruct (PyStr.contains w line)
         end; [| | |eauto];
    match goal with
    | |- context [read_object _ ?t line ?d] =>
      destruct (read_object_total t line d Hne) as ([] & d' & ->)
    end; simpl; eauto.
Qed.

(** X8. The reader never raises: a line without a word makes
    [read_object] raise [IndexError], and any other line gets an answer;
    [read_scenario] passes the lines without a word before it calls
    [read_object], so whatever the lines it answers [True] or [False]. *)
Theorem read_scenario_never_raises (lines : list string) :
  (forall object_type line dest,
     (PyStr.split line = [] ->
      read_object float_of_string object_type line dest = Raise IndexError)
     /\
     (PyStr.split line <> [] ->
      exists ok dest',
        read_object float_of_string object_type line dest
        = Ok (ok, dest'))) /\
  exists ok scenario,
    read_scenario float_of_string lines = Ok (ok, scenario).
Proof.
  split; [|apply read_lines_total].
  intros object_type line dest. split.
  - intros Hnil. unfold read_object. rewrite Hnil. reflexivity.
  - apply read_object_total.
Qed.

Lemma read_lines_relevant (lines : list string) (scenario : Scenario) :
  read_lines float_of_string lines scenario
  = read_lines float_of_string (List.filter relevant lines) scenario.
Proof.
  revert scenario. induction lines as [|line rest IH]; intros scenario;
    [reflexivity|].
  cbn [List.filter]. destruct (relevant line) eqn:Hrel.
  - cbn [read_lines].
    destruct (PyStr.contains "#" line); [apply IH|].
    destruct (String.eqb (PyStr.strip line) ""); [apply IH|].
    repeat match goal with
           | |- context [if PyStr.contains ?w line then _ else _] =>
             destruct (PyStr.contains w line)
           end; [| | |reflexivity];
      match goal with
      | |- context [read_object _ ?t line ?d] =>
        destruct (read_object float_of_string t line d) as [[[] d']|e]
      end; simpl; auto.
  - rewrite read_lines_skip by exact Hrel. apply IH.
Qed.

(** X9. Comments and blank lines change nothing: the answer of
    [read_scenario] and the scenario it leaves are those of the lines that
    have no [#] anywhere and are not made of white space only.  A line
    with a [#] after an object is left out with the object. *)
Theorem comments_and_blanks_ignored (lines : list string) :
  read_scenario float_of_string lines
  = read_scenario float_of_string (List.filter relevant lines).
Proof. apply read_lines_relevant. Qed.

End Stored.

Lemma read_object_stores_witness :
  exists ident sx sy sz x y z,
    PyStr.split "user 1 0 0 6371" = ["user"; ident; sx; sy; sz] /\
    float_of_integer_literal sx = Some x /\
    float_of_integer_literal sy = Some y /\
    float_of_integer_literal sz = Some z /\
    PyDict.getitem [("1", mkVector3 0 0 6371); ("2", mkVector3 1 1 1)] ident
      = Ok (mkVector3 x y z) /\
    (forall k, k <> ident ->
       PyDict.lookup [("1", mkVector3 0 0 6371); ("2", mkVector3 1 1 1)] k
       = PyDict.lookup [("1", mkVector3 1 1 1); ("2", mkVector3 1 1 1)] k) /\
    PyDict.keys [("1", mkVector3 0 0 6371); ("2", mkVector3 1 1 1)] =
    (if decide (ident ∈ PyDict.keys [("1", mkVector3 1 1 1);
                                     ("2", mkVector3 1 1 1)])
     then PyDict.keys [("1", mkVector3 1 1 1); ("2", mkVector3 1 1 1)]
     else (PyDict.keys [("1", mkVector3 1 1 1); ("2", mkVector3 1 1 1)]
             ++ [ident])%list).
Proof.
  apply (read_object_stores float_of_integer_literal "user"
           "user 1 0 0 6371"
           [("1", mkVector3 1 1 1); ("2", mkVector3 1 1 1)] true
           [("1", mkVector3 0 0 6371); ("2", mkVector3 1 1 1)]).
  vm_compute. reflexivity.
Defined.

(** A comment after an object hides the object. *)
Example trailing_comment_hides_object :
  read_scenario float_of_integer_literal
    ["sat 1 0 0 42164 # geostationary"; "user 1 0 0 6371"]
  = Ok (true, mkScenario [] [("1", mkVector3 0 0 6371)] []).
Proof. vm_compute. reflexivity. Qed.

(** ** The entries of the assignment *)

Lemma dict_lookup_elem_of `{EqDecision K} {V : Type} (d : PyDict.dict K V)
    (k : K) (x : V) :
  NoDup (PyDict.keys d) -> (k, x) ∈ d -> PyDict.lookup d k = Some x.
Proof.
  induction d as [|[k' x'] d IH]; intros Hnd Hin; [inversion Hin|].
  cbn [PyDict.keys map fst] in Hnd. apply NoDup_cons in Hnd as [Hout Hnd].
  simpl. apply elem_of_cons in Hin as [Heq|Hin].
  - injection Heq as -> ->. rewrite decide_True by reflexivity. reflexivity.
  - destruct (decide (k' = k)) as [->|Hne]; [|auto].
    exfalso. apply Hout.
    apply (list_elem_of_fmap_2 fst) in Hin. exact Hin.
Qed.

Lemma elem_of_setitem `{EqDecision K} {V : Type} (d : PyDict.dict K V)
    (k k' : K) (x x' : V) :
  (k', x') ∈ PyDict.setitem d k x -> (k' = k /\ x' = x) \/ (k', x') ∈ d.
Proof.
  induction d as [|[k0 x0] d IH]; simpl; intros Hin.
  - apply list_elem_of_singleton in Hin. injection Hin as -> ->. auto.
  - destruct (decide (k0 = k)) as [->|Hne].
    + apply elem_of_cons in Hin as [Heq|Hin].
      * injection Heq as -> ->. auto.
      * right. right. exact Hin.
    + apply elem_of_cons in Hin as [Heq|Hin].
      * right. rewrite Heq. left.
      * destruct (IH Hin) as [?|?]; [auto|]. right. right. assumption.
Qed.

Section Entries.

Variable acos : float -> float.
Variable scenario : Scenario.
Variable num_sat_beam : nat.

(** The dictionary of the assignment has one entry per satellite with a
    beam, and no entry without a beam. *)
Lemma solve_users_entries (v : matrix) (k : nat) (v' : matrix)
    (sol' : solution) :
  solve_users acos scenario num_sat_beam v k = Ok (v', sol') ->
  NoDup (PyDict.keys sol') /\
  forall sat_id sat,
    (sat_id, sat) ∈ sol' -> sat <> [] /\ beams_of sol' sat_id = sat.
Proof.
  intros H.
  enough (Hinv : NoDup (PyDict.keys sol') /\
                 forall sat_id sat, (sat_id, sat) ∈ sol' -> sat <> []).
  { destruct Hinv as [Hnd Hne]. split; [exact Hnd|].
    intros sat_id sat Hin. split; [eauto|].
    unfold beams_of. rewrite (dict_lookup_elem_of _ _ _ Hnd Hin).
    reflexivity. }
  revert k v' sol' H.
  apply (solve_users_invariant acos scenario
           (fun _ _ sol' =>
              NoDup (PyDict.keys sol') /\
              forall sat_id sat, (sat_id, sat) ∈ sol' -> sat <> [])).
  - split; [apply NoDup_nil_2|]. intros sat_id sat Hin. inversion Hin.
  - intros k v1 sol1 v2 sol2 [Hnd Hne] Hstep.
    apply solve_user_cases in Hstep; [|lia].
    destruct Hstep as [(-> & -> & _)|(sat_id & color_i & Hstep)]; [auto|].
    simpl in Hstep. destruct Hstep as (_ & _ & _ & _ & _ & -> & _).
    split; [apply setitem_NoDup; exact Hnd|].
    intros sat beams Hin. apply elem_of_setitem in Hin as [[-> ->]|Hin];
      [|eauto].
    intros E. apply app_eq_nil in E as [_ E]. discriminate E.
Qed.

End Entries.

Lemma schedule_colors_valid (acos : float -> float) (scenario : Scenario)
    (v : matrix) (sol : solution) :
  schedule acos scenario = Ok (v, sol) -> colors_valid sol.
Proof.
  intros H. apply schedule_shape in H as (v0 & _ & _ & H & _).
  destruct (solve_users_entries _ _ _ _ _ _ _ H) as [_ Hentries].
  destruct (solve_users_beams _ _ _ _ _ _ _ H) as (Hbeams & _).
  unfold colors_valid. apply Forall_forall. intros [sat_id sat] Hin.
  apply Forall_forall. intros [user color_i] Hin'.
  destruct (Hentries _ _ Hin) as [_ Heq].
  apply list_elem_of_lookup_1 in Hin' as [i Hi]. rewrite <- Heq in Hi.
  apply Hbeams in Hi. tauto.
Qed.

Lemma elem_of_solution_lines (sol : solution) (line : string) :
  line ∈ solution_lines sol <->
  exists sat_id sat (i : nat) user color_i,
    (sat_id, sat) ∈ sol /\ sat !! i = Some (user, color_i) /\
    line = beam_line sat_id (Z.of_nat i + 1) user
             (default "" (valid_color_ids !! Z.to_nat color_i)).
Proof.
  unfold solution_lines. rewrite list_elem_of_In, in_flat_map. split.
  - intros ([sat_id sat] & Hin & Hline).
    apply list_elem_of_In in Hin, Hline. unfold sat_lines in Hline.
    apply elem_of_lookup_imap_1 in Hline as (i & [user color_i] & -> & Hi).
    exists sat_id, sat, i, user, color_i. auto.
  - intros (sat_id & sat & i & user & color_i & Hin & Hi & ->).
    exists (sat_id, sat). split; [apply list_elem_of_In; exact Hin|].
    apply list_elem_of_In. unfold sat_lines.
    apply (elem_of_lookup_imap_2
             (fun i '(user, color_i) =>
                beam_line sat_id (Z.of_nat i + 1) user
                  (default "" (valid_color_ids !! Z.to_nat color_i)))
             sat (user, color_i) i Hi).
Qed.

(** X10. What the scheduler's assignment prints.  [format_solution] ends
    well on it, and its lines are the beams of the assignment, one for one:
    every line names a satellite from 1 to the number of satellites, a beam
    whose number is in [valid_beam_ids], a user from 1 to the number of
    users and a color of [valid_color_ids], which are the beam at that
    place in the satellite's list; and every beam of the assignment has its
    line. *)
Theorem schedule_prints (acos : float -> float) (scenario : Scenario)
    (v : matrix) (sol : solution) :
  schedule acos scenario = Ok (v, sol) ->
  format_solution sol = Ok (concat_lines (solution_lines sol) ++ newline) /\
  (forall line,
     line ∈ solution_lines sol ->
     exists sat_id beam user color_i color,
       line = beam_line sat_id beam user color /\
       1 <= sat_id <= Z.of_nat (length (sats scenario)) /\
       PyStr.str beam ∈ valid_beam_ids /\
       1 <= user <= Z.of_nat (length (users scenario)) /\
       PyList.getitem valid_color_ids color_i = Ok color /\
       color ∈ valid_color_ids /\
       beams_of sol sat_id !! Z.to_nat (beam - 1) = Some (user, color_i)) /\
  (forall sat_id (i : nat) user color_i,
     beams_of sol sat_id !! i = Some (user, color_i) ->
     exists color,
       PyList.getitem valid_color_ids color_i = Ok color /\
       beam_line sat_id (Z.of_nat i + 1) user color ∈ solution_lines sol).
Proof.
  intros Hrun. pose proof (schedule_colors_valid _ _ _ _ Hrun) as Hvalid.
  apply schedule_shape in Hrun as (v0 & _ & _ & H & _ & Hshape).
  destruct (solve_users_entries _ _ _ _ _ _ _ H) as [Hnd Hentries].
  destruct (solve_users_beams _ _ _ _ _ _ _ H) as (Hbeams & _).
  split; [apply format_solution_Ok; exact Hvalid|]. split.
  - intros line Hline.
    apply elem_of_solution_lines in Hline
      as (sat_id & sat & i & user & color_i & Hin & Hi & ->).
    destruct (Hentries _ _ Hin) as [_ Heq]. rewrite <- Heq in Hi.
    destruct (Hbeams _ _ _ _ Hi) as (Hu & Hsat & Hcolor & Hcell).
    exists sat_id, (Z.of_nat i + 1), user, color_i,
           (default "" (valid_color_ids !! Z.to_nat color_i)).
    split; [reflexivity|]. split.
    { split; [exact Hsat|].
      apply (cell_shaped _ _ _ _ _ _ Hshape) in Hcell as [_ Hc].
      unfold column, colors_per_satellite in *. lia. }
    split.
    { unfold valid_beam_ids. apply list_elem_of_fmap_2.
      apply list_elem_of_In, In_range_from.
      pose proof (lookup_lt_Some _ _ _ Hi) as Hlt.
      destruct (solve_users_capacity _ _ _ _ _ _ _ H sat_id) as [Hcap _].
      unfold beams_per_satellite in *. lia. }
    split; [exact Hu|]. split; [apply color_getitem; exact Hcolor|].
    split; [apply color_word; exact Hcolor|].
    replace (Z.to_nat (Z.of_nat i + 1 - 1)) with i by lia. exact Hi.
  - intros sat_id i user color_i Hi.
    destruct (Hbeams _ _ _ _ Hi) as (_ & _ & Hcolor & _).
    exists (default "" (valid_color_ids !! Z.to_nat color_i)).
    split; [apply color_getitem; exact Hcolor|].
    apply elem_of_solution_lines.
    exists sat_id, (beams_of sol sat_id), i, user, color_i.
    split; [|auto].
    unfold beams_of in *.
    destruct (PyDict.lookup sol sat_id) as [beams|] eqn:Hl;
      [|discriminate Hi].
    simpl. clear -Hl. induction sol as [|[k x] sol IH]; [discriminate|].
    simpl in Hl. destruct (decide (k = sat_id)) as [->|Hne].
    + injection Hl as ->. left.
    + right. auto.
Qed.

Lemma schedule_prints_witness :
  format_solution [(2, [(1, 0)])]
    = Ok (concat_lines (solution_lines [(2, [(1, 0)])]) ++ newline) /\
  (forall line,
     line ∈ solution_lines [(2, [(1, 0)])] ->
     exists sat_id beam user color_i color,
       line = beam_line sat_id beam user color /\
       1 <= sat_id <= Z.of_nat (length (sats small_scenario)) /\
       PyStr.str beam ∈ valid_beam_ids /\
       1 <= user <= Z.of_nat (length (users small_scenario)) /\
       PyList.getitem valid_color_ids color_i = Ok color /\
       color ∈ valid_color_ids /\
       beams_of [(2, [(1, 0)])] sat_id !! Z.to_nat (beam - 1)
         = Some (user, color_i)) /\
  (forall sat_id (i : nat) user color_i,
     beams_of [(2, [(1, 0)])] sat_id !! i = Some (user, color_i) ->
     exists color,
       PyList.getitem valid_color_ids color_i = Ok color /\
       beam_line sat_id (Z.of_nat i + 1) user color
         ∈ solution_lines [(2, [(1, 0)])]).
Proof.
  apply (schedule_prints acos_by_thresholds small_scenario
           [[UNAVAILIBLE; UNAVAILIBLE; UNAVAILIBLE; UNAVAILIBLE;
             IN_USE; AVAILIBLE; AVAILIBLE; AVAILIBLE];
            [UNAVAILIBLE; UNAVAILIBLE; UNAVAILIBLE; UNAVAILIBLE;
             UNAVAILIBLE; UNAVAILIBLE; UNAVAILIBLE; UNAVAILIBLE]]
           [(2, [(1, 0)])]).
  vm_compute. reflexivity.
Defined.

(** X11. The exit code of [main] on a scenario file, and the exceptions
    that leave it.  The reader always answers.  When it answers [False] the
    exit code is -1.  When it answers [True] and the scheduler ends with an
    assignment, [format_solution] ends well on that assignment and the exit
    code is 0; when the scheduler raises, the exception is the one of
    [main]: the reader and [format_solution] add none.  So [main] returns
    0 or -1, and nothing else.  Nothing is said here of the text on the
    output. *)
Theorem main_outcomes (acos : float -> float)
    (float_of_string : string -> option float) (lines : list string) :
  (exists ok scenario,
     read_scenario float_of_string lines = Ok (ok, scenario)) /\
  (forall scenario,
     read_scenario float_of_string lines = Ok (false, scenario) ->
     exists out, main acos float_of_string lines = Ok (-1, out)) /\
  (forall scenario v sol,
     read_scenario float_of_string lines = Ok (true, scenario) ->
     schedule acos scenario = Ok (v, sol) ->
     is_ok (format_solution sol) = true /\
     exists out, main acos float_of_string lines = Ok (0, out)) /\
  (forall scenario e,
     read_scenario float_of_string lines = Ok (true, scenario) ->
     schedule acos scenario = Raise e ->
     main acos float_of_string lines = Raise e) /\
  (forall code out,
     main acos float_of_string lines = Ok (code, out) ->
     code = 0 \/ code = -1).
Proof.
  split; [apply read_lines_total|].
  split; [intros sc H; unfold main; rewrite H; simpl; eauto|].
  assert (Hrun : forall scenario v sol,
            read_scenario float_of_string lines = Ok (true, scenario) ->
            schedule acos scenario = Ok (v, sol) ->
            is_ok (format_solution sol) = true /\
            exists out, main acos float_of_string lines = Ok (0, out)).
  { intros sc v sol H Hs.
    pose proof (format_solution_Ok _ (schedule_colors_valid _ _ _ _ Hs))
      as Hf.
    split; [rewrite Hf; reflexivity|].
    unfold main. rewrite H. simpl. rewrite Hs. simpl. rewrite Hf.
    simpl. eauto. }
  split; [exact Hrun|].
  split; [intros sc e H Hs; unfold main; rewrite H; simpl; rewrite Hs;
          reflexivity|].
  intros code out H.
  destruct (read_lines_total float_of_string lines (mkScenario [] [] []))
    as (ok & sc & Hread).
  fold (read_scenario float_of_string lines) in Hread.
  destruct ok.
  - destruct (schedule acos sc) as [[v sol]|e] eqn:Hs.
    + destruct (Hrun _ _ _ Hread Hs) as [_ [out' Hm]].
      rewrite Hm in H. injection H as <- _. auto.
    + unfold main in H. rewrite Hread in H. simpl in H. rewrite Hs in H.
      discriminate H.
  - unfold main in H. rewrite Hread in H. simpl in H.
    injection H as <- _. auto.
Qed.

(** X12. How the program is entered.  With no argument after the name
    of the program the check of the arguments passes and [sys.argv[1]]
    raises [IndexError]: standard input is not read.  With two arguments or
    more, or with an empty [sys.argv], the exit code is -1 and no file is
    opened.  With one argument the file of that name is the scenario
    file. *)
Theorem main_argv_cases (acos : float -> float)
    (float_of_string : string -> option float)
    (readlines : string -> option (list string)) (argv : list string) :
  (length argv = 1%nat ->
   main_argv acos float_of_string readlines argv = Uncaught IndexError) /\
  (length argv <> 1%nat -> length argv <> 2%nat ->
   main_argv acos float_of_string readlines argv = Exit (-1) "") /\
  (forall prog filename,
     argv = [prog; filename] ->
     main_argv acos float_of_string readlines argv =
     match readlines filename with
     | None => OSError filename
     | Some scenariofile_lines =>
       match main acos float_of_string scenariofile_lines with
       | Ok (code, out) => Exit code out
       | Raise e => Uncaught e
       end
     end).
Proof.
  split; [|split].
  - intros H. destruct argv as [|prog [|]]; try discriminate H. reflexivity.
  - intros H1 H2. unfold main_argv.
    destruct (Nat.eqb_spec (length argv) 2), (Nat.eqb_spec (length argv) 1);
      try contradiction. reflexivity.
  - intros prog filename ->. reflexivity.
Qed.

(** ** Printing the matrix *)

(** A loop over the indices of a list that appends to the text what it
    renders of each element. *)
Lemma foldM_render {A : Type} (l : list A) (f : string -> Z -> res string)
    (render : A -> string) (a : nat) (out : string) :
  (forall (i : nat) x out,
     l !! i = Some x -> f out (Z.of_nat (a + i)) = Ok (out ++ render x)) ->
  foldM f out (range_from (Z.of_nat a) (length l))
  = Ok (out ++ concat_lines (map render l)).
Proof.
  revert a out. induction l as [|x l IH]; intros a out H.
  - simpl. rewrite append_nil_r. reflexivity.
  - cbn [length]. rewrite range_from_cons. cbn [foldM].
    pose proof (H 0%nat x out eq_refl) as H0. rewrite Nat.add_0_r in H0.
    rewrite H0. cbn [mbind res_bind].
    replace (Z.of_nat a + 1) with (Z.of_nat (S a)) by lia.
    rewrite IH.
    + change (concat_lines (map render (x :: l)))
        with (render x ++ concat_lines (map render l)).
      rewrite string_app_assoc. reflexivity.
    + intros i y out' Hi.
      replace (S a + i)%nat with (a + S i)%nat by lia. apply H. exact Hi.
Qed.

(** X13. What [matrix_printer] prints.  On a matrix with a row at least
    whose rows have the same length it ends well, and the text is the rows
    in order, each state followed by a comma and a space and each row by
    the end of the line.  On the empty matrix it raises [IndexError], as
    [main] does, for the length of the first row; and it raises nothing
    else. *)
Theorem matrix_printer_rows (U C : nat) (m : matrix) :
  (shaped U C m -> (0 < U)%nat -> matrix_printer m = Ok (matrix_text m)) /\
  (m = [] -> matrix_printer m = Raise IndexError) /\
  (forall e, matrix_printer m = Raise e -> e = IndexError).
Proof.
  split; [|split].
  - intros [Hlen Hrows] HU. unfold matrix_printer.
    destruct m as [|row0 m']; [simpl in Hlen; lia|].
    change (PyList.getitem (row0 :: m') 0) with (Ok row0 : res _).
    cbn [mbind res_bind].
    set (m := row0 :: m') in *.
    assert (Hrow0 : length row0 = C).
    { apply (Forall_lookup_1 _ _ 0%nat row0 Hrows). reflexivity. }
    rewrite Hrow0.
    change (range (length m)) with (range_from (Z.of_nat 0) (length m)).
    rewrite (foldM_render m _
               (fun row =>
                  concat_lines (map (fun s => BeamState_str s ++ ", ") row)
                  ++ newline) 0 "").
    + reflexivity.
    + intros i row out Hi. cbn [Nat.add].
      pose proof (Forall_lookup_1 _ _ _ _ Hrows Hi) as Hl. simpl in Hl.
      rewrite <- Hl. unfold range.
      change 0 with (Z.of_nat 0) at 1.
      rewrite (foldM_render row _ (fun s => BeamState_str s ++ ", ") 0 out).
      * cbn [mbind res_bind]. rewrite string_app_assoc. reflexivity.
      * intros j s out' Hj. cbn [Nat.add].
        assert (Hcell : getcell m (Z.of_nat i) (Z.of_nat j) = Ok s).
        { apply getcell_nonneg; [lia|lia|]. rewrite !Nat2Z.id.
          apply cell_Some. eauto. }
        rewrite Hcell. reflexivity.
  - intros ->. reflexivity.
  - intros e H. unfold matrix_printer in H.
    apply bind_Raise in H as [H|(row0 & _ & H)].
    + unfold PyList.getitem in H.
      apply bind_Raise in H as [H|(k & _ & H)].
      * unfold PyList.index in H. destruct (_ && _); congruence.
      * destruct (m !! k); congruence.
    + apply foldM_Raise in H as (out & row & _ & H).
      apply bind_Raise in H as [H|(? & _ & H)]; [|discriminate].
      apply foldM_Raise in H as (out' & col & _ & H).
      apply bind_Raise in H as [H|(? & _ & H)]; [|discriminate].
      unfold getcell in H.
      assert (Hget : forall (A : Type) (l : list A) i e,
                PyList.getitem l i = Raise e -> e = IndexError).
      { intros A l i e0 Hg. unfold PyList.getitem in Hg.
        apply bind_Raise in Hg as [Hg|(k & _ & Hg)].
        - unfold PyList.index in Hg. destruct (_ && _); congruence.
        - destruct (l !! k); congruence. }
      apply bind_Raise in H as [H|(? & _ & H)]; eapply Hget; eauto.
Qed.

Lemma matrix_printer_rows_witness :
  matrix_printer small_matrix = Ok (matrix_text small_matrix).
Proof.
  apply (proj1 (matrix_printer_rows 2 8 small_matrix)).
  - split; [reflexivity|]. repeat constructor.
  - lia.
Defined.

(** ** The matrix, whatever the identifiers *)

(** X14. The matrix that [generate_visibility_matrix] returns, with no
    assumption on the identifiers: it has a row per user and
    [colors_per_satellite] columns per satellite, no cell is [IN_USE], and
    a cell is [AVAILIBLE] exactly when it is written for a user and a
    satellite that pass the two checks, in the row [int(user_id) - 1] and
    one of the columns [(int(sat_id) - 1) * colors_per_satellite + i], the
    indices being read as Python reads them: a negative one counts from the
    end. *)
Theorem visibility_matrix_any_ids (acos : float -> float)
    (scenario : Scenario) (v : matrix) :
  generate_visibility_matrix acos scenario = Ok v ->
  shaped (length (users scenario))
         (length (sats scenario) * Z.to_nat colors_per_satellite) v /\
  (forall r c s, cell v r c = Some s -> s = AVAILIBLE \/ s = UNAVAILIBLE) /\
  (forall r c,
     cell v r c = Some AVAILIBLE <->
     exists user_id sat_id u s color_i,
       user_id ∈ PyDict.keys (users scenario) /\
       sat_id ∈ PyDict.keys (sats scenario) /\
       pair_visible acos scenario user_id sat_id = Ok true /\
       PyStr.int user_id = Ok u /\ PyStr.int sat_id = Ok s /\
       0 <= color_i < colors_per_satellite /\
       PyList.index (length (users scenario)) (u - 1) = Ok r /\
       PyList.index (length (sats scenario) * Z.to_nat colors_per_satellite)
         ((s - 1) * colors_per_satellite + color_i) = Ok c).
Proof.
  intros H. apply generate_visibility_matrix_constructed in H.
  destruct H as (Hshape & HA & HB & HC & _).
  split; [exact Hshape|]. split; [exact HC|].
  intros r c. split.
  - intros Hav.
    destruct (HA r c Hav)
      as (uid & sid & [Hu Hs] & Hvis & (u & s & i & Hiu & His & Hi & Hr & Hc)).
    apply range_colors in Hi.
    exists uid, sid, u, s, i. auto 10.
  - intros (uid & sid & u & s & i & Hu & Hs & Hvis & Hiu & His & Hi & Hr & Hc).
    apply (HB uid sid); auto.
    exists u, s, i. apply range_colors in Hi. auto.
Qed.

Lemma visibility_matrix_any_ids_witness :
  shaped (length (users zero_scenario))
         (length (sats zero_scenario) * Z.to_nat colors_per_satellite)
         [[AVAILIBLE; AVAILIBLE; AVAILIBLE; AVAILIBLE]] /\
  (forall r c s,
     cell [[AVAILIBLE; AVAILIBLE; AVAILIBLE; AVAILIBLE]] r c = Some s ->
     s = AVAILIBLE \/ s = UNAVAILIBLE) /\
  (forall r c,
     cell [[AVAILIBLE; AVAILIBLE; AVAILIBLE; AVAILIBLE]] r c
       = Some AVAILIBLE <->
     exists user_id sat_id u s color_i,
       user_id ∈ PyDict.keys (users zero_scenario) /\
       sat_id ∈ PyDict.keys (sats zero_scenario) /\
       pair_visible acos_by_thresholds zero_scenario user_id sat_id
         = Ok true /\
       PyStr.int user_id = Ok u /\ PyStr.int sat_id = Ok s /\
       0 <= color_i < colors_per_satellite /\
       PyList.index (length (users zero_scenario)) (u - 1) = Ok r /\
       PyList.index
         (length (sats zero_scenario) * Z.to_nat colors_per_satellite)
         ((s - 1) * colors_per_satellite + color_i) = Ok c).
Proof.
  apply (visibility_matrix_any_ids acos_by_thresholds zero_scenario).
  vm_compute. reflexivity.
Defined.

(** ** The interference test *)

(** X15. The test of self-interference does not depend on which of the
    two users has the beam: the angle at the satellite between two users is
    computed either way or neither, and is the same number, so the two
    users are too close, or clear of each other, in both orders. *)
Theorem interference_test_symmetric (acos : float -> float)
    (scenario : Scenario) (sat_id user1 user2 : Z) :
  (too_close acos scenario sat_id user1 user2 <->
   too_close acos scenario sat_id user2 user1) /\
  (clear_of acos scenario sat_id user1 user2 <->
   clear_of acos scenario sat_id user2 user1).
Proof.
  split; split;
    intros (sat_pos & p1 & p2 & angle & Hs & H1 & H2 & Hcalc & Hlt);
    exists sat_pos, p2, p1, angle;
    apply calculate_angle_degrees_sym in Hcalc; auto 10.
Qed.

(** ** The distance *)

(** Rounding does not look at the sign. *)
Lemma binary_round_aux_abs (s s' : bool) (m e : Z) (l : location) :
  SFabs (binary_round_aux prec emax s m e l)
  = SFabs (binary_round_aux prec emax s' m e l).
Proof.
  unfold binary_round_aux.
  destruct (shr_fexp prec emax m e l) as [mrs' e'].
  destruct (shr_fexp prec emax _ e' loc_Exact) as [mrs'' e''].
  destruct (shr_m mrs''); try reflexivity.
  destruct (e'' <=? emax - prec); reflexivity.
Qed.

Lemma binary_normalize_opp (m e : Z) :
  SFabs (binary_normalize prec emax (- m) e false)
  = SFabs (binary_normalize prec emax m e false).
Proof.
  destruct m as [|p|p]; [reflexivity| |]; simpl; unfold binary_round;
    destruct (shl_align _ _ _) as [mz ez]; apply binary_round_aux_abs.
Qed.

(** The two differences of two floats are equal up to the sign. *)
Lemma SFsub_abs (x y : spec_float) :
  SFabs (SFsub prec emax x y) = SFabs (SFsub prec emax y x).
Proof.
  destruct x as [sx|sx| |sx mx ex], y as [sy|sy| |sy my ey];
    try reflexivity;
    try (destruct sx, sy; reflexivity);
    try (destruct sx; reflexivity); try (destruct sy; reflexivity).
  unfold SFsub. rewrite (Z.min_comm ey ex).
  rewrite <- binary_normalize_opp. f_equal. f_equal. lia.
Qed.

Lemma sub_abs (x y : float) : abs (x - y) = abs (y - x).
Proof.
  apply Prim2SF_inj. rewrite !abs_spec, !sub_spec. apply SFsub_abs.
Qed.

(** The square looks at the absolute value only. *)
Lemma pow2_abs (x y : float) : abs x = abs y -> PyFloat.pow2 x = PyFloat.pow2 y.
Proof.
  intros H. pose proof (f_equal Prim2SF H) as Hsf. rewrite !abs_spec in Hsf.
  unfold PyFloat.pow2, PrimFloat.is_infinity. rewrite H.
  assert (Hzero : PrimFloat.eqb x 0 = PrimFloat.eqb y 0).
  { destruct (PrimFloat.eqb x 0) eqn:Hx, (PrimFloat.eqb y 0) eqn:Hy;
      try reflexivity.
    - apply eqb_zero in Hx as (s & Hx). rewrite Hx in Hsf.
      assert (Hy' : PrimFloat.eqb y 0 = true).
      { apply eqb_zero. destruct (Prim2SF y); try discriminate Hsf. eauto. }
      congruence.
    - apply eqb_zero in Hy as (s & Hy). rewrite Hy in Hsf.
      assert (Hx' : PrimFloat.eqb x 0 = true).
      { apply eqb_zero. destruct (Prim2SF x); try discriminate Hsf. eauto. }
      congruence. }
  rewrite Hzero.
  destruct (PrimFloat.is_nan x) eqn:Hx, (PrimFloat.is_nan y) eqn:Hy;
    try reflexivity.
  - apply is_nan_true in Hx, Hy. f_equal. apply Prim2SF_inj. congruence.
  - apply is_nan_true in Hx. rewrite Hx in Hsf.
    assert (Hy' : PrimFloat.is_nan y = true).
    { apply is_nan_true. destruct (Prim2SF y); try discriminate Hsf.
      reflexivity. }
    congruence.
  - apply is_nan_true in Hy. rewrite Hy in Hsf.
    assert (Hx' : PrimFloat.is_nan x = true).
    { apply is_nan_true. destruct (Prim2SF x); try discriminate Hsf.
      reflexivity. }
    congruence.
Qed.

(** X16. The distance is symmetric: from [a] to [b] and from [b] to [a]
    the function gives the same float, or raises the same exception. *)
Theorem calculate_distance_symmetric (point_a point_b : Vector3) :
  calculate_distance point_a point_b = calculate_distance point_b point_a.
Proof.
  unfold calculate_distance.
  rewrite (pow2_abs _ _ (sub_abs (vx point_b) (vx point_a))).
  rewrite (pow2_abs _ _ (sub_abs (vy point_b) (vy point_a))).
  rewrite (pow2_abs _ _ (sub_abs (vz point_b) (vz point_a))).
  reflexivity.
Qed.

Lemma sqrt_not_negative (x : float) :
  not_negative (Prim2SF x) = true ->
  not_negative (Prim2SF (PrimFloat.sqrt x)) = true.
Proof.
  rewrite sqrt_spec. unfold SF64sqrt, SFsqrt.
  destruct (Prim2SF x) as [s|s| |s m e]; try reflexivity;
    destruct s; try reflexivity; try discriminate.
  intros _. destruct (SFsqrt_core_binary prec emax (Z.pos m) e)
    as [[mz ez] lz].
  apply binary_round_aux_sign.
Qed.

Lemma not_negative_ltb (x : float) :
  not_negative (Prim2SF x) = true -> PrimFloat.ltb x 0 = false.
Proof.
  rewrite FloatAxioms.ltb_spec, Prim2SF_zero. unfold SFltb.
  destruct (Prim2SF x) as [s|s| |s m e]; simpl; try reflexivity;
    destruct s; try reflexivity; discriminate.
Qed.

(** X17. How the distance ends.  It raises nothing but [OverflowError],
    which comes from a square: the square root is always taken of a number
    that is not below zero.  When the three squares are computed the
    distance is the square root of their sum, and it is never below zero.
    Two points with finite and equal coordinates are at distance [0.0]. *)
Theorem calculate_distance_outcome (point_a point_b : Vector3) :
  (forall e, calculate_distance point_a point_b = Raise e ->
             e = OverflowError) /\
  (forall d, calculate_distance point_a point_b = Ok d ->
             PrimFloat.ltb d 0 = false) /\
  (forall x2 y2 z2,
     PyFloat.pow2 (vx point_b - vx point_a) = Ok x2 ->
     PyFloat.pow2 (vy point_b - vy point_a) = Ok y2 ->
     PyFloat.pow2 (vz point_b - vz point_a) = Ok z2 ->
     calculate_distance point_a point_b
     = Ok (PrimFloat.sqrt (x2 + y2 + z2))) /\
  (finite_vector point_a = true -> finite_vector point_b = true ->
   coincide point_a point_b = true ->
   calculate_distance point_a point_b = Ok 0%float).
Proof.
  assert (Hval : forall x2 y2 z2,
            PyFloat.pow2 (vx point_b - vx point_a) = Ok x2 ->
            PyFloat.pow2 (vy point_b - vy point_a) = Ok y2 ->
            PyFloat.pow2 (vz point_b - vz point_a) = Ok z2 ->
            calculate_distance point_a point_b
            = Ok (PrimFloat.sqrt (x2 + y2 + z2))).
  { intros x2 y2 z2 Hx Hy Hz. unfold calculate_distance.
    rewrite Hx, Hy, Hz. simpl. eapply sqrt_sum_of_squares; eauto. }
  split; [|split; [|split; [exact Hval|apply magnitude_coincide]]].
  - intros e H. apply (magnitude_raises point_a point_b). exact H.
  - intros d H.
    destruct (PyFloat.pow2 (vx point_b - vx point_a)) as [x2|] eqn:Hx;
      [|unfold calculate_distance in H; rewrite Hx in H; discriminate H].
    destruct (PyFloat.pow2 (vy point_b - vy point_a)) as [y2|] eqn:Hy;
      [|unfold calculate_distance in H; rewrite Hx, Hy in H;
        discriminate H].
    destruct (PyFloat.pow2 (vz point_b - vz point_a)) as [z2|] eqn:Hz;
      [|unfold calculate_distance in H; rewrite Hx, Hy, Hz in H;
        discriminate H].
    rewrite (Hval _ _ _ eq_refl eq_refl eq_refl) in H. injection H as <-.
    apply not_negative_ltb, sqrt_not_negative.
    apply pow2_not_negative in Hx, Hy, Hz.
    auto using add_not_negative.
Qed.

Lemma calculate_distance_outcome_witness :
  calculate_distance (mkVector3 0 0 6371) (mkVector3 (-0) 0 6371)
  = Ok 0%float.
Proof.
  apply (calculate_distance_outcome (mkVector3 0 0 6371)
           (mkVector3 (-0) 0 6371)); reflexivity.
Defined.

(** The converse fails: squares that underflow give the distance [0.0]
    between two points that differ. *)
Example calculate_distance_underflow :
  coincide origin (mkVector3 0x1p-600 0 0) = false /\
  calculate_distance origin (mkVector3 0x1p-600 0 0) = Ok 0%float.
Proof. split; reflexivity. Qed.

(** ** Writing a cell *)

(** X18. The bounds of [set_user_beam], on a matrix of [U] rows of [C]
    cells.  The row [user_i] and the column
    [(sat_id - 1) * colors_per_satellite + color_i] are indices as Python
    reads them: from 0 up, or from the end when they are negative.  When
    both denote a position the cell there takes the state and every other
    cell is kept; otherwise the function raises [IndexError]. *)
Theorem set_user_beam_bounds (U C : nat) (v : matrix)
    (user_i color_i sat_id : Z) (state : BeamState) :
  shaped U C v ->
  match PyList.index U user_i,
        PyList.index C ((sat_id - 1) * colors_per_satellite + color_i) with
  | Ok kr, Ok kc =>
    exists v',
      set_user_beam v user_i color_i sat_id state = Ok v' /\
      shaped U C v' /\
      forall r c, cell v' r c =
                  if decide (r = kr /\ c = kc) then Some state
                  else cell v r c
  | _, _ => set_user_beam v user_i color_i sat_id state = Raise IndexError
  end.
Proof.
  intros Hshape. pose proof Hshape as [Hlen Hrows].
  unfold set_user_beam, setcell, PyList.getitem, PyList.setitem.
  generalize ((sat_id - 1) * colors_per_satellite + color_i). intros col.
  rewrite Hlen.
  destruct (PyList.index U user_i) as [kr|e] eqn:Hkr.
  2:{ unfold PyList.index in Hkr. destruct (_ && _); [discriminate|].
      injection Hkr as <-.
      destruct (PyList.index C col); reflexivity. }
  cbn [mbind res_bind].
  pose proof Hkr as Hlt. apply index_Ok in Hlt as [Hlt _].
  destruct (lookup_lt_is_Some_2 v kr) as [row Hrow]; [lia|].
  rewrite Hrow. cbn [mbind res_bind].
  pose proof (Forall_lookup_1 _ _ _ _ Hrows Hrow) as Hl. simpl in Hl.
  rewrite Hl.
  destruct (PyList.index C col) as [kc|e] eqn:Hkc.
  2:{ unfold PyList.index in Hkc. destruct (_ && _); [discriminate|].
      injection Hkc as <-. reflexivity. }
  cbn [mbind res_bind]. eexists. split; [reflexivity|].
  split; [apply shaped_insert; assumption|].
  intros r c. apply cell_insert; [exact Hrow|].
  apply index_Ok in Hkc. lia.
Qed.

Lemma set_user_beam_bounds_witness :
  match PyList.index 2 (-1),
        PyList.index 8 ((2 - 1) * colors_per_satellite + 0) with
  | Ok kr, Ok kc =>
    exists v',
      set_user_beam small_matrix (-1) 0 2 IN_USE = Ok v' /\
      shaped 2 8 v' /\
      forall r c, cell v' r c =
                  if decide (r = kr /\ c = kc) then Some IN_USE
                  else cell small_matrix r c
  | _, _ => set_user_beam small_matrix (-1) 0 2 IN_USE = Raise IndexError
  end.
Proof.
  apply (set_user_beam_bounds 2 8 small_matrix (-1) 0 2 IN_USE).
  split; [reflexivity|]. repeat constructor.
Defined.

(** ** Identifiers that are never read *)

(** X19. The identifiers are read as numbers only for the pairs that
    pass the two checks: when every user and every satellite fail one of
    them, the matrix is returned as it was allocated, every cell
    [UNAVAILIBLE], whatever the identifiers are. *)
Theorem no_visible_pair_blank (acos : float -> float) (scenario : Scenario) :
  (forall user_id sat_id,
     user_id ∈ PyDict.keys (users scenario) ->
     sat_id ∈ PyDict.keys (sats scenario) ->
     pair_visible acos scenario user_id sat_id = Ok false) ->
  generate_visibility_matrix acos scenario = Ok (blank_matrix scenario).
Proof.
  intros H. unfold generate_visibility_matrix.
  apply foldM_unchanged. intros user_id Hu.
  apply foldM_unchanged. intros sat_id Hs.
  rewrite visibility_pair_eq.
  rewrite H by (apply list_elem_of_In; assumption). reflexivity.
Qed.

Lemma no_visible_pair_blank_witness :
  generate_visibility_matrix acos_by_thresholds
    (mkScenario [("north", mkVector3 0 0 42164)]
                [("seven", mkVector3 6371 0 0)] [])
  = Ok (blank_matrix
          (mkScenario [("north", mkVector3 0 0 42164)]
                      [("seven", mkVector3 6371 0 0)] [])).
Proof.
  apply (no_visible_pair_blank acos_by_thresholds).
  intros user_id sat_id Hu Hs. simpl in Hu, Hs.
  apply list_elem_of_singleton in Hu, Hs. subst.
  vm_compute. reflexivity.
Defined.

(** ** Satellites without a beam *)

Section Idle.

Variable acos : float -> float.
Variable scenario : Scenario.
Variable num_sat_beam : nat.

(** The columns of a satellite without a beam are as the scheduler found
    them. *)
Lemma solve_users_idle (v : matrix) (k : nat) (v' : matrix)
    (sol' : solution) :
  solve_users acos scenario num_sat_beam v k = Ok (v', sol') ->
  forall sat_id (r c : nat),
    beams_of sol' sat_id = [] ->
    column sat_id 0 <= Z.of_nat c < column sat_id colors_per_satellite ->
    cell v' r c = cell v r c.
Proof.
  revert k v' sol'.
  apply (solve_users_invariant acos scenario
           (fun _ v' sol' =>
              forall sat_id (r c : nat),
                beams_of sol' sat_id = [] ->
                column sat_id 0 <= Z.of_nat c
                  < column sat_id colors_per_satellite ->
                cell v' r c = cell v r c)).
  - reflexivity.
  - intros k v1 sol1 v2 sol2 IH Hstep sat r c Hidle Hc.
    apply solve_user_effect in Hstep; [|lia].
    destruct Hstep as [[-> ->]|(sat_id & color_i & v3 & Hsat & Hcolor & Hav
                                & -> & Hset & Hcl)]; [eauto|].
    rewrite beams_of_setitem in Hidle.
    destruct (decide (sat_id = sat)) as [->|Hne].
    { apply app_eq_nil in Hidle as [_ Hidle]. discriminate Hidle. }
    rewrite <- (IH sat r c Hidle Hc).
    assert (Hcol : 0 <= column sat_id color_i)
      by (unfold column, colors_per_satellite in *; lia).
    pose proof (setcell_cells _ _ _ _ _ (Nat2Z.is_nonneg k) Hcol Hset r c)
      as Hv3.
    rewrite decide_False in Hv3.
    2:{ intros [_ ->]. rewrite Z2Nat.id in Hc by exact Hcol.
        unfold column, colors_per_satellite in *. lia. }
    rewrite <- Hv3.
    destruct (Hcl r c) as [Heq|(_ & _ & Hb)]; [exact Heq|].
    exfalso. unfold blocked_by in Hb.
    destruct (_ =? _).
    + unfold column, colors_per_satellite in *. lia.
    + destruct Hb as [-> _]. rewrite Z2Nat.id in Hc by exact Hcol.
      unfold column, colors_per_satellite in *. lia.
Qed.

End Idle.

(** X20. A satellite without a beam is left alone: when the scheduler
    ends with an assignment in which the satellite has no beam, every cell
    of the satellite's columns is in the final matrix what it was in the
    matrix [generate_visibility_matrix] returned. *)
Theorem idle_satellite_untouched (acos : float -> float)
    (scenario : Scenario) (v : matrix) (sol : solution) (sat_id : Z)
    (r c : nat) :
  schedule acos scenario = Ok (v, sol) ->
  beams_of sol sat_id = [] ->
  column sat_id 0 <= Z.of_nat c < column sat_id colors_per_satellite ->
  exists v0,
    generate_visibility_matrix acos scenario = Ok v0 /\
    cell v r c = cell v0 r c.
Proof.
  intros H Hidle Hc. apply schedule_shape in H as (v0 & Hgen & _ & H & _).
  exists v0. split; [exact Hgen|].
  eapply solve_users_idle; eauto.
Qed.

Lemma idle_satellite_untouched_witness :
  exists v0,
    generate_visibility_matrix acos_by_thresholds small_scenario = Ok v0 /\
    cell [[UNAVAILIBLE; UNAVAILIBLE; UNAVAILIBLE; UNAVAILIBLE;
           IN_USE; AVAILIBLE; AVAILIBLE; AVAILIBLE];
          [UNAVAILIBLE; UNAVAILIBLE; UNAVAILIBLE; UNAVAILIBLE;
           UNAVAILIBLE; UNAVAILIBLE; UNAVAILIBLE; UNAVAILIBLE]] 0 2
    = cell v0 0 2.
Proof.
  apply (idle_satellite_untouched acos_by_thresholds small_scenario _
           [(2, [(1, 0)])] 1 0 2).
  - vm_compute. reflexivity.
  - reflexivity.
  - unfold column, colors_per_satellite. simpl. lia.
Defined.

(** ** What a file loads *)

Section Loads.

Variable float_of_string : string -> option float.

(** A line that is well formed and names one kind of object is stored. *)
Lemma read_lines_store (line : string) (rest : list string)
    (scenario : Scenario) :
  relevant line = true -> well_formed float_of_string line = true ->
  unambiguous line = true ->
  read_lines float_of_string (line :: rest) scenario
  = read_lines float_of_string rest (store float_of_string scenario line).
Proof.
  intros Hrel Hwf Hun. unfold relevant in Hrel.
  apply andb_true_iff in Hrel as [Hc Hb]. apply negb_true_iff in Hc, Hb.
  cbn [read_lines]. rewrite Hc, Hb.
  destruct (PyStr.split line) as [|kw tokens] eqn:Hsplit;
    [unfold well_formed in Hwf; rewrite Hsplit in Hwf; discriminate|].
  pose proof (first_token_contains _ _ _ Hsplit) as Hkw.
  unfold well_formed in Hwf. rewrite Hsplit in Hwf.
  destruct tokens as [|ident [|sx [|sy [|sz [|? ?]]]]]; try discriminate.
  repeat (apply andb_true_iff in Hwf as [Hwf ?]).
  apply bool_decide_eq_true_1 in Hwf. rename Hwf into Hkind.
  repeat match goal with
         | H : bool_decide (is_Some _) = true |- _ =>
           apply bool_decide_eq_true_1 in H; destruct H as [? ?]
         end.
  assert (Hobj : forall ty d,
            read_object float_of_string ty line d =
            Ok (if String.eqb kw ty
                then (true, PyDict.setitem d ident (mkVector3 x1 x0 x))
                else (false, d))).
  { intros ty d.
    rewrite read_object_spec by (rewrite Hsplit; discriminate).
    rewrite Hsplit. destruct (String.eqb kw ty); [|reflexivity].
    rewrite H1, H0, H. reflexivity. }
  unfold store. rewrite Hsplit, H1, H0, H. cbn zeta.
  unfold unambiguous in Hun. rewrite Hsplit in Hun.
  destruct (String.eqb kw "interferer") eqn:Hni;
    [apply String.eqb_eq in Hni; subst kw|apply String.eqb_neq in Hni].
  - rewrite Hkw, Hobj. reflexivity.
  - destruct (String.eqb kw "sat") eqn:Hns;
      [apply String.eqb_eq in Hns; subst kw|apply String.eqb_neq in Hns].
    + apply negb_true_iff in Hun. rewrite Hun, Hkw, Hobj. reflexivity.
    + assert (kw = "user") as ->.
      { rewrite !elem_of_cons, elem_of_nil in Hkind.
        destruct Hkind as [?|[?|[?|[]]]]; congruence. }
      apply andb_true_iff in Hun as [Hi Hs]. apply negb_true_iff in Hi, Hs.
      rewrite Hi, Hs, Hkw, Hobj. reflexivity.
Qed.

Lemma read_lines_loads (lines : list string) (scenario : Scenario) :
  Forall (fun line => relevant line = true ->
                      well_formed float_of_string line = true /\
                      unambiguous line = true) lines ->
  read_lines float_of_string lines scenario
  = Ok (true, fold_left (store float_of_string)
                (List.filter relevant lines) scenario).
Proof.
  intros H. revert scenario. induction H as [|line rest Hline H IH];
    intros scenario; [reflexivity|].
  cbn [List.filter]. destruct (relevant line) eqn:Hrel.
  - destruct (Hline eq_refl) as [Hwf Hun].
    rewrite read_lines_store by assumption. cbn [fold_left]. apply IH.
  - rewrite read_lines_skip by exact Hrel. apply IH.
Qed.

(** X21. What a file loads.  When every line that is neither a comment
    nor blank is well formed and names one kind of object, the reader
    answers [True] and the scenario holds the objects of those lines, each
    stored under its identifier in the dictionary of its keyword, in the
    order of the file, a later line for an identifier replacing the
    position given by an earlier one. *)
Theorem read_scenario_loads (lines : list string) :
  Forall (fun line => relevant line = true ->
                      well_formed float_of_string line = true /\
                      unambiguous line = true) lines ->
  read_scenario float_of_string lines
  = Ok (true, fold_left (store float_of_string)
                (List.filter relevant lines) (mkScenario [] [] [])).
Proof. apply read_lines_loads. Qed.

End Loads.

Lemma read_scenario_loads_witness :
  read_scenario float_of_integer_literal
    ["# one satellite, one user"; "sat 1 0 0 42164"; "";
     "user 1 0 0 1"; "user 1 0 0 6371"]
  = Ok (true,
        fold_left (store float_of_integer_literal)
          (List.filter relevant
             ["# one satellite, one user"; "sat 1 0 0 42164"; "";
              "user 1 0 0 1"; "user 1 0 0 6371"])
          (mkScenario [] [] [])).
Proof.
  apply (read_scenario_loads float_of_integer_literal).
  repeat first [apply Forall_cons_2 | apply Forall_nil_2];
    intros Hrel;
    first [vm_compute in Hrel; discriminate Hrel
          | vm_compute; split; reflexivity].
Defined.

(** The scenario of that file: the second line of the user counts. *)
Example read_scenario_loads_example :
  read_scenario float_of_integer_literal
    ["# one satellite, one user"; "sat 1 0 0 42164"; "";
     "user 1 0 0 1"; "user 1 0 0 6371"]
  = Ok (true, mkScenario [("1", mkVector3 0 0 42164)]
                         [("1", mkVector3 0 0 6371)] []).
Proof. vm_compute. reflexivity. Qed.

(** ** A scenario without satellites *)

(** X22. Users without a satellite: when the file loads, has a user at
    least and no satellite, [main] ends with the exit code 0 and prints the
    empty line only; no user has a beam, whatever the identifiers and the
    interferers are. *)
Theorem no_satellites_no_beam (acos : float -> float)
    (float_of_string : string -> option float) (lines : list string)
    (scenario : Scenario) :
  read_scenario float_of_string lines = Ok (true, scenario) ->
  sats scenario = [] -> users scenario <> [] ->
  schedule acos scenario
    = Ok (replicate (length (users scenario)) [], []) /\
  main acos float_of_string lines = Ok (0, newline).
Proof.
  intros Hread Hsats Husers. destruct scenario as [ss us ins].
  simpl in Hsats, Husers. subst ss.
  destruct (no_satellites_empty_assignment acos us ins Husers) as [Hs _].
  split; [exact Hs|].
  unfold main. rewrite Hread. simpl. rewrite Hs. reflexivity.
Qed.

Lemma no_satellites_no_beam_witness :
  schedule acos_by_thresholds
    (mkScenario [] [("1", mkVector3 0 0 6371); ("5", mkVector3 6371 0 0)]
                [("1", mkVector3 0 0 50000)])
    = Ok (replicate
            (length
               (users
                  (mkScenario []
                     [("1", mkVector3 0 0 6371); ("5", mkVector3 6371 0 0)]
                     [("1", mkVector3 0 0 50000)]))) [], []) /\
  main acos_by_thresholds float_of_integer_literal
    ["user 1 0 0 6371"; "interferer 1 0 0 50000"; "user 5 6371 0 0"]
  = Ok (0, newline).
Proof.
  apply (no_satellites_no_beam acos_by_thresholds float_of_integer_literal
           ["user 1 0 0 6371"; "interferer 1 0 0 50000"; "user 5 6371 0 0"]
           (mkScenario []
              [("1", mkVector3 0 0 6371); ("5", mkVector3 6371 0 0)]
              [("1", mkVector3 0 0 50000)])).
  - vm_compute. reflexivity.
  - reflexivity.
  - discriminate.
Defined.

(** ** The order of the satellites in the assignment *)

Section Order.

Variable acos : float -> float.
Variable scenario : Scenario.
Variable num_sat_beam : nat.

(** The satellites are in the dictionary in the order of the users who
    have their first beams. *)
Lemma solve_users_order (v : matrix) (k : nat) (v' : matrix)
    (sol' : solution) :
  solve_users acos scenario num_sat_beam v k = Ok (v', sol') ->
  (forall sat_id,
     sat_id ∈ PyDict.keys sol' ->
     exists user color_i,
       beams_of sol' sat_id !! 0%nat = Some (user, color_i) /\
       1 <= user <= Z.of_nat k) /\
  (forall (i j : nat) sat1 sat2 user1 color1 user2 color2,
     (i < j)%nat ->
     PyDict.keys sol' !! i = Some sat1 ->
     PyDict.keys sol' !! j = Some sat2 ->
     beams_of sol' sat1 !! 0%nat = Some (user1, color1) ->
     beams_of sol' sat2 !! 0%nat = Some (user2, color2) ->
     user1 < user2).
Proof.
  revert k v' sol'.
  apply (solve_users_invariant acos scenario
           (fun k _ sol' =>
              (forall sat_id,
                 sat_id ∈ PyDict.keys sol' ->
                 exists user color_i,
                   beams_of sol' sat_id !! 0%nat = Some (user, color_i) /\
                   1 <= user <= Z.of_nat k) /\
              (forall (i j : nat) sat1 sat2 user1 color1 user2 color2,
                 (i < j)%nat ->
                 PyDict.keys sol' !! i = Some sat1 ->
                 PyDict.keys sol' !! j = Some sat2 ->
                 beams_of sol' sat1 !! 0%nat = Some (user1, color1) ->
                 beams_of sol' sat2 !! 0%nat = Some (user2, color2) ->
                 user1 < user2))).
  - split.
    + intros sat_id Hin. inversion Hin.
    + intros i j s1 s2 u1 c1 u2 c2 _ Hi. discriminate Hi.
  - intros k v1 sol1 v2 sol2 [Hfirst Horder] Hstep.
    apply solve_user_cases in Hstep; [|lia].
    destruct Hstep as [(-> & -> & _)|(sat_id & color_i & Hstep)].
    { split; [|exact Horder]. intros s Hin.
      destruct (Hfirst s Hin) as (u & c & Hu & Hk). exists u, c.
      split; [exact Hu|lia]. }
    simpl in Hstep. destruct Hstep as (_ & _ & _ & _ & _ & -> & _).
    assert (Hhead : forall s u c,
              beams_of (PyDict.setitem sol1 sat_id
                          (beams_of sol1 sat_id ++ [(Z.of_nat k + 1, color_i)])%list) s !! 0%nat
              = Some (u, c) ->
              beams_of sol1 s !! 0%nat = Some (u, c) \/
              s = sat_id /\ (sat_id ∉ PyDict.keys sol1) /\
              u = Z.of_nat k + 1).
    { intros s u c H. rewrite beams_of_setitem in H.
      destruct (decide (sat_id = s)) as [<-|Hne]; [|auto].
      destruct (decide (sat_id ∈ PyDict.keys sol1)) as [Hin|Hout].
      - left. destruct (Hfirst _ Hin) as (u0 & c0 & Hu0 & _).
        rewrite (lookup_app_l_Some _ _ _ _ Hu0) in H. congruence.
      - right. unfold beams_of in H.
        rewrite (dict_lookup_None _ _ Hout) in H. simpl in H.
        injection H as <- _. auto. }
    rewrite keys_setitem.
    destruct (decide (sat_id ∈ PyDict.keys sol1)) as [Hin|Hout].
    + split.
      * intros s Hs. destruct (Hfirst s Hs) as (u & c & Hu & Hk).
        exists u, c. split; [|lia]. apply beams_of_kept. exact Hu.
      * intros i j s1 s2 u1 c1 u2 c2 Hij Hi Hj H1 H2.
        apply Hhead in H1 as [H1|(_ & ? & _)]; [|contradiction].
        apply Hhead in H2 as [H2|(_ & ? & _)]; [|contradiction].
        eauto.
    + split.
      * intros s Hs. apply elem_of_app in Hs as [Hs|Hs].
        -- destruct (Hfirst s Hs) as (u & c & Hu & Hk).
           exists u, c. split; [|lia]. apply beams_of_kept. exact Hu.
        -- apply list_elem_of_singleton in Hs. subst s.
           exists (Z.of_nat k + 1), color_i. split; [|lia].
           rewrite beams_of_setitem, decide_True by reflexivity.
           unfold beams_of. rewrite (dict_lookup_None _ _ Hout).
           reflexivity.
      * intros i j s1 s2 u1 c1 u2 c2 Hij Hi Hj H1 H2.
        assert (Hold : forall i s u c,
                  (i < length (PyDict.keys sol1))%nat ->
                  (PyDict.keys sol1 ++ [sat_id])%list !! i = Some s ->
                  beams_of (PyDict.setitem sol1 sat_id
                              (beams_of sol1 sat_id ++ [(Z.of_nat k + 1, color_i)])%list) s
                    !! 0%nat = Some (u, c) ->
                  PyDict.keys sol1 !! i = Some s /\
                  beams_of sol1 s !! 0%nat = Some (u, c) /\
                  u <= Z.of_nat k).
        { intros i0 s u c Hlt Hl Hb.
          rewrite lookup_app_l in Hl by exact Hlt.
          split; [exact Hl|].
          assert (Hs : s ∈ PyDict.keys sol1)
            by (eapply list_elem_of_lookup_2; eauto).
          apply Hhead in Hb as [Hb|(-> & ? & _)]; [|contradiction].
          split; [exact Hb|].
          destruct (Hfirst s Hs) as (u' & c' & Hu' & Hk). 
          assert (u = u') by congruence. lia. }
        pose proof (lookup_lt_Some _ _ _ Hj) as Hjlt.
        rewrite length_app in Hjlt. simpl in Hjlt.
        destruct (decide (j < length (PyDict.keys sol1))%nat) as [Hj'|Hj'].
        -- destruct (Hold i s1 u1 c1 ltac:(lia) Hi H1) as (Hi1 & Hb1 & _).
           destruct (Hold j s2 u2 c2 Hj' Hj H2) as (Hi2 & Hb2 & _).
           eauto.
        -- destruct (Hold i s1 u1 c1 ltac:(lia) Hi H1) as (_ & _ & Hle).
           assert (j = length (PyDict.keys sol1)) as -> by lia.
           rewrite lookup_app_r in Hj by lia.
           rewrite Nat.sub_diag in Hj. injection Hj as <-.
           apply Hhead in H2 as [H2|(_ & _ & Heq)].
           ++ exfalso. apply Hout.
              unfold beams_of in H2.
              destruct (PyDict.lookup sol1 sat_id) eqn:Hl;
                [|discriminate H2].
              eapply dict_lookup_Some_key; eauto.
           ++ lia.
Qed.

End Order.

(** X23. The order of the output.  In the assignment the scheduler
    returns, every satellite of the dictionary has a first beam, and the
    satellites come in the order of the users of their first beams: a
    satellite is printed before another one exactly as it got its first
    user before. *)
Theorem satellites_in_order_of_first_beam (acos : float -> float)
    (scenario : Scenario) (v : matrix) (sol : solution) :
  schedule acos scenario = Ok (v, sol) ->
  (forall sat_id,
     sat_id ∈ PyDict.keys sol ->
     exists user color_i,
       beams_of sol sat_id !! 0%nat = Some (user, color_i)) /\
  (forall (i j : nat) sat1 sat2 user1 color1 user2 color2,
     (i < j)%nat ->
     PyDict.keys sol !! i = Some sat1 ->
     PyDict.keys sol !! j = Some sat2 ->
     beams_of sol sat1 !! 0%nat = Some (user1, color1) ->
     beams_of sol sat2 !! 0%nat = Some (user2, color2) ->
     user1 < user2).
Proof.
  intros H. apply schedule_shape in H as (v0 & _ & _ & H & _).
  destruct (solve_users_order _ _ _ _ _ _ _ H) as [Hfirst Horder].
  split; [|exact Horder].
  intros s Hs. destruct (Hfirst s Hs) as (u & c & Hu & _). eauto.
Qed.

Lemma satellites_in_order_of_first_beam_witness :
  (forall sat_id,
     sat_id ∈ PyDict.keys [(2, [(1, 0)]); (1, [(2, 0)])] ->
     exists user color_i,
       beams_of [(2, [(1, 0)]); (1, [(2, 0)])] sat_id !! 0%nat
       = Some (user, color_i)) /\
  (forall (i j : nat) sat1 sat2 user1 color1 user2 color2,
     (i < j)%nat ->
     PyDict.keys [(2, [(1, 0)]); (1, [(2, 0)])] !! i = Some sat1 ->
     PyDict.keys [(2, [(1, 0)]); (1, [(2, 0)])] !! j = Some sat2 ->
     beams_of [(2, [(1, 0)]); (1, [(2, 0)])] sat1 !! 0%nat
       = Some (user1, color1) ->
     beams_of [(2, [(1, 0)]); (1, [(2, 0)])] sat2 !! 0%nat
       = Some (user2, color2) ->
     user1 < user2).
Proof.
  apply (satellites_in_order_of_first_beam acos_by_thresholds
           crossed_scenario
           [[UNAVAILIBLE; UNAVAILIBLE; UNAVAILIBLE; UNAVAILIBLE;
             IN_USE; AVAILIBLE; AVAILIBLE; AVAILIBLE];
            [IN_USE; AVAILIBLE; AVAILIBLE; AVAILIBLE;
             UNAVAILIBLE; UNAVAILIBLE; UNAVAILIBLE; UNAVAILIBLE]]
           [(2, [(1, 0)]); (1, [(2, 0)])]).
  vm_compute. reflexivity.
Defined.
